(** * Provider geocoding cache and reconciliation layer

    A shallow embedding of [src/services/providersService.ts]: the
    [GeocodingService] class (coordinate cache, remote lookup, static
    city table) and the [ProvidersService] class (snapshot store,
    reconciliation, merge, incremental geocoding, synchronisation,
    search, statistics), and of the store of
    [src/stores/providersStore.ts] that calls them.

    Conventions of the embedding.
    - JavaScript strings are modelled by [string], one [ascii] per code
      unit, which covers the code units below 256 (Latin-1); on that
      range [toLowerCase], [trim] and the [\s] class are the ECMAScript
      ones.
    - Instants ([Date.now()], ISO date strings) are integers, in
      milliseconds since the epoch; [new Date(s).getTime()] of a string
      produced by [toISOString()] is the instant itself.
    - Latitudes, longitudes and distances are rationals; the latitude
      or the longitude that an object lacks is [None], and so is the
      distance computed from it.  The haversine formula of
      [calculateDistance] is not evaluated: what uses it is stated for
      any function of the four numbers.
    - [AsyncStorage] is a record with one optional, already parsed value
      per storage key; reads and writes succeed.
    - Everything outside the program is an oracle in [Env]: the clock,
      the remote geocoder and the remote directory.  Exceptions raised by
      [fetch] or [response.json()] are constructors of the reply types,
      so that every [try]/[catch] of the source is a [match]. *)

From Stdlib Require Import QArith Ascii String.
From stdpp Require Import base option list strings gmap fin_maps.
From Stdlib Require Import Permutation Sorted.

Local Open Scope string_scope.
Local Open Scope Z_scope.

(** ** JavaScript string primitives *)

Module JsString.

Definition code (c : ascii) : N := N_of_ascii c.

(** [String.prototype.toLowerCase] on one code unit: A-Z, and the
    Latin-1 capitals U+00C0..U+00DE except the multiplication sign. *)
Definition lowerChar (c : ascii) : ascii :=
  let n := code c in
  if ((65 <=? n) && (n <=? 90))%N then ascii_of_N (n + 32)
  else if ((192 <=? n) && (n <=? 222) && negb (n =? 215))%N
       then ascii_of_N (n + 32)
       else c.

Fixpoint toLowerCase (s : string) : string :=
  match s with
  | EmptyString => EmptyString
  | String c r => String (lowerChar c) (toLowerCase r)
  end.

(** ECMAScript WhiteSpace and LineTerminator below 256: TAB, LF, VT,
    FF, CR, SP, NBSP.  This is the set of [trim] and of [\s]. *)
Definition isWhiteSpace (c : ascii) : bool :=
  let n := code c in
  (((9 <=? n) && (n <=? 13)) || (n =? 32) || (n =? 160))%N.

Fixpoint trimStart (s : string) : string :=
  match s with
  | EmptyString => EmptyString
  | String c r => if isWhiteSpace c then trimStart r else s
  end.

Definition isEmpty (s : string) : bool :=
  match s with EmptyString => true | String _ _ => false end.

Fixpoint trimEnd (s : string) : string :=
  match s with
  | EmptyString => EmptyString
  | String c r =>
      let r' := trimEnd r in
      if isWhiteSpace c && isEmpty r' then EmptyString else String c r'
  end.

Definition trim (s : string) : string := trimEnd (trimStart s).

(** [s.replace(/\s+/g, ' ')]: every maximal run of white space becomes
    one space.  [inRun] tells that the previous code unit was white
    space, whose run has been replaced already. *)
Fixpoint replaceRuns (inRun : bool) (s : string) : string :=
  match s with
  | EmptyString => EmptyString
  | String c r =>
      if isWhiteSpace c
      then (if inRun then replaceRuns true r
            else String " " (replaceRuns true r))
      else String c (replaceRuns false r)
  end.

Definition collapseWhiteSpace (s : string) : string := replaceRuns false s.

(** Truthiness of a string: non-empty. *)
Definition truthy (s : string) : bool := negb (isEmpty s).

(** [s.startsWith(t)], [s.includes(t)]. *)
Fixpoint startsWith (s t : string) : bool :=
  match t, s with
  | EmptyString, _ => true
  | String _ _, EmptyString => false
  | String b t', String a s' => Ascii.eqb a b && startsWith s' t'
  end.

Fixpoint includes (s t : string) : bool :=
  startsWith s t
  || match s with
     | EmptyString => false
     | String _ s' => includes s' t
     end.

End JsString.
Export JsString.

(** ** Types of the service *)

Inductive GeocodingSource := SourceApi | SourceManual | SourceFallback.
Inductive Accuracy := Exact | Approximate | CityLevel.
Inductive Sector := Prive | Public.

(** [latitude] and [longitude] are numbers in the declaration; an object
    built from a value without them has the fields [undefined], which
    is [None]. *)
Record ProviderCoordinates := {
  latitude : option Q;
  longitude : option Q;
  geocoded_at : Z;
  geocoding_source : GeocodingSource;
  accuracy : option Accuracy
}.

Record ProviderEmail := { email : string }.
Record ProviderPhone := { phone : string; whatsapp : option string }.

(** An entry of the remote directory:
    [Omit<Provider, 'coordinates' | 'distance_from_user' | 'last_updated'>]. *)
Record ApiProvider := {
  id : Z;
  title : string;
  provider_type : string;
  emails : list ProviderEmail;
  phones : list ProviderPhone;
  code_ : string;
  address : string;
  external_code : string;
  city : string;
  country : option string;
  county : option string;
  note : string;
  sector : Sector;
  agreeged : bool
}.

(** [Provider]: the directory fields ([api], spread by [{...apiProvider}])
    and the three fields the service adds. *)
Record Provider := {
  api : ApiProvider;
  coordinates : option ProviderCoordinates;
  distance_from_user : option Q;
  last_updated : option Z
}.

Record GeocodingMetadata := {
  total_providers : nat;
  geocoded_providers : nat;
  last_full_geocoding : Z;
  meta_version : string
}.

(** The object stored under [providers_cache] and
    [providers_with_coordinates_v2].  The [geocoding_stats] field of the
    latter is written and never read back; it is left out. *)
Record CacheData := {
  cd_providers : list Provider;
  cached_at : Z;
  cd_version : string
}.

Inductive Message :=
| MsgProcessed (n : nat)
    (* `${n} prestataires traités avec géolocalisation optimisée` *)
| MsgFullCacheFallback
    (* 'API inaccessible - Données depuis le cache complet avec coordonnées' *)
| MsgFromCache
    (* 'Données chargées depuis le cache avec coordonnées' *)
| MsgCacheFallback.
    (* 'API inaccessible - Données depuis le cache' *)

Inductive ErrorText :=
| ErrNetwork                 (* the message of the error [fetch] rejected with *)
| ErrHttp (status : Z)       (* `HTTP ${status}: ${statusText}` *)
| ErrBadJson                 (* the message of the error [response.json()] rejected with *)
| ErrInvalidFormat           (* 'Format de réponse API invalide' *)
| ErrSync.                   (* 'Erreur lors de la synchronisation des données' *)

(** [ApiResponse<Provider[]>]. *)
Record ApiResponse := {
  success : bool;
  data : list Provider;
  message : option Message;
  error : option ErrorText
}.

(** [ProviderSearchFilter]; an absent key is [None]. *)
Record NearLocation := {
  near_latitude : Q;
  near_longitude : Q;
  radiusKm : option Q
}.

Record ProviderSearchFilter := {
  filter_type : option string;
  filter_city : option string;
  filter_sector : option Sector;
  filter_agreeged : option bool;
  searchText : option string;
  nearLocation : option NearLocation
}.

(** [ProviderStats]; the three [Record<string, number>] are finite maps. *)
Record ProviderStats := {
  total : nat;
  by_type : gmap string nat;
  by_city : gmap string nat;
  by_sector : gmap string nat;
  conventioned : nat
}.

(** ** Configuration *)

Module GEOCODING_CONFIG.
Definition coordinatesCacheTimeout : Z := 90 * 24 * 60 * 60 * 1000.
Definition dataCacheTimeout : Z := 24 * 60 * 60 * 1000.
Definition requestDelay : Z := 1000.
End GEOCODING_CONFIG.

(** ** The world: storage, in-memory cache, and the outside *)

(** [response.ok]: the status is in the range 200-299. *)
Definition response_ok (status : Z) : bool := (200 <=? status) && (status <=? 299).

Record NominatimResult := { lat : Q; lon : Q }.
  (* [parseFloat(result.lat)], [parseFloat(result.lon)] *)

(** The body of a reply of the geocoder.  [GeoJson results] is the
    parsed value seen as the list of its results: a value that is falsy
    or has no positive [length] is the empty list, and the entries carry
    a numeric [lat] and [lon]. *)
Inductive NominatimBody :=
| GeoBadJson                                (* [response.json()] rejects *)
| GeoJson (results : list NominatimResult). (* the parsed array *)

Inductive NominatimReply :=
| GeoNetworkError                           (* [fetch] rejects *)
| GeoHttp (status : Z) (body : NominatimBody).

Inductive DirectoryBody :=
| DirBadJson
| DirJson (dir_success : bool) (dir_data : option (list ApiProvider)).
  (* [dir_data = None]: [apiData.data] is not an array *)

Inductive DirectoryReply :=
| DirNetworkError
| DirHttp (status : Z) (body : DirectoryBody).

Record Env := {
  clock : nat -> Z;
    (* the instant returned by the n-th reading of the clock *)
  nominatim : nat -> string -> NominatimReply;
    (* the reply to the n-th geocoding request, given its query *)
  directory : nat -> DirectoryReply
    (* the reply to the n-th request of the directory *)
}.

Record AsyncStorage := {
  providers_cache : option CacheData;
  providers_with_coordinates_v2 : option CacheData;
  geocoding_cache_v2 : option (gmap string ProviderCoordinates);
  geocoding_metadata : option GeocodingMetadata;
  providers_last_sync : option Z
}.

Record World := {
  env : Env;
  storage : AsyncStorage;
  cache : gmap string ProviderCoordinates;  (* GeocodingService.cache *)
  isInitialized : bool;                     (* GeocodingService.isInitialized *)
  ticks : nat;                              (* readings of the clock so far *)
  nominatim_log : list string;              (* geocoding queries sent, latest first *)
  directory_calls : nat;                    (* directory requests sent *)
  delays : nat                              (* calls of [delay] *)
}.

Definition set_storage (f : AsyncStorage -> AsyncStorage) (w : World) : World :=
  {| env := env w; storage := f (storage w); cache := cache w;
     isInitialized := isInitialized w; ticks := ticks w;
     nominatim_log := nominatim_log w; directory_calls := directory_calls w;
     delays := delays w |}.

Definition set_cache (f : gmap string ProviderCoordinates -> gmap string ProviderCoordinates)
    (w : World) : World :=
  {| env := env w; storage := storage w; cache := f (cache w);
     isInitialized := isInitialized w; ticks := ticks w;
     nominatim_log := nominatim_log w; directory_calls := directory_calls w;
     delays := delays w |}.

Definition set_isInitialized (b : bool) (w : World) : World :=
  {| env := env w; storage := storage w; cache := cache w;
     isInitialized := b; ticks := ticks w;
     nominatim_log := nominatim_log w; directory_calls := directory_calls w;
     delays := delays w |}.

Definition set_ticks (n : nat) (w : World) : World :=
  {| env := env w; storage := storage w; cache := cache w;
     isInitialized := isInitialized w; ticks := n;
     nominatim_log := nominatim_log w; directory_calls := directory_calls w;
     delays := delays w |}.

Definition set_nominatim_log (l : list string) (w : World) : World :=
  {| env := env w; storage := storage w; cache := cache w;
     isInitialized := isInitialized w; ticks := ticks w;
     nominatim_log := l; directory_calls := directory_calls w;
     delays := delays w |}.

Definition set_directory_calls (n : nat) (w : World) : World :=
  {| env := env w; storage := storage w; cache := cache w;
     isInitialized := isInitialized w; ticks := ticks w;
     nominatim_log := nominatim_log w; directory_calls := n;
     delays := delays w |}.

Definition set_delays (n : nat) (w : World) : World :=
  {| env := env w; storage := storage w; cache := cache w;
     isInitialized := isInitialized w; ticks := ticks w;
     nominatim_log := nominatim_log w; directory_calls := directory_calls w;
     delays := n |}.

(** Writers of one storage key. *)
Definition put_providers_cache (v : option CacheData) (s : AsyncStorage) :=
  {| providers_cache := v;
     providers_with_coordinates_v2 := providers_with_coordinates_v2 s;
     geocoding_cache_v2 := geocoding_cache_v2 s;
     geocoding_metadata := geocoding_metadata s;
     providers_last_sync := providers_last_sync s |}.

Definition put_providers_with_coordinates (v : option CacheData) (s : AsyncStorage) :=
  {| providers_cache := providers_cache s;
     providers_with_coordinates_v2 := v;
     geocoding_cache_v2 := geocoding_cache_v2 s;
     geocoding_metadata := geocoding_metadata s;
     providers_last_sync := providers_last_sync s |}.

Definition put_geocoding_cache (v : option (gmap string ProviderCoordinates))
    (s : AsyncStorage) :=
  {| providers_cache := providers_cache s;
     providers_with_coordinates_v2 := providers_with_coordinates_v2 s;
     geocoding_cache_v2 := v;
     geocoding_metadata := geocoding_metadata s;
     providers_last_sync := providers_last_sync s |}.

Definition put_geocoding_metadata (v : option GeocodingMetadata) (s : AsyncStorage) :=
  {| providers_cache := providers_cache s;
     providers_with_coordinates_v2 := providers_with_coordinates_v2 s;
     geocoding_cache_v2 := geocoding_cache_v2 s;
     geocoding_metadata := v;
     providers_last_sync := providers_last_sync s |}.

Definition put_last_sync (v : option Z) (s : AsyncStorage) :=
  {| providers_cache := providers_cache s;
     providers_with_coordinates_v2 := providers_with_coordinates_v2 s;
     geocoding_cache_v2 := geocoding_cache_v2 s;
     geocoding_metadata := geocoding_metadata s;
     providers_last_sync := v |}.

(** ** A state monad over the world *)

Definition Async (A : Type) : Type := World -> A * World.

Definition ret {A} (a : A) : Async A := fun w => (a, w).

Definition bind {A B} (m : Async A) (k : A -> Async B) : Async B :=
  fun w => let (a, w') := m w in k a w'.

Declare Scope async_scope.
Delimit Scope async_scope with async.
Notation "'let*' x ':=' m 'in' k" := (bind m (fun x => k))
  (at level 10, x pattern, m at level 100, k at level 200) : async_scope.
Notation "m ';;' k" := (bind m (fun _ => k))
  (at level 100, k at level 200, only parsing) : async_scope.
Local Open Scope async_scope.

Definition modify (f : World -> World) : Async unit := fun w => (tt, f w).
Definition gets {A} (f : World -> A) : Async A := fun w => (f w, w).

(** [Date.now()], [new Date()]: one reading of the clock. *)
Definition dateNow : Async Z :=
  fun w => (clock (env w) (ticks w), set_ticks (S (ticks w)) w).

(** The instant the next reading of the clock returns. *)
Definition currentTime (w : World) : Z := clock (env w) (ticks w).

(** [fetch] of the geocoder, up to the parsed body. *)
Definition fetchNominatim (query : string) : Async NominatimReply :=
  fun w => (nominatim (env w) (length (nominatim_log w)) query,
            set_nominatim_log (query :: nominatim_log w) w).

(** [fetch] of the directory, up to the parsed body. *)
Definition fetchDirectory : Async DirectoryReply :=
  fun w => (directory (env w) (directory_calls w),
            set_directory_calls (S (directory_calls w)) w).

Fixpoint mapM {A B} (f : A -> Async B) (l : list A) : Async (list B) :=
  match l with
  | [] => ret []
  | x :: r => let* y := f x in let* ys := mapM f r in ret (y :: ys)
  end.

(** ** GeocodingService *)

Module GeocodingService.

(** [loadCache]: when the key holds a value, the in-memory map is
    replaced by the persisted one. *)
Definition loadCache : Async unit :=
  let* cachedData := gets (fun w => geocoding_cache_v2 (storage w)) in
  match cachedData with
  | Some parsed => modify (set_cache (fun _ => parsed))
  | None => ret tt
  end.

Definition initialize : Async unit :=
  let* initialized := gets isInitialized in
  if initialized then ret tt
  else (loadCache ;; modify (set_isInitialized true)).

Definition saveCache : Async unit :=
  modify (fun w => set_storage (put_geocoding_cache (Some (cache w))) w).

Definition createCacheKey (address city : string) : string :=
  let cleanAddress := collapseWhiteSpace (trim (toLowerCase address)) in
  let cleanCity := trim (toLowerCase city) in
  cleanAddress +:+ "_" +:+ cleanCity.

Definition isCacheValid (coordinates : ProviderCoordinates) : Async bool :=
  let* now := dateNow in
  let cacheAge := now - geocoded_at coordinates in
  ret (cacheAge <? GEOCODING_CONFIG.coordinatesCacheTimeout).

Definition dec4 (n : Z) : Q := Qmake n 10000.

Definition e_grave : string := String (ascii_of_N 232) EmptyString.
Definition e_acute : string := String (ascii_of_N 233) EmptyString.

(** The table of [getFallbackCoordinates], in the order of the source;
    [cityCoordinates] is the finite map of its own keys. *)
Definition cityCoordinatesEntries : list (string * (Q * Q)) :=
  [ ("cotonou", (dec4 63654, dec4 24183));
    ("porto-novo", (dec4 64969, dec4 26283));
    ("parakou", (dec4 93372, dec4 26303));
    ("djougou", (dec4 97086, dec4 16706));
    ("bohicon", (dec4 71781, dec4 20672));
    ("kandi", (dec4 111342, dec4 29387));
    ("ouidah", (dec4 63617, dec4 20852));
    ("abomey", (dec4 71826, dec4 19912));
    ("abomey-calavi", (dec4 64421, dec4 23569));
    ("lokossa", (dec4 66389, dec4 17167));
    ("natitingou", (dec4 103167, dec4 13833));
    ("savalou", (dec4 79286, dec4 19753));
    ("pob" +:+ e_grave, (dec4 69833, dec4 26667));
    ("tchaourou", (dec4 88833, dec4 26000)) ].

Definition cityCoordinates : gmap string (Q * Q) :=
  list_to_map cityCoordinatesEntries.

(** The table is a plain object: besides its own keys it has the
    properties every object inherits from [Object.prototype].  Their
    values are functions, or the prototype itself for [__proto__]: all
    are truthy, and none has a [lat] or a [lng]. *)
Definition objectPrototypeKeys : list string :=
  [ "constructor"; "__proto__"; "hasOwnProperty"; "isPrototypeOf";
    "propertyIsEnumerable"; "toLocaleString"; "toString"; "valueOf";
    "__defineGetter__"; "__defineSetter__"; "__lookupGetter__";
    "__lookupSetter__" ].

Inductive TableValue :=
| OwnEntry (coords : Q * Q)
| InheritedValue.

Definition table_lat (value : TableValue) : option Q :=
  match value with OwnEntry coords => Some (fst coords) | InheritedValue => None end.

Definition table_lng (value : TableValue) : option Q :=
  match value with OwnEntry coords => Some (snd coords) | InheritedValue => None end.

(** [cityCoordinates[key]], [None] being [undefined]. *)
Definition readCityCoordinates (key : string) : option TableValue :=
  match cityCoordinates !! key with
  | Some coords => Some (OwnEntry coords)
  | None =>
      if List.existsb (String.eqb key) objectPrototypeKeys
      then Some InheritedValue
      else None
  end.

Definition getFallbackCoordinates (city : string)
    : Async (option ProviderCoordinates) :=
  let normalizedCity := trim (toLowerCase city) in
  match readCityCoordinates normalizedCity with
  | Some coords =>
      let* now := dateNow in
      let fallbackCoords :=
        {| latitude := table_lat coords;
           longitude := table_lng coords;
           geocoded_at := now;
           geocoding_source := SourceFallback;
           accuracy := Some CityLevel |} in
      let cacheKey := createCacheKey "" city in
      modify (set_cache (insert cacheKey fallbackCoords)) ;;
      saveCache ;;
      ret (Some fallbackCoords)
  | None => ret None
  end.

Definition defaultCountry : string := "B" +:+ e_acute +:+ "nin".

(** [address && address.trim()] *)
Definition hasAddress (address : string) : bool :=
  truthy address && truthy (trim address).

Definition buildQuery (address city country : string) : string :=
  if hasAddress address
  then address +:+ ", " +:+ city +:+ ", " +:+ country
  else city +:+ ", " +:+ country.

(** The [try]/[catch] block of [geocodeAddress]: one request; every
    [throw] and the empty result set end in [getFallbackCoordinates]. *)
Definition lookupRemote (cacheKey address city country : string)
    : Async (option ProviderCoordinates) :=
  let query := buildQuery address city country in
  let* response := fetchNominatim query in
  match response with
  | GeoNetworkError => getFallbackCoordinates city
  | GeoHttp status body =>
      if negb (response_ok status) then getFallbackCoordinates city
      else match body with
           | GeoBadJson => getFallbackCoordinates city
           | GeoJson [] => getFallbackCoordinates city
           | GeoJson (result :: _) =>
               let* now := dateNow in
               let coordinates :=
                 {| latitude := Some (lat result);
                    longitude := Some (lon result);
                    geocoded_at := now;
                    geocoding_source := SourceApi;
                    accuracy := Some (if hasAddress address
                                      then Approximate else CityLevel) |} in
               modify (set_cache (insert cacheKey coordinates)) ;;
               saveCache ;;
               ret (Some coordinates)
           end
  end.

Definition geocodeAddress (address city country : string)
    : Async (option ProviderCoordinates) :=
  initialize ;;
  let cacheKey := createCacheKey address city in
  let* entry := gets (fun w => cache w !! cacheKey) in
  match entry with
  | Some cached =>
      let* valid := isCacheValid cached in
      if valid then ret (Some cached)
      else (modify (set_cache (delete cacheKey)) ;;
            lookupRemote cacheKey address city country)
  | None => lookupRemote cacheKey address city country
  end.

(** [cleanExpiredCache]: entries strictly older than the timeout are
    deleted; the map is saved when one was. *)
Definition expiredAt (now : Z) (coordinates : ProviderCoordinates) : bool :=
  GEOCODING_CONFIG.coordinatesCacheTimeout <? now - geocoded_at coordinates.

Definition cleanExpiredCache : Async nat :=
  initialize ;;
  let* now := dateNow in
  let* before := gets cache in
  let kept := filter (fun kv => expiredAt now (snd kv) = false) before in
  let removedCount := (size before - size kept)%nat in
  modify (set_cache (fun _ => kept)) ;;
  (if (0 <? removedCount)%nat then saveCache else ret tt) ;;
  ret removedCount.

(** [delay]: the time that passes shows in the later readings of the
    clock. *)
Definition delay : Async unit :=
  modify (fun w => set_delays (S (delays w)) w).

(** [clearCache]: the in-memory map is emptied and the key removed. *)
Definition clearCache : Async unit :=
  modify (set_cache (fun _ => ∅)) ;;
  modify (set_storage (put_geocoding_cache None)).

End GeocodingService.

(** ** ProvidersService *)

Module ProvidersService.

Definition hasCoordinates (p : Provider) : bool :=
  match coordinates p with Some _ => true | None => false end.

Definition loadProvidersWithCoordinates : Async (list Provider) :=
  let* cachedData := gets (fun w => providers_with_coordinates_v2 (storage w)) in
  match cachedData with
  | None => ret []
  | Some parsed => ret (cd_providers parsed)
  end.

Definition saveProvidersWithCoordinates (providers : list Provider) : Async unit :=
  let* cachedAt := dateNow in
  let cacheData :=
    {| cd_providers := providers; cached_at := cachedAt; cd_version := "2.0" |} in
  modify (set_storage (put_providers_with_coordinates (Some cacheData))) ;;
  let* lastFull := dateNow in
  let metadata :=
    {| total_providers := length providers;
       geocoded_providers := length (List.filter hasCoordinates providers);
       last_full_geocoding := lastFull;
       meta_version := "2.0" |} in
  modify (set_storage (put_geocoding_metadata (Some metadata))).

(** The entry [cachedProviders.find(c => c.id === apiProvider.id)]. *)
Definition findCached (cachedProviders : list Provider) (apiProvider : ApiProvider)
    : option Provider :=
  List.find (fun c => id (api c) =? id apiProvider) cachedProviders.

Definition addressChanged (cachedProviders : list Provider)
    (apiProvider : ApiProvider) : bool :=
  match findCached cachedProviders apiProvider with
  | Some cached =>
      negb (String.eqb (address (api cached)) (address apiProvider))
      || negb (String.eqb (city (api cached)) (city apiProvider))
  | None => false
  end.

Definition needsGeocodingUpdate (apiProviders : list ApiProvider) : Async bool :=
  let* cachedProviders := loadProvidersWithCoordinates in
  let* metadata := gets (fun w => geocoding_metadata (storage w)) in
  if (length cachedProviders =? 0)%nat then ret true
  else match metadata with
  | None => ret true
  | Some metaParsed =>
      if negb (total_providers metaParsed =? length apiProviders)%nat then ret true
      else
        let cachedIds : gset Z := list_to_set (map (fun p => id (api p)) cachedProviders) in
        let newProviders :=
          List.filter (fun p => negb (bool_decide (id p ∈ cachedIds))) apiProviders in
        if (0 <? length newProviders)%nat then ret true
        else
          let addressChanges :=
            List.existsb (addressChanged cachedProviders) apiProviders in
          if addressChanges then ret true else ret false
  end.

(** [new Map(entries)]: a later entry of a key replaces an earlier one. *)
Definition setEntry (m : gmap Z ProviderCoordinates) (kv : Z * ProviderCoordinates)
    : gmap Z ProviderCoordinates :=
  <[fst kv := snd kv]> m.

Definition newMap (entries : list (Z * ProviderCoordinates))
    : gmap Z ProviderCoordinates :=
  foldl setEntry ∅ entries.

(** [cachedProviders.map(p => [p.id, p.coordinates]).filter(([_, coords]) => coords)] *)
Definition coordinateEntries (cachedProviders : list Provider)
    : list (Z * ProviderCoordinates) :=
  omap (fun p => match coordinates p with
                 | Some coords => Some (id (api p), coords)
                 | None => None
                 end) cachedProviders.

Definition mergeOne (cachedCoords : gmap Z ProviderCoordinates)
    (apiProvider : ApiProvider) : Async Provider :=
  let* now := dateNow in
  ret {| api := apiProvider;
         coordinates := cachedCoords !! id apiProvider;
         distance_from_user := None;
         last_updated := Some now |}.

Definition mergeWithCachedCoordinates (apiProviders : list ApiProvider)
    : Async (list Provider) :=
  let* cachedProviders := loadProvidersWithCoordinates in
  let cachedCoords := newMap (coordinateEntries cachedProviders) in
  mapM (mergeOne cachedCoords) apiProviders.

(** [provider.city || 'COTONOU'] *)
Definition cityOrDefault (p : Provider) : string :=
  if truthy (city (api p)) then city (api p) else "COTONOU".

(** The body of the [for] loop of [geocodeProviders], for the provider
    at the head of what is left to geocode.  [geocodeAddress] does not
    throw in this model, so the [catch] branch is not taken. *)
Definition geocodeOne (provider : Provider) (isLast : bool) : Async Provider :=
  let* coords :=
    GeocodingService.geocodeAddress (address (api provider)) (cityOrDefault provider)
      GeocodingService.defaultCountry in
  let* now := dateNow in
  let geocodedProvider :=
    {| api := api provider;
       coordinates := coords;
       distance_from_user := distance_from_user provider;
       last_updated := Some now |} in
  (if isLast then ret tt else GeocodingService.delay) ;;
  ret geocodedProvider.

Fixpoint geocodeLoop (needsGeocodingProviders : list Provider)
    : Async (list Provider) :=
  match needsGeocodingProviders with
  | [] => ret []
  | provider :: rest =>
      (* [i < needsGeocodingProviders.length - 1] fails on the last one *)
      let isLast := match rest with [] => true | _ :: _ => false end in
      let* geocodedProvider := geocodeOne provider isLast in
      let* others := geocodeLoop rest in
      ret (geocodedProvider :: others)
  end.

Definition geocodeProviders (providers : list Provider) : Async (list Provider) :=
  GeocodingService.initialize ;;
  let needsGeocodingProviders :=
    List.filter (fun p => negb (hasCoordinates p)) providers in
  let alreadyGeocodedProviders := List.filter hasCoordinates providers in
  if (length needsGeocodingProviders =? 0)%nat then ret providers
  else
    let* geocoded := geocodeLoop needsGeocodingProviders in
    ret (alreadyGeocodedProviders ++ geocoded)%list.

(** The error caught by the [catch] of [fetchProvidersFromAPI], when
    the request of the directory fails; [inr] carries [apiData.data]. *)
Definition directoryData (reply : DirectoryReply) : ErrorText + list ApiProvider :=
  match reply with
  | DirNetworkError => inl ErrNetwork
  | DirHttp status body =>
      if negb (response_ok status) then inl (ErrHttp status)
      else match body with
           | DirBadJson => inl ErrBadJson
           | DirJson true (Some apiData) => inr apiData
           | DirJson _ _ => inl ErrInvalidFormat
           end
  end.

Definition fetchProvidersFromAPI : Async ApiResponse :=
  let* response := fetchDirectory in
  match directoryData response with
  | inr apiData =>
      let* needsUpdate := needsGeocodingUpdate apiData in
      let* providersWithCoordinates :=
        (if needsUpdate then
           let* mergedProviders := mergeWithCachedCoordinates apiData in
           let* geocoded := geocodeProviders mergedProviders in
           saveProvidersWithCoordinates geocoded ;;
           ret geocoded
         else mergeWithCachedCoordinates apiData) in
      (* not awaited in the source; it only prunes the coordinate cache *)
      GeocodingService.cleanExpiredCache ;;
      ret {| success := true;
             data := providersWithCoordinates;
             message := Some (MsgProcessed (length providersWithCoordinates));
             error := None |}
  | inl err =>
      let* cachedProvidersWithCoords := loadProvidersWithCoordinates in
      if (0 <? length cachedProvidersWithCoords)%nat
      then ret {| success := true;
                  data := cachedProvidersWithCoords;
                  message := Some MsgFullCacheFallback;
                  error := None |}
      else ret {| success := false; data := [];
                  message := None; error := Some err |}
  end.

Definition saveToCache (providers : list Provider) : Async unit :=
  let* cachedAt := dateNow in
  let cacheData :=
    {| cd_providers := providers; cached_at := cachedAt; cd_version := "1.0" |} in
  modify (set_storage (put_providers_cache (Some cacheData))) ;;
  let* lastSync := dateNow in
  modify (set_storage (put_last_sync (Some lastSync))) ;;
  saveProvidersWithCoordinates providers.

Definition loadFromCache : Async (list Provider) :=
  let* providersWithCoords := loadProvidersWithCoordinates in
  if (0 <? length providersWithCoords)%nat then ret providersWithCoords
  else
    let* cachedData := gets (fun w => providers_cache (storage w)) in
    match cachedData with
    | None => ret []
    | Some parsed => ret (cd_providers parsed)
    end.

(** [diffHours > maxAgeHours], with [diffHours] the milliseconds since
    the last synchronisation divided by the milliseconds of an hour. *)
Definition isCacheExpired (maxAgeHours : Z) : Async bool :=
  let* lastSync := gets (fun w => providers_last_sync (storage w)) in
  match lastSync with
  | None => ret true
  | Some lastSyncDate =>
      let* now := dateNow in
      ret (maxAgeHours * (1000 * 60 * 60) <? now - lastSyncDate)
  end.

Definition syncProviders (forceRefresh : bool) : Async ApiResponse :=
  let* cacheExpired := isCacheExpired 24 in
  let* early :=
    (if negb forceRefresh && negb cacheExpired then
       let* cachedProviders := loadProvidersWithCoordinates in
       if (0 <? length cachedProviders)%nat
       then ret (Some {| success := true;
                         data := cachedProviders;
                         message := Some MsgFromCache;
                         error := None |})
       else ret None
     else ret None) in
  match early with
  | Some response => ret response
  | None =>
      let* apiResponse := fetchProvidersFromAPI in
      if success apiResponse && (0 <? length (data apiResponse))%nat
      then (saveToCache (data apiResponse) ;; ret apiResponse)
      else
        let* cachedProviders := loadFromCache in
        if (0 <? length cachedProviders)%nat
        then ret {| success := true;
                    data := cachedProviders;
                    message := Some MsgCacheFallback;
                    error := None |}
        else ret apiResponse
  end.

(** [clearCache]: every key of the service is removed, then the
    coordinate cache is cleared.  The key [providers_last_geocoding_sync]
    is never written; its removal changes nothing. *)
Definition clearCache : Async unit :=
  modify (set_storage (put_providers_cache None)) ;;
  modify (set_storage (put_providers_with_coordinates None)) ;;
  modify (set_storage (put_geocoding_cache None)) ;;
  modify (set_storage (put_geocoding_metadata None)) ;;
  modify (set_storage (put_last_sync None)) ;;
  GeocodingService.clearCache.

(** Truthiness of an optional string and of a number. *)
Definition truthyText (o : option string) : bool :=
  match o with Some t => truthy t | None => false end.

Definition truthyNumber (q : Q) : bool := negb (Qeq_bool q 0).

Definition sectorEqb (a b : Sector) : bool :=
  match a, b with
  | Prive, Prive | Public, Public => true
  | _, _ => false
  end.

(** [a.toLowerCase().includes(b.toLowerCase())] *)
Definition includesFolded (a b : string) : bool :=
  includes (toLowerCase a) (toLowerCase b).

Definition matchesSearch (searchLower : string) (p : Provider) : bool :=
  includes (toLowerCase (title (api p))) searchLower
  || includes (toLowerCase (address (api p))) searchLower
  || includes (toLowerCase (provider_type (api p))) searchLower
  || List.existsb (fun e => includes (toLowerCase (email e)) searchLower)
       (emails (api p)).

(** The key of the comparator [a.distance_from_user! - b.distance_from_user!]. *)
Definition distanceKey (p : Provider) : Q :=
  match distance_from_user p with Some d => d | None => 0%Q end.

(** Every record of the list has a distance that is a number. *)
Definition distancesDefined (l : list Provider) : Prop :=
  forall p, p ∈ l -> distance_from_user p <> None.

(** [Array.prototype.sort] with that comparator: the stable sort by
    increasing distance.  This is the order of the source on a list
    whose distances are all numbers ([distancesDefined]); with a
    distance that is [NaN] the comparator is not consistent and the
    order is left to the implementation: the model then gives one
    permutation, of which only that it is a permutation is used. *)
Fixpoint insertByDistance (p : Provider) (l : list Provider) : list Provider :=
  match l with
  | [] => [p]
  | q :: r =>
      if Qle_bool (distanceKey p) (distanceKey q) then p :: q :: r
      else q :: insertByDistance p r
  end.

Definition sortByDistanceFromUser (l : list Provider) : list Provider :=
  foldr insertByDistance [] l.

(** [p.distance_from_user! <= radiusKm]: false for [NaN]. *)
Definition withinRadius (p : Provider) (radius : Q) : bool :=
  match distance_from_user p with
  | Some d => Qle_bool d radius
  | None => false
  end.

Section Distance.

(** [calculateDistance lat1 lng1 lat2 lng2], in kilometres, on four
    numbers: the source computes the haversine formula in floating
    point; the functions that use it are stated for any such function. *)
Variable calculateDistance : Q -> Q -> Q -> Q -> Q.

(** [calculateDistance(userLat, userLng, c.latitude, c.longitude)]: it
    is [NaN] when the latitude or the longitude of [c] is [undefined].
    In [distance_from_user], [None] stands for [NaN] as for [undefined]:
    the test [<=] and the comparator of the sort, the only readers,
    treat the two alike. *)
Definition distanceFrom (userLat userLng : Q) (c : ProviderCoordinates)
    : option Q :=
  match latitude c, longitude c with
  | Some lat2, Some lng2 => Some (calculateDistance userLat userLng lat2 lng2)
  | _, _ => None
  end.

(** [.filter(p => p.coordinates).map(p => ({...p, distance_from_user}))] *)
Definition withDistanceFrom (userLat userLng : Q) (l : list Provider)
    : list Provider :=
  omap (fun p =>
          match coordinates p with
          | Some c =>
              Some {| api := api p; coordinates := coordinates p;
                      distance_from_user := distanceFrom userLat userLng c;
                      last_updated := last_updated p |}
          | None => None
          end) l.

Definition filterProviders (providers : list Provider)
    (filter : ProviderSearchFilter) : list Provider :=
  let filtered := providers in
  let filtered :=
    match filter_type filter with
    | Some t =>
        if truthy t
        then List.filter (fun p => includesFolded (provider_type (api p)) t) filtered
        else filtered
    | None => filtered
    end in
  let filtered :=
    match filter_city filter with
    | Some c =>
        if truthy c
        then List.filter (fun p => includesFolded (city (api p)) c) filtered
        else filtered
    | None => filtered
    end in
  let filtered :=
    match filter_sector filter with
    | Some s => List.filter (fun p => sectorEqb (sector (api p)) s) filtered
    | None => filtered
    end in
  let filtered :=
    match filter_agreeged filter with
    | Some a => List.filter (fun p => Bool.eqb (agreeged (api p)) a) filtered
    | None => filtered
    end in
  let filtered :=
    match searchText filter with
    | Some t =>
        if truthy t
        then List.filter (matchesSearch (toLowerCase t)) filtered
        else filtered
    | None => filtered
    end in
  match nearLocation filter with
  | Some near =>
      if truthyNumber (near_latitude near) && truthyNumber (near_longitude near)
      then
        let userLat := near_latitude near in
        let userLng := near_longitude near in
        let radius :=
          match radiusKm near with
          | Some r => if truthyNumber r then r else 10%Q
          | None => 10%Q
          end in
        sortByDistanceFromUser
          (List.filter (fun p => withinRadius p radius)
             (withDistanceFrom userLat userLng filtered))
      else filtered
  | None => filtered
  end.

End Distance.

(** [record[key] = (record[key] || 0) + 1], the record being a finite
    map over its own keys: the properties a JavaScript object inherits
    ([constructor], [toString], ...) are not modelled. *)
Definition increment (key : string) (record : gmap string nat) : gmap string nat :=
  <[key := (default 0%nat (record !! key) + 1)%nat]> record.

(** The text of a sector: 'privé' or 'public'. *)
Definition sectorName (s : Sector) : string :=
  match s with
  | Prive => "priv" +:+ GeocodingService.e_acute
  | Public => "public"
  end.

Definition countProvider (stats : ProviderStats) (provider : Provider)
    : ProviderStats :=
  {| total := total stats;
     by_type := increment (provider_type (api provider)) (by_type stats);
     by_city := increment (city (api provider)) (by_city stats);
     by_sector := increment (sectorName (sector (api provider))) (by_sector stats);
     conventioned :=
       if agreeged (api provider) then S (conventioned stats)
       else conventioned stats |}.

Definition getProviderStats (providers : list Provider) : ProviderStats :=
  foldl countProvider
    {| total := length providers; by_type := ∅; by_city := ∅; by_sector := ∅;
       conventioned := 0 |}
    providers.

End ProvidersService.

Import GeocodingService ProvidersService.

Arguments cityCoordinates : simpl never.
Arguments getFallbackCoordinates : simpl never.
Arguments createCacheKey : simpl never.
Arguments buildQuery : simpl never.
Arguments geocodeAddress : simpl never.

(** ** The store of [stores/providersStore.ts] *)

Module ProvidersStore.

Inductive ViewMode := ListMode | MapMode.

Record UserLocation := {
  loc_latitude : Q;
  loc_longitude : Q;
  loc_accuracy : option Q;
  loc_timestamp : Z;
  loc_address : option string
}.

(** A filter as the object it is: a key is absent ([None]), or present
    with a value that may be [undefined] ([Some None]). *)
Record FilterObject := {
  key_type : option (option string);
  key_city : option (option string);
  key_sector : option (option Sector);
  key_agreeged : option (option bool);
  key_searchText : option (option string);
  key_nearLocation : option (option NearLocation)
}.

(** The data of the store.  The [persist] middleware, which writes part
    of it to the storage under a key of its own, is left out. *)
Record ProvidersState := {
  providers : list Provider;
  filteredProviders : list Provider;
  stats : option ProviderStats;
  isLoading : bool;
  isRefreshing : bool;
  lastUpdated : option Z;
  currentFilter : FilterObject;
  searchQuery : string;
  selectedTypes : list string;
  selectedCities : list string;
  showOnlyConventioned : bool;
  viewMode : ViewMode;
  selectedProviderId : option Z;
  userLocation : option UserLocation;
  isGeolocating : bool;
  locationPermissionGranted : bool;
  showNearbyOnly : bool;
  proximityRadius : Q
}.

(** [set({ field: v })], one field at a time. *)
Definition set_providers (v : list Provider) (s : ProvidersState) : ProvidersState :=
  {| providers := v;
     filteredProviders := filteredProviders s;
     stats := stats s;
     isLoading := isLoading s;
     isRefreshing := isRefreshing s;
     lastUpdated := lastUpdated s;
     currentFilter := currentFilter s;
     searchQuery := searchQuery s;
     selectedTypes := selectedTypes s;
     selectedCities := selectedCities s;
     showOnlyConventioned := showOnlyConventioned s;
     viewMode := viewMode s;
     selectedProviderId := selectedProviderId s;
     userLocation := userLocation s;
     isGeolocating := isGeolocating s;
     locationPermissionGranted := locationPermissionGranted s;
     showNearbyOnly := showNearbyOnly s;
     proximityRadius := proximityRadius s |}.

Definition set_filteredProviders (v : list Provider) (s : ProvidersState) : ProvidersState :=
  {| providers := providers s;
     filteredProviders := v;
     stats := stats s;
     isLoading := isLoading s;
     isRefreshing := isRefreshing s;
     lastUpdated := lastUpdated s;
     currentFilter := currentFilter s;
     searchQuery := searchQuery s;
     selectedTypes := selectedTypes s;
     selectedCities := selectedCities s;
     showOnlyConventioned := showOnlyConventioned s;
     viewMode := viewMode s;
     selectedProviderId := selectedProviderId s;
     userLocation := userLocation s;
     isGeolocating := isGeolocating s;
     locationPermissionGranted := locationPermissionGranted s;
     showNearbyOnly := showNearbyOnly s;
     proximityRadius := proximityRadius s |}.

Definition set_stats (v : option ProviderStats) (s : ProvidersState) : ProvidersState :=
  {| providers := providers s;
     filteredProviders := filteredProviders s;
     stats := v;
     isLoading := isLoading s;
     isRefreshing := isRefreshing s;
     lastUpdated := lastUpdated s;
     currentFilter := currentFilter s;
     searchQuery := searchQuery s;
     selectedTypes := selectedTypes s;
     selectedCities := selectedCities s;
     showOnlyConventioned := showOnlyConventioned s;
     viewMode := viewMode s;
     selectedProviderId := selectedProviderId s;
     userLocation := userLocation s;
     isGeolocating := isGeolocating s;
     locationPermissionGranted := locationPermissionGranted s;
     showNearbyOnly := showNearbyOnly s;
     proximityRadius := proximityRadius s |}.

Definition set_isLoading (v : bool) (s : ProvidersState) : ProvidersState :=
  {| providers := providers s;
     filteredProviders := filteredProviders s;
     stats := stats s;
     isLoading := v;
     isRefreshing := isRefreshing s;
     lastUpdated := lastUpdated s;
     currentFilter := currentFilter s;
     searchQuery := searchQuery s;
     selectedTypes := selectedTypes s;
     selectedCities := selectedCities s;
     showOnlyConventioned := showOnlyConventioned s;
     viewMode := viewMode s;
     selectedProviderId := selectedProviderId s;
     userLocation := userLocation s;
     isGeolocating := isGeolocating s;
     locationPermissionGranted := locationPermissionGranted s;
     showNearbyOnly := showNearbyOnly s;
     proximityRadius := proximityRadius s |}.

Definition set_isRefreshing (v : bool) (s : ProvidersState) : ProvidersState :=
  {| providers := providers s;
     filteredProviders := filteredProviders s;
     stats := stats s;
     isLoading := isLoading s;
     isRefreshing := v;
     lastUpdated := lastUpdated s;
     currentFilter := currentFilter s;
     searchQuery := searchQuery s;
     selectedTypes := selectedTypes s;
     selectedCities := selectedCities s;
     showOnlyConventioned := showOnlyConventioned s;
     viewMode := viewMode s;
     selectedProviderId := selectedProviderId s;
     userLocation := userLocation s;
     isGeolocating := isGeolocating s;
     locationPermissionGranted := locationPermissionGranted s;
     showNearbyOnly := showNearbyOnly s;
     proximityRadius := proximityRadius s |}.

Definition set_lastUpdated (v : option Z) (s : ProvidersState) : ProvidersState :=
  {| providers := providers s;
     filteredProviders := filteredProviders s;
     stats := stats s;
     isLoading := isLoading s;
     isRefreshing := isRefreshing s;
     lastUpdated := v;
     currentFilter := currentFilter s;
     searchQuery := searchQuery s;
     selectedTypes := selectedTypes s;
     selectedCities := selectedCities s;
     showOnlyConventioned := showOnlyConventioned s;
     viewMode := viewMode s;
     selectedProviderId := selectedProviderId s;
     userLocation := userLocation s;
     isGeolocating := isGeolocating s;
     locationPermissionGranted := locationPermissionGranted s;
     showNearbyOnly := showNearbyOnly s;
     proximityRadius := proximityRadius s |}.

Definition set_currentFilter (v : FilterObject) (s : ProvidersState) : ProvidersState :=
  {| providers := providers s;
     filteredProviders := filteredProviders s;
     stats := stats s;
     isLoading := isLoading s;
     isRefreshing := isRefreshing s;
     lastUpdated := lastUpdated s;
     currentFilter := v;
     searchQuery := searchQuery s;
     selectedTypes := selectedTypes s;
     selectedCities := selectedCities s;
     showOnlyConventioned := showOnlyConventioned s;
     viewMode := viewMode s;
     selectedProviderId := selectedProviderId s;
     userLocation := userLocation s;
     isGeolocating := isGeolocating s;
     locationPermissionGranted := locationPermissionGranted s;
     showNearbyOnly := showNearbyOnly s;
     proximityRadius := proximityRadius s |}.

Definition set_searchQuery (v : string) (s : ProvidersState) : ProvidersState :=
  {| providers := providers s;
     filteredProviders := filteredProviders s;
     stats := stats s;
     isLoading := isLoading s;
     isRefreshing := isRefreshing s;
     lastUpdated := lastUpdated s;
     currentFilter := currentFilter s;
     searchQuery := v;
     selectedTypes := selectedTypes s;
     selectedCities := selectedCities s;
     showOnlyConventioned := showOnlyConventioned s;
     viewMode := viewMode s;
     selectedProviderId := selectedProviderId s;
     userLocation := userLocation s;
     isGeolocating := isGeolocating s;
     locationPermissionGranted := locationPermissionGranted s;
     showNearbyOnly := showNearbyOnly s;
     proximityRadius := proximityRadius s |}.

Definition set_selectedTypes (v : list string) (s : ProvidersState) : ProvidersState :=
  {| providers := providers s;
     filteredProviders := filteredProviders s;
     stats := stats s;
     isLoading := isLoading s;
     isRefreshing := isRefreshing s;
     lastUpdated := lastUpdated s;
     currentFilter := currentFilter s;
     searchQuery := searchQuery s;
     selectedTypes := v;
     selectedCities := selectedCities s;
     showOnlyConventioned := showOnlyConventioned s;
     viewMode := viewMode s;
     selectedProviderId := selectedProviderId s;
     userLocation := userLocation s;
     isGeolocating := isGeolocating s;
     locationPermissionGranted := locationPermissionGranted s;
     showNearbyOnly := showNearbyOnly s;
     proximityRadius := proximityRadius s |}.

Definition set_selectedCities (v : list string) (s : ProvidersState) : ProvidersState :=
  {| providers := providers s;
     filteredProviders := filteredProviders s;
     stats := stats s;
     isLoading := isLoading s;
     isRefreshing := isRefreshing s;
     lastUpdated := lastUpdated s;
     currentFilter := currentFilter s;
     searchQuery := searchQuery s;
     selectedTypes := selectedTypes s;
     selectedCities := v;
     showOnlyConventioned := showOnlyConventioned s;
     viewMode := viewMode s;
     selectedProviderId := selectedProviderId s;
     userLocation := userLocation s;
     isGeolocating := isGeolocating s;
     locationPermissionGranted := locationPermissionGranted s;
     showNearbyOnly := showNearbyOnly s;
     proximityRadius := proximityRadius s |}.

Definition set_showOnlyConventioned (v : bool) (s : ProvidersState) : ProvidersState :=
  {| providers := providers s;
     filteredProviders := filteredProviders s;
     stats := stats s;
     isLoading := isLoading s;
     isRefreshing := isRefreshing s;
     lastUpdated := lastUpdated s;
     currentFilter := currentFilter s;
     searchQuery := searchQuery s;
     selectedTypes := selectedTypes s;
     selectedCities := selectedCities s;
     showOnlyConventioned := v;
     viewMode := viewMode s;
     selectedProviderId := selectedProviderId s;
     userLocation := userLocation s;
     isGeolocating := isGeolocating s;
     locationPermissionGranted := locationPermissionGranted s;
     showNearbyOnly := showNearbyOnly s;
     proximityRadius := proximityRadius s |}.

Definition set_viewMode (v : ViewMode) (s : ProvidersState) : ProvidersState :=
  {| providers := providers s;
     filteredProviders := filteredProviders s;
     stats := stats s;
     isLoading := isLoading s;
     isRefreshing := isRefreshing s;
     lastUpdated := lastUpdated s;
     currentFilter := currentFilter s;
     searchQuery := searchQuery s;
     selectedTypes := selectedTypes s;
     selectedCities := selectedCities s;
     showOnlyConventioned := showOnlyConventioned s;
     viewMode := v;
     selectedProviderId := selectedProviderId s;
     userLocation := userLocation s;
     isGeolocating := isGeolocating s;
     locationPermissionGranted := locationPermissionGranted s;
     showNearbyOnly := showNearbyOnly s;
     proximityRadius := proximityRadius s |}.

Definition set_selectedProviderId (v : option Z) (s : ProvidersState) : ProvidersState :=
  {| providers := providers s;
     filteredProviders := filteredProviders s;
     stats := stats s;
     isLoading := isLoading s;
     isRefreshing := isRefreshing s;
     lastUpdated := lastUpdated s;
     currentFilter := currentFilter s;
     searchQuery := searchQuery s;
     selectedTypes := selectedTypes s;
     selectedCities := selectedCities s;
     showOnlyConventioned := showOnlyConventioned s;
     viewMode := viewMode s;
     selectedProviderId := v;
     userLocation := userLocation s;
     isGeolocating := isGeolocating s;
     locationPermissionGranted := locationPermissionGranted s;
     showNearbyOnly := showNearbyOnly s;
     proximityRadius := proximityRadius s |}.

Definition set_userLocation (v : option UserLocation) (s : ProvidersState) : ProvidersState :=
  {| providers := providers s;
     filteredProviders := filteredProviders s;
     stats := stats s;
     isLoading := isLoading s;
     isRefreshing := isRefreshing s;
     lastUpdated := lastUpdated s;
     currentFilter := currentFilter s;
     searchQuery := searchQuery s;
     selectedTypes := selectedTypes s;
     selectedCities := selectedCities s;
     showOnlyConventioned := showOnlyConventioned s;
     viewMode := viewMode s;
     selectedProviderId := selectedProviderId s;
     userLocation := v;
     isGeolocating := isGeolocating s;
     locationPermissionGranted := locationPermissionGranted s;
     showNearbyOnly := showNearbyOnly s;
     proximityRadius := proximityRadius s |}.

Definition set_isGeolocating (v : bool) (s : ProvidersState) : ProvidersState :=
  {| providers := providers s;
     filteredProviders := filteredProviders s;
     stats := stats s;
     isLoading := isLoading s;
     isRefreshing := isRefreshing s;
     lastUpdated := lastUpdated s;
     currentFilter := currentFilter s;
     searchQuery := searchQuery s;
     selectedTypes := selectedTypes s;
     selectedCities := selectedCities s;
     showOnlyConventioned := showOnlyConventioned s;
     viewMode := viewMode s;
     selectedProviderId := selectedProviderId s;
     userLocation := userLocation s;
     isGeolocating := v;
     locationPermissionGranted := locationPermissionGranted s;
     showNearbyOnly := showNearbyOnly s;
     proximityRadius := proximityRadius s |}.

Definition set_locationPermissionGranted (v : bool) (s : ProvidersState) : ProvidersState :=
  {| providers := providers s;
     filteredProviders := filteredProviders s;
     stats := stats s;
     isLoading := isLoading s;
     isRefreshing := isRefreshing s;
     lastUpdated := lastUpdated s;
     currentFilter := currentFilter s;
     searchQuery := searchQuery s;
     selectedTypes := selectedTypes s;
     selectedCities := selectedCities s;
     showOnlyConventioned := showOnlyConventioned s;
     viewMode := viewMode s;
     selectedProviderId := selectedProviderId s;
     userLocation := userLocation s;
     isGeolocating := isGeolocating s;
     locationPermissionGranted := v;
     showNearbyOnly := showNearbyOnly s;
     proximityRadius := proximityRadius s |}.

Definition set_showNearbyOnly (v : bool) (s : ProvidersState) : ProvidersState :=
  {| providers := providers s;
     filteredProviders := filteredProviders s;
     stats := stats s;
     isLoading := isLoading s;
     isRefreshing := isRefreshing s;
     lastUpdated := lastUpdated s;
     currentFilter := currentFilter s;
     searchQuery := searchQuery s;
     selectedTypes := selectedTypes s;
     selectedCities := selectedCities s;
     showOnlyConventioned := showOnlyConventioned s;
     viewMode := viewMode s;
     selectedProviderId := selectedProviderId s;
     userLocation := userLocation s;
     isGeolocating := isGeolocating s;
     locationPermissionGranted := locationPermissionGranted s;
     showNearbyOnly := v;
     proximityRadius := proximityRadius s |}.

Definition set_proximityRadius (v : Q) (s : ProvidersState) : ProvidersState :=
  {| providers := providers s;
     filteredProviders := filteredProviders s;
     stats := stats s;
     isLoading := isLoading s;
     isRefreshing := isRefreshing s;
     lastUpdated := lastUpdated s;
     currentFilter := currentFilter s;
     searchQuery := searchQuery s;
     selectedTypes := selectedTypes s;
     selectedCities := selectedCities s;
     showOnlyConventioned := showOnlyConventioned s;
     viewMode := viewMode s;
     selectedProviderId := selectedProviderId s;
     userLocation := userLocation s;
     isGeolocating := isGeolocating s;
     locationPermissionGranted := locationPermissionGranted s;
     showNearbyOnly := showNearbyOnly s;
     proximityRadius := v |}.

(** [{}], as an object and as the filter read from it. *)
Definition emptyObject : FilterObject :=
  {| key_type := None; key_city := None; key_sector := None;
     key_agreeged := None; key_searchText := None; key_nearLocation := None |}.

Definition emptyFilter : ProviderSearchFilter :=
  {| filter_type := None; filter_city := None; filter_sector := None;
     filter_agreeged := None; searchText := None; nearLocation := None |}.

(** [object.key]: [undefined] for an absent key. *)
Definition readKey {A} (k : option (option A)) : option A :=
  match k with Some v => v | None => None end.

(** The state the store is created with. *)

Definition initialState : ProvidersState :=
  {| providers := []; filteredProviders := []; stats := None;
     isLoading := false; isRefreshing := false; lastUpdated := None;
     currentFilter := emptyObject; searchQuery := ""; selectedTypes := [];
     selectedCities := []; showOnlyConventioned := false;
     viewMode := ListMode; selectedProviderId := None;
     userLocation := None; isGeolocating := false;
     locationPermissionGranted := false; showNearbyOnly := false;
     proximityRadius := 10%Q |}.

(** [{ ...a, ...b }] on filters: a key of [b] replaces the key of [a],
    also when its value is [undefined]. *)
Definition mergeFilter (a b : FilterObject) : FilterObject :=
  let pick {A} (x y : option A) := match y with Some _ => y | None => x end in
  {| key_type := pick (key_type a) (key_type b);
     key_city := pick (key_city a) (key_city b);
     key_sector := pick (key_sector a) (key_sector b);
     key_agreeged := pick (key_agreeged a) (key_agreeged b);
     key_searchText := pick (key_searchText a) (key_searchText b);
     key_nearLocation := pick (key_nearLocation a) (key_nearLocation b) |}.

(** [list.includes(x)] and [list.filter(t => t !== x)] on strings. *)
Definition listIncludes (l : list string) (x : string) : bool :=
  List.existsb (String.eqb x) l.

Definition without (l : list string) (x : string) : list string :=
  List.filter (fun t => negb (String.eqb t x)) l.

(** [list.some(x => field.toLowerCase().includes(x.toLowerCase()))] *)
Definition someIncluded (l : list string) (field : string) : bool :=
  List.existsb (fun x => includesFolded field x) l.

(** [Array.from(new Set(list))]: the distinct values, in the order of
    their first occurrence. *)
Fixpoint distinctFrom (seen l : list string) : list string :=
  match l with
  | [] => []
  | x :: r =>
      if listIncludes seen x then distinctFrom seen r
      else x :: distinctFrom (x :: seen) r
  end.

(** [Array.prototype.sort()] without comparator, on strings: increasing
    in the order of the code units. *)
Fixpoint insertString (s : string) (l : list string) : list string :=
  match l with
  | [] => [s]
  | t :: r => if String.leb s t then s :: t :: r else t :: insertString s r
  end.

Definition sortStrings (l : list string) : list string := foldr insertString [] l.

Definition getUniqueTypes (state : ProvidersState) : list string :=
  sortStrings (distinctFrom [] (map (fun p => provider_type (api p)) (providers state))).

Definition getUniqueCities (state : ProvidersState) : list string :=
  sortStrings (distinctFrom [] (map (fun p => city (api p)) (providers state))).

Section Distance.
Variable calculateDistance : Q -> Q -> Q -> Q -> Q.

(** The filter [applyFilters] builds, as [filterProviders] reads it: the
    three keys written after the spread replace those of
    [currentFilter], also when they are [undefined]. *)
Definition builtFilter (state : ProvidersState) : ProviderSearchFilter :=
  {| filter_type := readKey (key_type (currentFilter state));
     filter_city := readKey (key_city (currentFilter state));
     filter_sector := readKey (key_sector (currentFilter state));
     filter_agreeged := if showOnlyConventioned state then Some true else None;
     searchText :=
       if truthy (searchQuery state) then Some (searchQuery state) else None;
     nearLocation :=
       if showNearbyOnly state
       then match userLocation state with
            | Some location =>
                Some {| near_latitude := loc_latitude location;
                        near_longitude := loc_longitude location;
                        radiusKm := Some (proximityRadius state) |}
            | None => None
            end
       else None |}.

Definition applyFilters (state : ProvidersState) : ProvidersState :=
  let filtered := providers state in
  let filter := builtFilter state in
  let filtered :=
    match selectedTypes state with
    | [] => filtered
    | _ :: _ =>
        List.filter (fun p => someIncluded (selectedTypes state) (provider_type (api p)))
          filtered
    end in
  let filtered :=
    match selectedCities state with
    | [] => filtered
    | _ :: _ =>
        List.filter (fun p => someIncluded (selectedCities state) (city (api p)))
          filtered
    end in
  let filtered := filterProviders calculateDistance filtered filter in
  set_filteredProviders filtered state.

Definition setSearchQuery (query : string) (state : ProvidersState) : ProvidersState :=
  applyFilters (set_searchQuery query state).

Definition setFilter (filter : FilterObject) (state : ProvidersState)
    : ProvidersState :=
  applyFilters (set_currentFilter (mergeFilter (currentFilter state) filter) state).

Definition toggleProviderType (type : string) (state : ProvidersState)
    : ProvidersState :=
  let newTypes :=
    if listIncludes (selectedTypes state) type
    then without (selectedTypes state) type
    else (selectedTypes state ++ [type])%list in
  applyFilters (set_selectedTypes newTypes state).

Definition toggleCity (city : string) (state : ProvidersState) : ProvidersState :=
  let newCities :=
    if listIncludes (selectedCities state) city
    then without (selectedCities state) city
    else (selectedCities state ++ [city])%list in
  applyFilters (set_selectedCities newCities state).

Definition toggleConventioned (state : ProvidersState) : ProvidersState :=
  applyFilters (set_showOnlyConventioned (negb (showOnlyConventioned state)) state).

Definition clearFilters (state : ProvidersState) : ProvidersState :=
  applyFilters
    (set_showNearbyOnly false
       (set_showOnlyConventioned false
          (set_selectedCities []
             (set_selectedTypes []
                (set_searchQuery "" (set_currentFilter emptyObject state)))))).

Definition setViewMode (mode : ViewMode) (state : ProvidersState) : ProvidersState :=
  set_viewMode mode state.

Definition selectProvider (providerId : option Z) (state : ProvidersState)
    : ProvidersState :=
  set_selectedProviderId providerId state.

Definition getProviderById (providerId : Z) (state : ProvidersState)
    : option Provider :=
  List.find (fun p => id (api p) =? providerId) (providers state).

(** [if (!state.selectedProviderId) return null]: no identifier, or the
    identifier zero. *)
Definition getSelectedProvider (state : ProvidersState) : option Provider :=
  match selectedProviderId state with
  | None => None
  | Some providerId =>
      if providerId =? 0 then None else getProviderById providerId state
  end.

Definition setUserLocation (location : option UserLocation) (state : ProvidersState)
    : ProvidersState :=
  let state := set_isGeolocating false (set_userLocation location state) in
  match location with
  | Some _ => if showNearbyOnly state then applyFilters state else state
  | None => state
  end.

Definition setLocationPermission (granted : bool) (state : ProvidersState)
    : ProvidersState :=
  set_locationPermissionGranted granted state.

Definition toggleNearbyOnly (state : ProvidersState) : ProvidersState :=
  applyFilters (set_showNearbyOnly (negb (showNearbyOnly state)) state).

Definition setProximityRadius (radius : Q) (state : ProvidersState) : ProvidersState :=
  let state := set_proximityRadius radius state in
  if showNearbyOnly state then applyFilters state else state.

Definition sortByDistance (state : ProvidersState) : ProvidersState :=
  match userLocation state with
  | None => state
  | Some location =>
      set_filteredProviders
        (sortByDistanceFromUser
           (withDistanceFrom calculateDistance
              (loc_latitude location) (loc_longitude location)
              (filteredProviders state)))
        state
  end.

Definition getProvidersByType (type : string) (state : ProvidersState)
    : list Provider :=
  List.filter (fun p => includesFolded (provider_type (api p)) type) (providers state).

Definition getProvidersByCity (city_ : string) (state : ProvidersState)
    : list Provider :=
  List.filter (fun p => includesFolded (city (api p)) city_) (providers state).

(** [getNearbyProviders(radiusKm = 10)]: the default applies to an absent
    argument only. *)
Definition getNearbyProviders (radius : option Q) (state : ProvidersState)
    : list Provider :=
  match userLocation state with
  | None => []
  | Some location =>
      sortByDistanceFromUser
        (List.filter (fun p => withinRadius p (default 10%Q radius))
           (withDistanceFrom calculateDistance
              (loc_latitude location) (loc_longitude location)
              (providers state)))
  end.

Definition present {A} (o : option A) : bool :=
  match o with Some _ => true | None => false end.

(** [Object.keys(state.currentFilter).length > 0] *)
Definition hasKeys (f : FilterObject) : bool :=
  present (key_type f) || present (key_city f)
  || present (key_sector f) || present (key_agreeged f)
  || present (key_searchText f) || present (key_nearLocation f).

Definition isFilterActive (state : ProvidersState) : bool :=
  truthy (searchQuery state)
  || (0 <? length (selectedTypes state))%nat
  || (0 <? length (selectedCities state))%nat
  || showOnlyConventioned state
  || showNearbyOnly state
  || hasKeys (currentFilter state).

(** [fetchProviders]: nothing is done while a load is running, unless
    the refresh is forced; the list is replaced only by a non-empty
    successful answer. *)
Definition fetchProviders (forceRefresh : bool) (state : ProvidersState)
    : Async ProvidersState :=
  if isLoading state && negb forceRefresh then ret state
  else
    let state := set_isLoading true state in
    let* response := syncProviders forceRefresh in
    if success response && (0 <? length (data response))%nat
    then
      let newStats := getProviderStats (data response) in
      let* now := dateNow in
      ret (applyFilters
             (set_isLoading false
                (set_lastUpdated (Some now)
                   (set_stats (Some newStats)
                      (set_providers (data response) state)))))
    else ret (set_isLoading false state).

Definition refreshProviders (state : ProvidersState) : Async ProvidersState :=
  let state := set_isRefreshing true state in
  let* state := fetchProviders true state in
  ret (set_isRefreshing false state).

(** The answer of the store's [syncProviders]. *)
Record SyncStatus := { sync_success : bool; sync_error : option ErrorText }.

Definition syncProvidersStore (forceRefresh : bool) (state : ProvidersState)
    : Async (SyncStatus * ProvidersState) :=
  let* response := syncProviders forceRefresh in
  if success response
  then
    let newStats := getProviderStats (data response) in
    let* now := dateNow in
    ret ({| sync_success := true; sync_error := None |},
         applyFilters
           (set_lastUpdated (Some now)
              (set_stats (Some newStats) (set_providers (data response) state))))
  else ret ({| sync_success := false; sync_error := error response |}, state).

Definition clearCacheStore (state : ProvidersState) : Async ProvidersState :=
  ProvidersService.clearCache ;;
  ret (set_lastUpdated None
         (set_stats None (set_filteredProviders [] (set_providers [] state)))).

End Distance.

End ProvidersStore.

(** ** Vocabulary of the statements *)

(** The normalisation the specification describes for both components
    of the cache key: case-folded, trimmed, white space collapsed.  The
    source applies it to the address; see [createCacheKey]. *)
Definition spec_normalize (s : string) : string :=
  collapseWhiteSpace (trim (toLowerCase s)).

(** [s] does not begin with white space. *)
Definition headOk (s : string) : bool :=
  match s with EmptyString => true | String c _ => negb (isWhiteSpace c) end.

(** The normalisation the source applies to the city. *)
Definition normalizeCity (s : string) : string := trim (toLowerCase s).

(** The world once [GeocodingService.initialize] has run: its [cache] is
    the Coordinate Store the resolver consults. *)
Definition afterInitialize (w : World) : World := snd (initialize w).

(** The remote lookup failed (network error, status outside 200-299,
    payload that is not JSON) or returned an empty result set. *)
Definition lookupFailed (reply : NominatimReply) : bool :=
  match reply with
  | GeoNetworkError => true
  | GeoHttp status body =>
      negb (response_ok status)
      || match body with
         | GeoBadJson => true
         | GeoJson results => match results with [] => true | _ :: _ => false end
         end
  end.

(** The reply the geocoder gives to the next request. *)
Definition nextNominatimReply (w : World) (query : string) : NominatimReply :=
  nominatim (env w) (length (nominatim_log w)) query.

(** The reply the directory gives to the next request. *)
Definition nextDirectoryReply (w : World) : DirectoryReply :=
  directory (env w) (directory_calls w).

(** The persisted snapshot, as [loadProvidersWithCoordinates] reads it. *)
Definition snapshot (w : World) : list Provider :=
  fst (loadProvidersWithCoordinates w).

(** The world after the full pass of [fetchProvidersFromAPI] over a
    fresh list: merge, geocode what lacks a coordinate, save. *)
Definition afterFullPass (apiProviders : list ApiProvider) (w : World) : World :=
  let merged := mergeWithCachedCoordinates apiProviders w in
  let geocoded := geocodeProviders (fst merged) (snd merged) in
  snd (saveProvidersWithCoordinates (fst geocoded) (snd geocoded)).

(** The world after the merged list itself is saved. *)
Definition afterSaveMerged (apiProviders : list ApiProvider) (w : World) : World :=
  let merged := mergeWithCachedCoordinates apiProviders w in
  snd (saveProvidersWithCoordinates (fst merged) (snd merged)).

(** The records of a fresh list that share an identifier share their
    address and their city; so it is when identifiers are unique. *)
Definition consistentIds (apiProviders : list ApiProvider) : Prop :=
  forall p q, p ∈ apiProviders -> q ∈ apiProviders -> id p = id q ->
              address p = address q /\ city p = city q.

(** A record without its [last_updated] stamp. *)
Definition withoutStamp (p : Provider) : Provider :=
  {| api := api p; coordinates := coordinates p;
     distance_from_user := distance_from_user p; last_updated := None |}.

(** [m] leaves the observation [f] of the world as it found it. *)
Definition frames {A B} (f : World -> B) (m : Async A) : Prop :=
  forall w, f (snd (m w)) = f w.

(** Observations of the world that the clock, the storage, the
    coordinate cache and the geocoding requests do not reach: what is
    left is the environment and the count of directory requests. *)
Class Outside {B : Type} (f : World -> B) : Prop := {
  out_ticks : forall n w, f (set_ticks n w) = f w;
  out_storage : forall g w, f (set_storage g w) = f w;
  out_cache : forall g w, f (set_cache g w) = f w;
  out_init : forall b w, f (set_isInitialized b w) = f w;
  out_delays : forall n w, f (set_delays n w) = f w;
  out_log : forall l w, f (set_nominatim_log l w) = f w
}.

#[export] Instance Outside_env : Outside env.
Proof. by split. Qed.

#[export] Instance Outside_directory_calls : Outside directory_calls.
Proof. by split. Qed.

(** The list [fetchProvidersFromAPI] returns when the directory
    answered [apiData], from the world [w] in which the request has been
    counted. *)
Definition processed (apiData : list ApiProvider) (w : World) : list Provider :=
  let merged := mergeWithCachedCoordinates apiData w in
  if fst (needsGeocodingUpdate apiData w)
  then fst (geocodeProviders (fst merged) (snd merged))
  else fst merged.

(** The criteria of [filterProviders] that do not depend on a location:
    an absent or empty text does not filter. *)
Definition criteria (f : ProviderSearchFilter) (p : Provider) : bool :=
  (if truthyText (filter_type f)
   then includesFolded (provider_type (api p)) (default "" (filter_type f))
   else true)
  && (if truthyText (filter_city f)
      then includesFolded (city (api p)) (default "" (filter_city f))
      else true)
  && match filter_sector f with
     | Some s => sectorEqb (sector (api p)) s
     | None => true
     end
  && match filter_agreeged f with
     | Some a => Bool.eqb (agreeged (api p)) a
     | None => true
     end
  && (if truthyText (searchText f)
      then matchesSearch (toLowerCase (default "" (searchText f))) p
      else true).

(** The same filter without its location. *)
Definition withoutLocation (f : ProviderSearchFilter) : ProviderSearchFilter :=
  {| filter_type := filter_type f; filter_city := filter_city f;
     filter_sector := filter_sector f; filter_agreeged := filter_agreeged f;
     searchText := searchText f; nearLocation := None |}.

(** The location of a filter is not used: there is none, or its latitude
    or its longitude is zero. *)
Definition locationIgnored (f : ProviderSearchFilter) : Prop :=
  match nearLocation f with
  | None => True
  | Some near => Qeq (near_latitude near) 0 \/ Qeq (near_longitude near) 0
  end.

(** [radiusKm || 10] *)
Definition effectiveRadius (near : NearLocation) : Q :=
  match radiusKm near with
  | Some r => if truthyNumber r then r else 10%Q
  | None => 10%Q
  end.

(** Every coordinate of the list has a latitude and a longitude. *)
Definition wellLocated (l : list Provider) : Prop :=
  forall p c, p ∈ l -> coordinates p = Some c ->
              latitude c <> None /\ longitude c <> None.

(** The number of records of a list that [test] accepts. *)
Definition countWhere (test : Provider -> bool) (l : list Provider) : nat :=
  length (List.filter test l).

(** The shown list of a store is the one [applyFilters] computes from
    the rest of its state. *)
Definition upToDate (calculateDistance : Q -> Q -> Q -> Q -> Q)
    (state : ProvidersStore.ProvidersState) : Prop :=
  ProvidersStore.filteredProviders state
  = ProvidersStore.filteredProviders
      (ProvidersStore.applyFilters calculateDistance state).

(** The filter that asks for the providers around a position, and for
    nothing else. *)
Definition aroundOnly (location : ProvidersStore.UserLocation) (radius : option Q)
    : ProviderSearchFilter :=
  {| filter_type := None; filter_city := None; filter_sector := None;
     filter_agreeged := None; searchText := None;
     nearLocation :=
       Some {| near_latitude := ProvidersStore.loc_latitude location;
               near_longitude := ProvidersStore.loc_longitude location;
               radiusKm := radius |} |}.

(** ** Sample data *)

Module Sample.

Definition provider (i : Z) (a c : string) : ApiProvider :=
  {| id := i; title := "Pharmacie"; provider_type := "pharmacie";
     emails := []; phones := []; code_ := ""; address := a;
     external_code := ""; city := c; country := None; county := None;
     note := ""; sector := Prive; agreeged := true |}.

Definition emptyStorage : AsyncStorage :=
  {| providers_cache := None; providers_with_coordinates_v2 := None;
     geocoding_cache_v2 := None; geocoding_metadata := None;
     providers_last_sync := None |}.

Definition three : list ApiProvider :=
  [ provider 1 "12 Rue A" "Cotonou";
    provider 2 "Quartier X" "Nulle-Part";
    provider 3 "" "PARAKOU " ].

(** A clock that advances by one second at each reading, a geocoder
    that is unreachable, and a directory that lists [three] at the
    first request and nothing afterwards. *)
Definition unreachable : Env :=
  {| clock := fun n => 1000 * Z.of_nat n;
     nominatim := fun _ _ => GeoNetworkError;
     directory := fun n =>
       match n with
       | O => DirHttp 200 (DirJson true (Some three))
       | _ => DirHttp 200 (DirJson true (Some []))
       end |}.

(** The same, with a directory that is down. *)
Definition offline : Env :=
  {| clock := fun n => 1000 * Z.of_nat n;
     nominatim := fun _ _ => GeoNetworkError;
     directory := fun _ => DirNetworkError |}.

(** The same, with a directory that lists [three] at the first request
    and answers 503 afterwards. *)
Definition flaky : Env :=
  {| clock := fun n => 1000 * Z.of_nat n;
     nominatim := fun _ _ => GeoNetworkError;
     directory := fun n =>
       match n with
       | O => DirHttp 200 (DirJson true (Some three))
       | _ => DirHttp 503 DirBadJson
       end |}.

(** The same, with a directory that lists [three] at the first request
    and [moved] afterwards. *)
Definition relocating : Env :=
  {| clock := fun n => 1000 * Z.of_nat n;
     nominatim := fun _ _ => GeoNetworkError;
     directory := fun n =>
       match n with
       | O => DirHttp 200 (DirJson true (Some three))
       | _ => DirHttp 200 (DirJson true (Some
                [ provider 1 "45 Rue B" "Cotonou";
                  provider 2 "Quartier X" "Nulle-Part";
                  provider 3 "" "PARAKOU " ]))
       end |}.

(** [three], the first provider having moved. *)
Definition moved : list ApiProvider :=
  [ provider 1 "45 Rue B" "Cotonou";
    provider 2 "Quartier X" "Nulle-Part";
    provider 3 "" "PARAKOU " ].

Definition start (e : Env) : World :=
  {| env := e; storage := emptyStorage; cache := ∅; isInitialized := false;
     ticks := 0; nominatim_log := []; directory_calls := 0; delays := 0 |}.

Definition coords (t : Z) : ProviderCoordinates :=
  {| latitude := Some (dec4 63654); longitude := Some (dec4 24183);
     geocoded_at := t;
     geocoding_source := SourceApi; accuracy := Some Approximate |}.

Definition withEntry (key : string) (c : ProviderCoordinates) (w : World) : World :=
  set_isInitialized true (set_cache (insert key c) w).

(** The same as [unreachable], with a directory that always lists
    [three]. *)
Definition steady : Env :=
  {| clock := fun n => 1000 * Z.of_nat n;
     nominatim := fun _ _ => GeoNetworkError;
     directory := fun _ => DirHttp 200 (DirJson true (Some three)) |}.

(** The same, with a geocoder that answers every query with one
    result. *)
Definition reachable : Env :=
  {| clock := fun n => 1000 * Z.of_nat n;
     nominatim := fun _ _ =>
       GeoHttp 200 (GeoJson [ {| lat := dec4 63703; lon := dec4 23912 |} ]);
     directory := fun _ => DirHttp 200 (DirJson true (Some three)) |}.

(** A record with a coordinate, and a record without. *)
Definition located : Provider :=
  {| api := provider 1 "12 Rue A" "Cotonou";
     coordinates := Some (coords 0);
     distance_from_user := None; last_updated := None |}.

Definition unlocated : Provider :=
  {| api := provider 2 "Quartier X" "Nulle-Part";
     coordinates := None;
     distance_from_user := None; last_updated := None |}.

(** A distance that computes: the sum of the squares of the
    differences. *)
Definition squares (lat1 lng1 lat2 lng2 : Q) : Q :=
  ((lat2 - lat1) * (lat2 - lat1) + (lng2 - lng1) * (lng2 - lng1))%Q.

Definition position : ProvidersStore.UserLocation :=
  {| ProvidersStore.loc_latitude := dec4 63000;
     ProvidersStore.loc_longitude := dec4 24000;
     ProvidersStore.loc_accuracy := None;
     ProvidersStore.loc_timestamp := 0;
     ProvidersStore.loc_address := None |}.

(** A store that holds and shows the two records. *)
Definition shop : ProvidersStore.ProvidersState :=
  ProvidersStore.set_filteredProviders [located; unlocated]
    (ProvidersStore.set_providers [located; unlocated] ProvidersStore.initialState).

(** A filter on the type, and the same around a position. *)
Definition pharmacies : ProviderSearchFilter :=
  {| filter_type := Some "PHARMA"; filter_city := None; filter_sector := None;
     filter_agreeged := None; searchText := None; nearLocation := None |}.

Definition around : NearLocation :=
  {| near_latitude := dec4 63000; near_longitude := dec4 24000; radiusKm := None |}.

Definition pharmaciesAround : ProviderSearchFilter :=
  {| filter_type := Some "PHARMA"; filter_city := None; filter_sector := None;
     filter_agreeged := None; searchText := None; nearLocation := Some around |}.

(** The object [{ agreeged: true }]. *)
Definition agreegedKey : ProvidersStore.FilterObject :=
  {| ProvidersStore.key_type := None; ProvidersStore.key_city := None;
     ProvidersStore.key_sector := None;
     ProvidersStore.key_agreeged := Some (Some true);
     ProvidersStore.key_searchText := None;
     ProvidersStore.key_nearLocation := None |}.

End Sample.

(** ** The cache key *)

Lemma createCacheKey_eq address city :
  createCacheKey address city = spec_normalize address +:+ "_" +:+ normalizeCity city.
Proof. reflexivity. Qed.

(** *** Normal forms are fixed points of the normalisations *)

Lemma lowerChar_idem c : lowerChar (lowerChar c) = lowerChar c.
Proof. destruct c as [[] [] [] [] [] [] [] []]; reflexivity. Qed.

Lemma isWhiteSpace_lowerChar c : isWhiteSpace (lowerChar c) = isWhiteSpace c.
Proof. destruct c as [[] [] [] [] [] [] [] []]; reflexivity. Qed.

Lemma toLowerCase_idem s : toLowerCase (toLowerCase s) = toLowerCase s.
Proof. induction s as [|c s IH]; simpl; [done|]. by rewrite lowerChar_idem, IH. Qed.

Lemma isEmpty_toLowerCase s : isEmpty (toLowerCase s) = isEmpty s.
Proof. by destruct s. Qed.

Lemma trimStart_toLowerCase s : trimStart (toLowerCase s) = toLowerCase (trimStart s).
Proof.
  induction s as [|c s IH]; simpl; [done|].
  rewrite isWhiteSpace_lowerChar. by destruct (isWhiteSpace c).
Qed.

Lemma trimEnd_toLowerCase s : trimEnd (toLowerCase s) = toLowerCase (trimEnd s).
Proof.
  induction s as [|c s IH]; simpl; [done|].
  rewrite isWhiteSpace_lowerChar, IH, isEmpty_toLowerCase.
  by destruct (isWhiteSpace c && isEmpty (trimEnd s)).
Qed.

Lemma trim_toLowerCase s : trim (toLowerCase s) = toLowerCase (trim s).
Proof. unfold trim. by rewrite trimStart_toLowerCase, trimEnd_toLowerCase. Qed.

Lemma replaceRuns_toLowerCase b s :
  replaceRuns b (toLowerCase s) = toLowerCase (replaceRuns b s).
Proof.
  revert b. induction s as [|c s IH]; intros b; simpl; [done|].
  rewrite isWhiteSpace_lowerChar.
  destruct (isWhiteSpace c); [destruct b|]; simpl; by rewrite IH.
Qed.

Lemma replaceRuns_idem b s : replaceRuns b (replaceRuns b s) = replaceRuns b s.
Proof.
  revert b. induction s as [|c s IH]; intros b; simpl; [done|].
  destruct (isWhiteSpace c) eqn:Hc.
  - destruct b; [apply IH|]. simpl. by rewrite IH.
  - simpl. by rewrite Hc, IH.
Qed.

Lemma headOk_trimStart s : headOk (trimStart s) = true.
Proof.
  induction s as [|c s IH]; simpl; [done|].
  destruct (isWhiteSpace c) eqn:Hc; [done|]. simpl. by rewrite Hc.
Qed.

Lemma trimStart_headOk s : headOk s = true -> trimStart s = s.
Proof. destruct s as [|c s]; simpl; [done|]. by destruct (isWhiteSpace c). Qed.

Lemma headOk_trimEnd s : headOk s = true -> headOk (trimEnd s) = true.
Proof.
  destruct s as [|c s]; simpl; [done|].
  destruct (isWhiteSpace c) eqn:Hc; [done|]. simpl. by rewrite Hc.
Qed.

Lemma trimEnd_idem s : trimEnd (trimEnd s) = trimEnd s.
Proof.
  induction s as [|c s IH]; simpl; [done|].
  destruct (isWhiteSpace c && isEmpty (trimEnd s)) eqn:H; [done|].
  simpl. by rewrite IH, H.
Qed.

Lemma trim_idem s : trim (trim s) = trim s.
Proof.
  unfold trim. rewrite (trimStart_headOk (trimEnd (trimStart s))).
  - apply trimEnd_idem.
  - apply headOk_trimEnd, headOk_trimStart.
Qed.

Lemma trimEnd_fixed_cons c s :
  trimEnd (String c s) = String c s ->
  trimEnd s = s /\ isWhiteSpace c && isEmpty s = false.
Proof.
  simpl. destruct (isWhiteSpace c && isEmpty (trimEnd s)) eqn:H; [done|].
  intros [= Hs]. by rewrite Hs in H.
Qed.

Lemma replaceRuns_nonempty b s :
  trimEnd s = s -> isEmpty s = false -> isEmpty (replaceRuns b s) = false.
Proof.
  revert b. induction s as [|c s IH]; intros b Hfix Hne; [done|].
  apply trimEnd_fixed_cons in Hfix as [Hs Hc]. simpl.
  destruct (isWhiteSpace c); [|done].
  simpl in Hc. destruct b; [by apply IH|done].
Qed.

Lemma trimEnd_replaceRuns b s :
  trimEnd s = s -> trimEnd (replaceRuns b s) = replaceRuns b s.
Proof.
  revert b. induction s as [|c s IH]; intros b Hfix; [done|].
  apply trimEnd_fixed_cons in Hfix as [Hs Hc]. simpl.
  destruct (isWhiteSpace c) eqn:Hws.
  - simpl in Hc. destruct b; [by apply IH|].
    simpl. by rewrite (IH true Hs), (replaceRuns_nonempty true s Hs Hc).
  - simpl. by rewrite Hws, (IH false Hs).
Qed.

Lemma headOk_replaceRuns s : headOk s = true -> headOk (replaceRuns false s) = true.
Proof.
  destruct s as [|c s]; simpl; [done|].
  destruct (isWhiteSpace c) eqn:Hc; [done|]. simpl. by rewrite Hc.
Qed.

Lemma trim_collapse_trim s :
  trim (collapseWhiteSpace (trim s)) = collapseWhiteSpace (trim s).
Proof.
  unfold trim at 1. unfold collapseWhiteSpace.
  rewrite trimStart_headOk.
  - apply trimEnd_replaceRuns. unfold trim. apply trimEnd_idem.
  - apply headOk_replaceRuns. unfold trim. apply headOk_trimEnd, headOk_trimStart.
Qed.

Lemma spec_normalize_idem s : spec_normalize (spec_normalize s) = spec_normalize s.
Proof.
  unfold spec_normalize, collapseWhiteSpace.
  rewrite <- replaceRuns_toLowerCase, <- trim_toLowerCase, toLowerCase_idem.
  fold (collapseWhiteSpace (trim (toLowerCase s))).
  rewrite trim_collapse_trim. unfold collapseWhiteSpace. apply replaceRuns_idem.
Qed.

Lemma normalizeCity_idem s : normalizeCity (normalizeCity s) = normalizeCity s.
Proof.
  unfold normalizeCity. by rewrite <- trim_toLowerCase, toLowerCase_idem, trim_idem.
Qed.

(** C9, as stated, fails: two cities that differ by the length of an
    inner run of white space are equal after the described normalisation
    and get different keys. *)
Lemma C9_key_counterexample :
  spec_normalize "Rue A" = spec_normalize "Rue A"
  /\ spec_normalize "Porto  Novo" = spec_normalize "Porto Novo"
  /\ createCacheKey "Rue A" "Porto  Novo" <> createCacheKey "Rue A" "Porto Novo".
Proof. repeat split; vm_compute; congruence. Qed.

(** C9, amended: the key is determined by the address after case
    folding, trimming and collapsing of white space, and by the city
    after case folding and trimming; two pairs equal after these
    normalisations have the same key, hence the same entry of the map;
    and the key of a pair is the key of its normal forms. *)
Theorem C9_key_of_normalized (address1 city1 address2 city2 : string)
    (m : gmap string ProviderCoordinates) :
  spec_normalize address1 = spec_normalize address2 ->
  normalizeCity city1 = normalizeCity city2 ->
  createCacheKey address1 city1 = createCacheKey address2 city2
  /\ m !! createCacheKey address1 city1 = m !! createCacheKey address2 city2
  /\ createCacheKey (spec_normalize address1) (normalizeCity city1)
     = createCacheKey address1 city1.
Proof.
  intros Ha Hc. rewrite !createCacheKey_eq, Ha, Hc.
  split; [reflexivity|]. split; [reflexivity|].
  by rewrite <- Ha, <- Hc, spec_normalize_idem, normalizeCity_idem.
Qed.

Lemma C9_key_of_normalized_witness :
  createCacheKey "12  Rue A" "Cotonou " = createCacheKey " 12 rue a" "COTONOU"
  /\ (∅ : gmap string ProviderCoordinates) !! createCacheKey "12  Rue A" "Cotonou "
     = (∅ : gmap string ProviderCoordinates) !! createCacheKey " 12 rue a" "COTONOU"
  /\ createCacheKey (spec_normalize "12  Rue A") (normalizeCity "Cotonou ")
     = createCacheKey "12  Rue A" "Cotonou ".
Proof.
  apply (C9_key_of_normalized "12  Rue A" "Cotonou " " 12 rue a" "COTONOU" ∅);
    vm_compute; reflexivity.
Defined.

(** ** The resolver *)


Lemma initialize_spec w :
  initialize w =
  (tt, if isInitialized w then w
       else set_isInitialized true
              (match geocoding_cache_v2 (storage w) with
               | Some parsed => set_cache (fun _ => parsed) w
               | None => w
               end)).
Proof.
  unfold initialize, loadCache, bind, gets, modify, ret.
  destruct (isInitialized w); [reflexivity|].
  destruct (geocoding_cache_v2 (storage w)); reflexivity.
Qed.

Lemma afterInitialize_frame w :
  env (afterInitialize w) = env w
  /\ ticks (afterInitialize w) = ticks w
  /\ nominatim_log (afterInitialize w) = nominatim_log w
  /\ directory_calls (afterInitialize w) = directory_calls w
  /\ storage (afterInitialize w) = storage w
  /\ delays (afterInitialize w) = delays w
  /\ isInitialized (afterInitialize w) = true.
Proof.
  unfold afterInitialize. rewrite initialize_spec. simpl.
  destruct (isInitialized w) eqn:E; [by rewrite E|].
  destruct (geocoding_cache_v2 (storage w)); simpl; done.
Qed.

Lemma afterInitialize_idem w :
  isInitialized w = true -> afterInitialize w = w.
Proof. intros H. unfold afterInitialize. rewrite initialize_spec, H. done. Qed.

Lemma currentTime_afterInitialize w :
  currentTime (afterInitialize w) = currentTime w.
Proof.
  unfold currentTime. destruct (afterInitialize_frame w) as (-> & -> & _). done.
Qed.

(** [geocodeAddress], unfolded once over the world after initialisation. *)
Lemma geocodeAddress_unfold address city country w :
  geocodeAddress address city country w =
  let w0 := afterInitialize w in
  let cacheKey := createCacheKey address city in
  match cache w0 !! cacheKey with
  | Some cached =>
      if currentTime w - geocoded_at cached <? GEOCODING_CONFIG.coordinatesCacheTimeout
      then (Some cached, set_ticks (S (ticks w)) w0)
      else lookupRemote cacheKey address city country
             (set_cache (delete cacheKey) (set_ticks (S (ticks w)) w0))
  | None => lookupRemote cacheKey address city country w0
  end.
Proof.
  unfold geocodeAddress, bind at 1. unfold afterInitialize.
  destruct (initialize w) as [[] w0] eqn:E. simpl.
  assert (Hw0 : w0 = afterInitialize w) by (unfold afterInitialize; by rewrite E).
  unfold bind, gets. simpl.
  destruct (cache w0 !! createCacheKey address city) as [cached|]; [|done].
  unfold isCacheValid, bind, dateNow, ret, modify. simpl.
  replace (clock (env w0) (ticks w0)) with (currentTime w)
    by (rewrite Hw0, <- currentTime_afterInitialize; done).
  replace (ticks w0) with (ticks w)
    by (rewrite Hw0; symmetry; apply afterInitialize_frame).
  destruct (_ <? _); done.
Qed.

(** A city of the table is read as its own entry. *)
Lemma readCityCoordinates_own key coords :
  cityCoordinates !! key = Some coords ->
  readCityCoordinates key = Some (OwnEntry coords).
Proof. unfold readCityCoordinates. by intros ->. Qed.

(** The table object has no value for a key exactly when the key is
    neither a city of the table nor the name of an inherited property. *)
Lemma readCityCoordinates_None key :
  readCityCoordinates key = None <->
  cityCoordinates !! key = None /\ key ∉ objectPrototypeKeys.
Proof.
  unfold readCityCoordinates.
  destruct (cityCoordinates !! key) as [coords|].
  - split; [done|by intros [? _]].
  - destruct (List.existsb (String.eqb key) objectPrototypeKeys) eqn:He.
    + split; [done|]. intros [_ Hno]. exfalso. apply Hno.
      apply existsb_exists in He as (k & Hk & Heq).
      apply String.eqb_eq in Heq. subst. by apply list_elem_of_In.
    + split; [|done]. intros _. split; [done|]. intros Hin.
      assert (Ht : List.existsb (String.eqb key) objectPrototypeKeys = true).
      { apply existsb_exists. exists key.
        split; [by apply list_elem_of_In|apply String.eqb_refl]. }
      by rewrite Ht in He.
Qed.

(** Of the inherited names only [constructor] and [__proto__] are the
    case-folded, trimmed form of a text: the others have a capital. *)
Lemma readCityCoordinates_normalized city :
  readCityCoordinates (normalizeCity city) = None <->
  cityCoordinates !! normalizeCity city = None
  /\ normalizeCity city <> "constructor" /\ normalizeCity city <> "__proto__".
Proof.
  rewrite readCityCoordinates_None. split.
  - intros [Htable Hno]. split; [exact Htable|].
    split; intros Heq; apply Hno; rewrite Heq;
      apply list_elem_of_In; vm_compute; tauto.
  - intros (Htable & Hc & Hp). split; [exact Htable|]. intros Hin.
    pose proof (normalizeCity_idem city) as Hfix.
    apply list_elem_of_In in Hin. unfold objectPrototypeKeys in Hin.
    repeat (destruct Hin as [Heq|Hin];
            [first [ by apply Hc | by apply Hp
                   | rewrite <- Heq in Hfix; vm_compute in Hfix; discriminate ]|]).
    destruct Hin.
Qed.

(** What [getFallbackCoordinates] returns. *)
Lemma getFallbackCoordinates_result city w :
  fst (getFallbackCoordinates city w) =
  match readCityCoordinates (normalizeCity city) with
  | Some value =>
      Some {| latitude := table_lat value; longitude := table_lng value;
              geocoded_at := currentTime w;
              geocoding_source := SourceFallback;
              accuracy := Some CityLevel |}
  | None => None
  end.
Proof.
  unfold getFallbackCoordinates, normalizeCity.
  destruct (readCityCoordinates _); reflexivity.
Qed.

Lemma getFallbackCoordinates_log city w :
  nominatim_log (snd (getFallbackCoordinates city w)) = nominatim_log w.
Proof.
  unfold getFallbackCoordinates.
  destruct (readCityCoordinates _); reflexivity.
Qed.

(** A failed lookup ends in the table. *)
Lemma lookupRemote_failed cacheKey address city country w :
  lookupFailed (nextNominatimReply w (buildQuery address city country)) = true ->
  lookupRemote cacheKey address city country w =
  getFallbackCoordinates city
    (set_nominatim_log (buildQuery address city country :: nominatim_log w) w).
Proof.
  unfold lookupFailed, nextNominatimReply, lookupRemote, bind, fetchNominatim.
  destruct (nominatim _ _ _) as [|status [|[|r rs]]]; simpl; try done.
  - destruct (response_ok status); done.
  - destruct (response_ok status); done.
  - destruct (response_ok status); simpl; done.
Qed.

(** Each run of [lookupRemote] sends exactly one request. *)
Lemma lookupRemote_log cacheKey address city country w :
  nominatim_log (snd (lookupRemote cacheKey address city country w)) =
  buildQuery address city country :: nominatim_log w.
Proof.
  unfold lookupRemote, bind, fetchNominatim.
  destruct (nominatim _ _ _) as [|status [|[|r rs]]]; simpl;
    [|destruct (response_ok status); simpl ..];
    rewrite ?getFallbackCoordinates_log; done.
Qed.

Lemma lookupRemote_absent_key address city country w :
  isInitialized w = true ->
  cache w !! createCacheKey address city = None ->
  geocodeAddress address city country w =
  lookupRemote (createCacheKey address city) address city country w.
Proof.
  intros Hi Hc. rewrite geocodeAddress_unfold. simpl.
  rewrite (afterInitialize_idem w Hi), Hc. done.
Qed.

(** C4: an entry of the Coordinate Store younger than ninety days is
    returned without any remote call; an entry that is ninety days old or
    more is deleted and the address is resolved as if it had never been
    cached, by one remote lookup and then the table. *)
Theorem C4_cached_entry_until_expiry address city country w cached :
  cache (afterInitialize w) !! createCacheKey address city = Some cached ->
  GEOCODING_CONFIG.coordinatesCacheTimeout = 90 * (24 * 60 * 60 * 1000)
  /\ (currentTime w - geocoded_at cached < GEOCODING_CONFIG.coordinatesCacheTimeout ->
      fst (geocodeAddress address city country w) = Some cached
      /\ nominatim_log (snd (geocodeAddress address city country w)) = nominatim_log w)
  /\ (GEOCODING_CONFIG.coordinatesCacheTimeout <= currentTime w - geocoded_at cached ->
      let absent :=
        set_cache (delete (createCacheKey address city))
          (set_ticks (S (ticks w)) (afterInitialize w)) in
      cache absent !! createCacheKey address city = None
      /\ geocodeAddress address city country w = geocodeAddress address city country absent
      /\ geocodeAddress address city country w =
         lookupRemote (createCacheKey address city) address city country absent
      /\ nominatim_log (snd (geocodeAddress address city country w)) =
         buildQuery address city country :: nominatim_log w).
Proof.
  intros Hc. split; [reflexivity|].
  rewrite geocodeAddress_unfold. cbv zeta. rewrite Hc.
  split; intros Hage.
  - apply Z.ltb_lt in Hage. rewrite Hage. simpl.
    split; [done|]. apply afterInitialize_frame.
  - apply Z.ltb_ge in Hage. rewrite Hage.
    assert (Habs : cache (set_cache (delete (createCacheKey address city))
                     (set_ticks (S (ticks w)) (afterInitialize w)))
                   !! createCacheKey address city = None)
      by (simpl; apply lookup_delete_eq).
    repeat split.
    + exact Habs.
    + symmetry. apply lookupRemote_absent_key; [simpl|exact Habs].
      apply afterInitialize_frame.
    + rewrite lookupRemote_log. simpl. f_equal. apply afterInitialize_frame.
Qed.

Lemma C4_cached_entry_until_expiry_witness :
  let key := createCacheKey "12 Rue A" "Cotonou" in
  let young := Sample.withEntry key (Sample.coords 0) (Sample.start Sample.unreachable) in
  let old := Sample.withEntry key (Sample.coords (-7776000000))
               (Sample.start Sample.unreachable) in
  (fst (geocodeAddress "12 Rue A" "Cotonou" defaultCountry young) = Some (Sample.coords 0)
   /\ nominatim_log (snd (geocodeAddress "12 Rue A" "Cotonou" defaultCountry young)) = [])
  /\ nominatim_log (snd (geocodeAddress "12 Rue A" "Cotonou" defaultCountry old)) =
     [buildQuery "12 Rue A" "Cotonou" defaultCountry].
Proof.
  intros key young old. split.
  - apply (C4_cached_entry_until_expiry "12 Rue A" "Cotonou" defaultCountry young
             (Sample.coords 0)); [vm_compute; reflexivity|vm_compute; reflexivity].
  - apply (C4_cached_entry_until_expiry "12 Rue A" "Cotonou" defaultCountry old
             (Sample.coords (-7776000000))); [vm_compute; reflexivity|].
    vm_compute. discriminate.
Defined.

(** A value of the table object, own or inherited, is answered, stored
    under the key of the empty address, and persisted. *)
Lemma getFallbackCoordinates_read city w value :
  readCityCoordinates (normalizeCity city) = Some value ->
  let fallbackCoords :=
    {| latitude := table_lat value; longitude := table_lng value;
       geocoded_at := currentTime w;
       geocoding_source := SourceFallback; accuracy := Some CityLevel |} in
  let stored := <[createCacheKey "" city := fallbackCoords]> (cache w) in
  getFallbackCoordinates city w =
  (Some fallbackCoords,
   set_storage (put_geocoding_cache (Some stored))
     (set_cache (fun _ => stored) (set_ticks (S (ticks w)) w))).
Proof.
  intros H. unfold getFallbackCoordinates. unfold normalizeCity in H. rewrite H.
  reflexivity.
Qed.

(** When no valid entry is cached and the remote lookup fails or returns
    nothing, the answer is made of what the table object has under the
    case-folded, trimmed city, tagged [SourceFallback] and [CityLevel],
    and it is nothing when the object has nothing there.  The function
    is total: the failures of the request are values, none escapes. *)
Lemma geocodeAddress_failed_lookup address city country w :
  (forall cached,
      cache (afterInitialize w) !! createCacheKey address city = Some cached ->
      GEOCODING_CONFIG.coordinatesCacheTimeout <= currentTime w - geocoded_at cached) ->
  lookupFailed (nextNominatimReply w (buildQuery address city country)) = true ->
  exists t,
    (t = clock (env w) (ticks w) \/ t = clock (env w) (S (ticks w)))
    /\ fst (geocodeAddress address city country w) =
       match readCityCoordinates (normalizeCity city) with
       | Some value =>
           Some {| latitude := table_lat value; longitude := table_lng value;
                   geocoded_at := t;
                   geocoding_source := SourceFallback;
                   accuracy := Some CityLevel |}
       | None => None
       end.
Proof.
  intros Hentry Hfail.
  destruct (afterInitialize_frame w) as (He & Ht & Hl & _).
  rewrite geocodeAddress_unfold. cbv zeta.
  destruct (cache (afterInitialize w) !! createCacheKey address city)
    as [cached|] eqn:Hc.
  - specialize (Hentry cached eq_refl). apply Z.ltb_ge in Hentry. rewrite Hentry.
    exists (clock (env w) (S (ticks w))). split; [by right|].
    rewrite lookupRemote_failed.
    + rewrite getFallbackCoordinates_result. unfold currentTime. simpl. by rewrite He.
    + unfold nextNominatimReply in *. simpl. by rewrite He, Hl.
  - exists (clock (env w) (ticks w)). split; [by left|].
    rewrite lookupRemote_failed.
    + rewrite getFallbackCoordinates_result. unfold currentTime. simpl. by rewrite He, Ht.
    + unfold nextNominatimReply in *. by rewrite He, Hl.
Qed.

(** A city that the table does not list and whose case-folded, trimmed
    name is neither [constructor] nor [__proto__] is answered by
    nothing. *)
Lemma geocodeAddress_unknown_city address city country w :
  (forall cached,
      cache (afterInitialize w) !! createCacheKey address city = Some cached ->
      GEOCODING_CONFIG.coordinatesCacheTimeout <= currentTime w - geocoded_at cached) ->
  lookupFailed (nextNominatimReply w (buildQuery address city country)) = true ->
  cityCoordinates !! normalizeCity city = None ->
  normalizeCity city <> "constructor" -> normalizeCity city <> "__proto__" ->
  fst (geocodeAddress address city country w) = None.
Proof.
  intros Hentry Hfail Htable Hc Hp.
  destruct (geocodeAddress_failed_lookup address city country w Hentry Hfail)
    as (t & _ & ->).
  by rewrite (proj2 (readCityCoordinates_normalized city)).
Qed.

(** A city of the table is answered by its entry. *)
Lemma geocodeAddress_table_city address city country w coords :
  (forall cached,
      cache (afterInitialize w) !! createCacheKey address city = Some cached ->
      GEOCODING_CONFIG.coordinatesCacheTimeout <= currentTime w - geocoded_at cached) ->
  lookupFailed (nextNominatimReply w (buildQuery address city country)) = true ->
  cityCoordinates !! normalizeCity city = Some coords ->
  exists t,
    (t = clock (env w) (ticks w) \/ t = clock (env w) (S (ticks w)))
    /\ fst (geocodeAddress address city country w) =
       Some {| latitude := Some (fst coords); longitude := Some (snd coords);
               geocoded_at := t;
               geocoding_source := SourceFallback;
               accuracy := Some CityLevel |}.
Proof.
  intros Hentry Hfail Htable.
  destruct (geocodeAddress_failed_lookup address city country w Hentry Hfail)
    as (t & Ht & ->).
  exists t. split; [exact Ht|]. by rewrite (readCityCoordinates_own _ coords Htable).
Qed.

(** C5 is not what the code does for every city that the table does not
    list.  When no valid entry is cached and the remote lookup fails or
    returns nothing, a city whose case-folded, trimmed name is
    [constructor] or [__proto__] is no city of the table, yet the answer
    is not nothing: it is a coordinate tagged [SourceFallback] and
    [CityLevel] that has neither latitude nor longitude, made of the
    property the table object inherits; it is stored under the key of
    the empty address and persisted. *)
Theorem C5_inherited_key_is_answered address city country w :
  (forall cached,
      cache (afterInitialize w) !! createCacheKey address city = Some cached ->
      GEOCODING_CONFIG.coordinatesCacheTimeout <= currentTime w - geocoded_at cached) ->
  lookupFailed (nextNominatimReply w (buildQuery address city country)) = true ->
  normalizeCity city = "constructor" \/ normalizeCity city = "__proto__" ->
  let r := geocodeAddress address city country w in
  cityCoordinates !! normalizeCity city = None
  /\ exists c,
       fst r = Some c
       /\ geocoding_source c = SourceFallback
       /\ accuracy c = Some CityLevel
       /\ latitude c = None /\ longitude c = None
       /\ cache (snd r) !! createCacheKey "" city = Some c
       /\ geocoding_cache_v2 (storage (snd r)) = Some (cache (snd r)).
Proof.
  intros Hentry Hfail Hcity. cbv zeta.
  assert (Htable : cityCoordinates !! normalizeCity city = None)
    by (destruct Hcity as [-> | ->]; vm_compute; reflexivity).
  assert (Hread : readCityCoordinates (normalizeCity city) = Some InheritedValue)
    by (destruct Hcity as [-> | ->]; vm_compute; reflexivity).
  split; [exact Htable|].
  destruct (afterInitialize_frame w) as (He & Ht & Hl & _).
  rewrite geocodeAddress_unfold. cbv zeta.
  destruct (cache (afterInitialize w) !! createCacheKey address city)
    as [cached|] eqn:Hc.
  - specialize (Hentry cached eq_refl). apply Z.ltb_ge in Hentry. rewrite Hentry.
    rewrite lookupRemote_failed
      by (unfold nextNominatimReply in *; simpl; by rewrite He, Hl).
    rewrite (getFallbackCoordinates_read _ _ _ Hread). cbv zeta. cbn [fst snd].
    eexists. split; [reflexivity|]. repeat (split; [reflexivity|]).
    split; [|reflexivity]. cbn [cache set_storage set_cache]. apply lookup_insert_eq.
  - rewrite lookupRemote_failed
      by (unfold nextNominatimReply in *; by rewrite He, Hl).
    rewrite (getFallbackCoordinates_read _ _ _ Hread). cbv zeta. cbn [fst snd].
    eexists. split; [reflexivity|]. repeat (split; [reflexivity|]).
    split; [|reflexivity]. cbn [cache set_storage set_cache]. apply lookup_insert_eq.
Qed.

Lemma C5_inherited_key_is_answered_witness :
  let w0 := Sample.start Sample.unreachable in
  let r := geocodeAddress "12 Rue A" "Constructor" defaultCountry w0 in
  cityCoordinates !! normalizeCity "Constructor" = None
  /\ exists c,
       fst r = Some c
       /\ geocoding_source c = SourceFallback
       /\ accuracy c = Some CityLevel
       /\ latitude c = None /\ longitude c = None
       /\ cache (snd r) !! createCacheKey "" "Constructor" = Some c
       /\ geocoding_cache_v2 (storage (snd r)) = Some (cache (snd r)).
Proof.
  intros w0.
  apply (C5_inherited_key_is_answered "12 Rue A" "Constructor" defaultCountry w0).
  - intros cached H. vm_compute in H. discriminate.
  - vm_compute. reflexivity.
  - left. vm_compute. reflexivity.
Defined.

Lemma string_length_append (s1 s2 : string) :
  String.length (s1 +:+ s2) = (String.length s1 + String.length s2)%nat.
Proof. induction s1 as [|c s1 IH]; simpl; [done|]. by rewrite IH. Qed.

(** The key of a non-blank address is not the key the fallback answer of
    its city is stored under. *)
Lemma createCacheKey_addressed address city :
  spec_normalize address <> "" ->
  createCacheKey address city <> createCacheKey "" city.
Proof.
  intros Hne Heq. rewrite !createCacheKey_eq in Heq.
  change (spec_normalize "") with "" in Heq.
  apply (f_equal String.length) in Heq.
  rewrite (string_length_append (spec_normalize address)) in Heq.
  destruct (spec_normalize address); [done|]. simpl in Heq. lia.
Qed.

Lemma getFallbackCoordinates_found city w coords :
  cityCoordinates !! normalizeCity city = Some coords ->
  let fallbackCoords :=
    {| latitude := Some (fst coords); longitude := Some (snd coords);
       geocoded_at := currentTime w;
       geocoding_source := SourceFallback; accuracy := Some CityLevel |} in
  let stored := <[createCacheKey "" city := fallbackCoords]> (cache w) in
  getFallbackCoordinates city w =
  (Some fallbackCoords,
   set_storage (put_geocoding_cache (Some stored))
     (set_cache (fun _ => stored) (set_ticks (S (ticks w)) w))).
Proof.
  intros H. unfold getFallbackCoordinates. unfold normalizeCity in H.
  rewrite (readCityCoordinates_own _ coords H). reflexivity.
Qed.

(** The defect behind C8, for every non-blank address: when the lookup
    fails and the city is in the table, the fallback answer is stored
    under the key of the empty address; the key of the address stays
    without entry, and the same call repeated sends a second request. *)
Lemma fallback_answer_not_reused address city country w coords :
  spec_normalize address <> "" ->
  cache (afterInitialize w) !! createCacheKey address city = None ->
  cityCoordinates !! normalizeCity city = Some coords ->
  lookupFailed (nextNominatimReply w (buildQuery address city country)) = true ->
  let first := geocodeAddress address city country w in
  let second := geocodeAddress address city country (snd first) in
  (exists c, fst first = Some c /\ geocoding_source c = SourceFallback
             /\ cache (snd first) !! createCacheKey "" city = Some c)
  /\ cache (snd first) !! createCacheKey address city = None
  /\ nominatim_log (snd second)
     = buildQuery address city country :: buildQuery address city country
         :: nominatim_log w.
Proof.
  intros Hne Hmiss Htable Hfail. cbv zeta.
  destruct (afterInitialize_frame w) as (He & Ht & Hl & _ & _ & _ & Hi).
  assert (Hfirst : geocodeAddress address city country w =
                   getFallbackCoordinates city
                     (set_nominatim_log
                        (buildQuery address city country :: nominatim_log w)
                        (afterInitialize w))).
  { rewrite geocodeAddress_unfold. cbv zeta. rewrite Hmiss.
    rewrite lookupRemote_failed; [by rewrite Hl|].
    unfold nextNominatimReply in *. by rewrite He, Hl. }
  rewrite Hfirst, (getFallbackCoordinates_found _ _ coords Htable). cbv zeta.
  cbn [fst snd].
  set (fc := {| latitude := Some (fst coords); longitude := Some (snd coords);
                geocoded_at := _; geocoding_source := SourceFallback;
                accuracy := Some CityLevel |}).
  set (w1 := set_storage _ _).
  assert (Hc1 : cache w1 = <[createCacheKey "" city := fc]> (cache (afterInitialize w)))
    by reflexivity.
  assert (Hmiss1 : cache w1 !! createCacheKey address city = None).
  { rewrite Hc1, lookup_insert_ne; [done|].
    intros Heq. by apply (createCacheKey_addressed address city). }
  split; [|split].
  - exists fc. split; [done|]. split; [done|]. rewrite Hc1. apply lookup_insert_eq.
  - exact Hmiss1.
  - rewrite lookupRemote_absent_key; [|exact Hi|exact Hmiss1].
    by rewrite lookupRemote_log.
Qed.

(** C8 is not what the code does for a non-empty address: the fallback
    answer for ("12 Rue A", "Cotonou") is stored under the key of the
    empty address, the repeated call looks under the key of the address,
    finds nothing, and sends a second remote request. *)
Theorem C8_fallback_stored_under_city_key :
  let w0 := Sample.start Sample.unreachable in
  let first := geocodeAddress "12 Rue A" "Cotonou" defaultCountry w0 in
  let second := geocodeAddress "12 Rue A" "Cotonou" defaultCountry (snd first) in
  (exists c, fst first = Some c /\ geocoding_source c = SourceFallback
             /\ cache (snd first) !! createCacheKey "" "Cotonou" = Some c)
  /\ cache (snd first) !! createCacheKey "12 Rue A" "Cotonou" = None
  /\ length (nominatim_log (snd first)) = 1%nat
  /\ length (nominatim_log (snd second)) = 2%nat.
Proof.
  cbv zeta. split.
  - eexists. split; [vm_compute; reflexivity|]. split; vm_compute; reflexivity.
  - repeat split; vm_compute; reflexivity.
Qed.

(** ** Merge *)

Lemma set_ticks_same w : set_ticks (ticks w) w = w.
Proof. by destruct w. Qed.

Lemma set_ticks_twice a b w : set_ticks a (set_ticks b w) = set_ticks a w.
Proof. done. Qed.

Lemma loadProvidersWithCoordinates_spec w :
  loadProvidersWithCoordinates w = (snapshot w, w).
Proof.
  unfold snapshot, loadProvidersWithCoordinates, bind, gets, ret. simpl.
  by destruct (providers_with_coordinates_v2 (storage w)).
Qed.

Section NewMap.
Implicit Types (m : gmap Z ProviderCoordinates) (es : list (Z * ProviderCoordinates)).

Lemma foldl_insert_notin es m k :
  k ∉ map fst es -> foldl setEntry m es !! k = m !! k.
Proof.
  revert m. induction es as [|[k1 c1] es IH]; intros m Hk; [done|].
  simpl in *. apply not_elem_of_cons in Hk as [Hne Hk].
  rewrite IH by done. unfold setEntry. simpl. by rewrite lookup_insert_ne.
Qed.

Lemma foldl_insert_Some es m k c :
  foldl setEntry m es !! k = Some c -> (k, c) ∈ es \/ m !! k = Some c.
Proof.
  revert m. induction es as [|[k1 c1] es IH]; intros m H; [by right|].
  simpl in H. apply IH in H as [H|H].
  - left. by right.
  - unfold setEntry in H. simpl in H.
    destruct (decide (k1 = k)) as [->|Hne].
    + rewrite lookup_insert_eq in H. inversion H. left. by left.
    + rewrite lookup_insert_ne in H by done. by right.
Qed.

Lemma foldl_insert_is_Some es m k :
  is_Some (m !! k) \/ (exists c, (k, c) ∈ es) -> is_Some (foldl setEntry m es !! k).
Proof.
  revert m. induction es as [|[k1 c1] es IH]; intros m H.
  - destruct H as [H|[c H]]; [done|]. by apply elem_of_nil in H.
  - simpl. apply IH. unfold setEntry. simpl.
    destruct (decide (k1 = k)) as [->|Hne].
    + left. rewrite lookup_insert_eq. by eexists.
    + rewrite lookup_insert_ne by done.
      destruct H as [H|[c H]]; [by left|].
      apply elem_of_cons in H as [H|H]; [congruence|]. right. by exists c.
Qed.

Lemma foldl_insert_NoDup es m k c :
  NoDup (map fst es) -> (k, c) ∈ es -> foldl setEntry m es !! k = Some c.
Proof.
  revert m. induction es as [|[k1 c1] es IH]; intros m Hnd H.
  - by apply elem_of_nil in H.
  - simpl in Hnd. apply NoDup_cons in Hnd as [Hk1 Hnd].
    apply elem_of_cons in H as [H|H]; simpl.
    + inversion H; subst. rewrite foldl_insert_notin by done.
      unfold setEntry. simpl. apply lookup_insert_eq.
    + by apply IH.
Qed.

Lemma newMap_Some es k c : newMap es !! k = Some c -> (k, c) ∈ es.
Proof.
  intros H. apply foldl_insert_Some in H as [H|H]; [done|].
  by rewrite lookup_empty in H.
Qed.

Lemma newMap_is_Some es k c : (k, c) ∈ es -> is_Some (newMap es !! k).
Proof. intros H. apply foldl_insert_is_Some. right. by exists c. Qed.

Lemma newMap_NoDup es k c :
  NoDup (map fst es) -> (k, c) ∈ es -> newMap es !! k = Some c.
Proof. apply foldl_insert_NoDup. Qed.
End NewMap.

Lemma elem_of_coordinateEntries l k c :
  (k, c) ∈ coordinateEntries l <->
  exists q, q ∈ l /\ id (api q) = k /\ coordinates q = Some c.
Proof.
  unfold coordinateEntries. rewrite list_elem_of_omap. split.
  - intros (q & Hq & H). exists q. destruct (coordinates q); inversion H; by subst.
  - intros (q & Hq & Hid & Hc). exists q. rewrite Hc. by subst.
Qed.

Lemma NoDup_map_inj {A B} (f : A -> B) (l : list A) x y :
  NoDup (map f l) -> x ∈ l -> y ∈ l -> f x = f y -> x = y.
Proof.
  induction l as [|a l IH]; intros Hnd Hx Hy Hf; [by apply elem_of_nil in Hx|].
  simpl in Hnd. apply NoDup_cons in Hnd as [Ha Hnd].
  apply elem_of_cons in Hx as [->|Hx]; apply elem_of_cons in Hy as [->|Hy];
    try done.
  - exfalso. apply Ha. rewrite Hf. by apply (list_elem_of_fmap_2 f).
  - exfalso. apply Ha. rewrite <- Hf. by apply (list_elem_of_fmap_2 f).
  - by apply IH.
Qed.

Lemma NoDup_coordinateEntries l :
  NoDup (map (fun p => id (api p)) l) -> NoDup (map fst (coordinateEntries l)).
Proof.
  induction l as [|p l IH]; intros Hnd; [constructor|].
  simpl in Hnd. apply NoDup_cons in Hnd as [Hp Hnd].
  unfold coordinateEntries. simpl. destruct (coordinates p) as [c|] eqn:Hc.
  - simpl. apply NoDup_cons. split; [|by apply IH].
    intros Hin. apply Hp. apply list_elem_of_fmap in Hin as ([k c'] & Hk & Hin).
    simpl in Hk. subst k. apply elem_of_coordinateEntries in Hin as (q & Hq & Hid & _).
    rewrite <- Hid. by apply (list_elem_of_fmap_2 (fun p => id (api p))).
  - by apply IH.
Qed.

Lemma mapM_cons {A B} (f : A -> Async B) x r w :
  mapM f (x :: r) w =
  (fst (f x w) :: fst (mapM f r (snd (f x w))), snd (mapM f r (snd (f x w)))).
Proof.
  simpl. unfold bind, ret. destruct (f x w) as [y w1]. simpl.
  by destruct (mapM f r w1).
Qed.

Lemma mapM_mergeOne m l w :
  snd (mapM (mergeOne m) l w) = set_ticks (ticks w + length l) w
  /\ map api (fst (mapM (mergeOne m) l w)) = l
  /\ forall (i : nat) p,
       fst (mapM (mergeOne m) l w) !! i = Some p ->
       coordinates p = m !! id (api p)
       /\ distance_from_user p = None
       /\ last_updated p = Some (clock (env w) (ticks w + i)).
Proof.
  revert w. induction l as [|x r IH]; intros w.
  - simpl. rewrite Nat.add_0_r, set_ticks_same. split; [done|]. split; [done|].
    intros i p H. by rewrite lookup_nil in H.
  - rewrite mapM_cons.
    assert (Hone : mergeOne m x w =
                   ({| api := x; coordinates := m !! id x; distance_from_user := None;
                       last_updated := Some (clock (env w) (ticks w)) |},
                    set_ticks (S (ticks w)) w)) by reflexivity.
    rewrite Hone. cbn [fst snd].
    destruct (IH (set_ticks (S (ticks w)) w)) as (Hw & Hl & Hp).
    split; [|split].
    + rewrite Hw, set_ticks_twice. cbn [ticks set_ticks length]. f_equal. lia.
    + simpl. by rewrite Hl.
    + intros [|i] p H.
      * inversion H; subst. simpl. by rewrite Nat.add_0_r.
      * apply Hp in H as (? & ? & ->). simpl. repeat split; try done.
        do 2 f_equal. lia.
Qed.

Lemma mergeWithCachedCoordinates_unfold apiProviders w :
  mergeWithCachedCoordinates apiProviders w =
  mapM (mergeOne (newMap (coordinateEntries (snapshot w)))) apiProviders w.
Proof.
  unfold mergeWithCachedCoordinates, bind. by rewrite loadProvidersWithCoordinates_spec.
Qed.

(** C6: [mergeWithCachedCoordinates] returns one record per fresh
    record, in the order of the input; the record carries a coordinate
    exactly when some snapshot entry of its identifier has one, that
    coordinate being the one of the snapshot entry of the identifier (of
    the entry, when identifiers are unique in the snapshot), whatever its
    age; its [last_updated] is the reading of the clock made for it.  The
    merge only reads the clock: no request is sent, nothing is stored. *)
Theorem C6_merge_attaches_cached_coordinates apiProviders w :
  let merged := fst (mergeWithCachedCoordinates apiProviders w) in
  map api merged = apiProviders
  /\ snd (mergeWithCachedCoordinates apiProviders w)
     = set_ticks (ticks w + length apiProviders) w
  /\ forall (i : nat) p,
       merged !! i = Some p ->
       last_updated p = Some (clock (env w) (ticks w + i))
       /\ (forall c, coordinates p = Some c ->
             exists q, q ∈ snapshot w /\ id (api q) = id (api p)
                       /\ coordinates q = Some c)
       /\ (forall q c, q ∈ snapshot w -> id (api q) = id (api p) ->
             coordinates q = Some c -> is_Some (coordinates p))
       /\ (NoDup (map (fun q => id (api q)) (snapshot w)) ->
           forall q, q ∈ snapshot w -> id (api q) = id (api p) ->
             coordinates p = coordinates q).
Proof.
  cbv zeta. rewrite mergeWithCachedCoordinates_unfold.
  set (m := newMap (coordinateEntries (snapshot w))).
  destruct (mapM_mergeOne m apiProviders w) as (Hw & Hl & Hp).
  split; [done|]. split; [done|].
  intros i p H. apply Hp in H as (Hc & _ & Hu).
  split; [done|]. rewrite Hc. repeat split.
  - intros c Hm. apply newMap_Some in Hm.
    by apply elem_of_coordinateEntries in Hm.
  - intros q c Hq Hid Hqc. apply (newMap_is_Some _ _ c).
    apply elem_of_coordinateEntries. by exists q.
  - intros Hnd q Hq Hid. destruct (coordinates q) as [c|] eqn:Hqc.
    + apply newMap_NoDup; [by apply NoDup_coordinateEntries|].
      apply elem_of_coordinateEntries. by exists q.
    + destruct (m !! id (api p)) as [c|] eqn:Hm; [|done].
      apply newMap_Some, elem_of_coordinateEntries in Hm as (q' & Hq' & Hid' & Hc').
      assert (q' = q)
        by (apply (NoDup_map_inj (fun q => id (api q)) (snapshot w)); congruence).
      congruence.
Qed.

(** ** Incremental geocoding *)


Lemma geocodeOne_unfold provider isLast w :
  geocodeOne provider isLast w =
  let r := geocodeAddress (address (api provider)) (cityOrDefault provider)
             defaultCountry w in
  let w1 := set_ticks (S (ticks (snd r))) (snd r) in
  ({| api := api provider;
      coordinates := fst r;
      distance_from_user := distance_from_user provider;
      last_updated := Some (currentTime (snd r)) |},
   if isLast then w1 else set_delays (S (delays w1)) w1).
Proof.
  unfold geocodeOne, bind. cbv zeta.
  destruct (geocodeAddress _ _ _ w) as [c w1]. simpl.
  destruct isLast; reflexivity.
Qed.

Lemma geocodeLoop_cons provider rest w :
  geocodeLoop (provider :: rest) w =
  let isLast := match rest with [] => true | _ :: _ => false end in
  let r := geocodeOne provider isLast w in
  (fst r :: fst (geocodeLoop rest (snd r)), snd (geocodeLoop rest (snd r))).
Proof.
  simpl. unfold bind, ret. destruct (geocodeOne _ _ w) as [p w1]. simpl.
  by destruct (geocodeLoop rest w1).
Qed.

Lemma geocodeLoop_api l w : map api (fst (geocodeLoop l w)) = map api l.
Proof.
  revert w. induction l as [|p l IH]; intros w; [done|].
  rewrite geocodeLoop_cons. cbv zeta. cbn [fst map]. rewrite IH.
  by rewrite geocodeOne_unfold.
Qed.

Lemma geocodeProviders_unfold providers w :
  geocodeProviders providers w =
  let needs := List.filter (fun p => negb (hasCoordinates p)) providers in
  let already := List.filter hasCoordinates providers in
  match needs with
  | [] => (providers, afterInitialize w)
  | _ :: _ =>
      ((already ++ fst (geocodeLoop needs (afterInitialize w)))%list,
       snd (geocodeLoop needs (afterInitialize w)))
  end.
Proof.
  unfold geocodeProviders, bind at 1. unfold afterInitialize.
  destruct (initialize w) as [[] w0]. cbv zeta. cbn [snd].
  destruct (List.filter _ providers) as [|p needs]; [done|].
  cbn [length Nat.eqb]. unfold bind, ret.
  by destruct (geocodeLoop (p :: needs) w0).
Qed.

Lemma filter_negb_nil {A} (f : A -> bool) l :
  List.filter (fun x => negb (f x)) l = [] -> List.filter f l = l.
Proof.
  induction l as [|x l IH]; [done|]. simpl.
  destruct (f x); simpl; [|done]. intros H. f_equal. by apply IH.
Qed.

Lemma filter_partition_Permutation {A} (f : A -> bool) l :
  Permutation (List.filter f l ++ List.filter (fun x => negb (f x)) l)%list l.
Proof.
  induction l as [|x l IH]; [done|]. simpl.
  destruct (f x); simpl.
  - by constructor.
  - rewrite <- Permutation_middle. by constructor.
Qed.

Lemma map_filter_partition_Permutation {A B} (g : A -> B) (f : A -> bool) l :
  Permutation
    (map g (List.filter f l) ++ map g (List.filter (fun x => negb (f x)) l))%list
    (map g l).
Proof.
  rewrite <- map_app. apply Permutation_map, filter_partition_Permutation.
Qed.

Lemma geocodeProviders_out providers w :
  exists geocoded,
    fst (geocodeProviders providers w)
    = (List.filter hasCoordinates providers ++ geocoded)%list
    /\ map api geocoded
       = map api (List.filter (fun p => negb (hasCoordinates p)) providers).
Proof.
  rewrite geocodeProviders_unfold. cbv zeta.
  destruct (List.filter (fun p => negb (hasCoordinates p)) providers)
    as [|p needs] eqn:Hn.
  - exists []. cbn [fst]. rewrite (filter_negb_nil _ _ Hn), app_nil_r. done.
  - eexists. cbn [fst]. split; [reflexivity|]. apply geocodeLoop_api.
Qed.

Lemma geocodeProviders_api_Permutation providers w :
  Permutation (map api (fst (geocodeProviders providers w))) (map api providers).
Proof.
  destruct (geocodeProviders_out providers w) as (geocoded & -> & Hg).
  rewrite map_app, Hg. apply map_filter_partition_Permutation.
Qed.

(** C10: [geocodeProviders] returns one record per input record, none
    dropped or duplicated whatever the lookups answer; the records that
    carried a coordinate come first, unchanged and in their order, and
    the records that were to geocode follow, in their order. *)
Theorem C10_geocodeProviders_partitions providers w :
  let out := fst (geocodeProviders providers w) in
  let already := List.filter hasCoordinates providers in
  let needs := List.filter (fun p => negb (hasCoordinates p)) providers in
  length out = length providers
  /\ Permutation (map api out) (map api providers)
  /\ take (length already) out = already
  /\ map api (drop (length already) out) = map api needs.
Proof.
  cbv zeta. pose proof (geocodeProviders_api_Permutation providers w) as Hperm.
  destruct (geocodeProviders_out providers w) as (geocoded & Hout & Hg).
  split; [|split; [done|]].
  - rewrite <- (length_map api), <- (length_map api providers).
    by apply Permutation_length.
  - rewrite Hout. split.
    + by rewrite take_app_length.
    + by rewrite drop_app_length.
Qed.

(** ** Reconciliation *)

Lemma newProviders_spec (cachedProviders : list Provider) (apiProviders : list ApiProvider) :
  let cachedIds : gset Z := list_to_set (map (fun p => id (api p)) cachedProviders) in
  (0 <? length (List.filter (fun p => negb (bool_decide (id p ∈ cachedIds)))
                  apiProviders))%nat = true
  <-> exists p, p ∈ apiProviders
                /\ forall c, c ∈ cachedProviders -> id (api c) <> id p.
Proof.
  cbv zeta.
  assert (Hmem : forall p,
            negb (bool_decide
                    (id p ∈ (list_to_set (map (fun p => id (api p)) cachedProviders)
                             : gset Z))) = true
            <-> forall c, c ∈ cachedProviders -> id (api c) <> id p).
  { intros p. rewrite negb_true_iff, bool_decide_eq_false, elem_of_list_to_set.
    split.
    - intros Hn c Hc Heq. apply Hn. rewrite <- Heq.
      by apply (list_elem_of_fmap_2 (fun p => id (api p))).
    - intros Hall Hin. apply list_elem_of_fmap in Hin as (c & Heq & Hc).
      by apply (Hall c Hc). }
  rewrite Nat.ltb_lt. split.
  - intros Hlen.
    destruct (List.filter _ apiProviders) as [|p l] eqn:Hf; [simpl in Hlen; lia|].
    assert (Hin : In p (List.filter
                          (fun p => negb (bool_decide
                             (id p ∈ (list_to_set
                                (map (fun p => id (api p)) cachedProviders) : gset Z))))
                          apiProviders)) by (rewrite Hf; by left).
    apply filter_In in Hin as [Hin Hp]. exists p. split.
    + by apply list_elem_of_In.
    + by apply Hmem.
  - intros (p & Hin & Hp).
    assert (Hin' : In p (List.filter
                           (fun p => negb (bool_decide
                              (id p ∈ (list_to_set
                                 (map (fun p => id (api p)) cachedProviders) : gset Z))))
                           apiProviders)).
    { apply filter_In. split; [by apply list_elem_of_In|]. by apply Hmem. }
    destruct (List.filter _ apiProviders); [done|simpl; lia].
Qed.

Lemma addressChanged_spec cachedProviders p :
  addressChanged cachedProviders p = true
  <-> exists c, findCached cachedProviders p = Some c
                /\ (address (api c) <> address p \/ city (api c) <> city p).
Proof.
  unfold addressChanged. destruct (findCached cachedProviders p) as [c|].
  - rewrite orb_true_iff, !negb_true_iff, !String.eqb_neq. split.
    + intros H. by exists c.
    + by intros (c' & [= <-] & H).
  - split; [done|]. by intros (c & ? & _).
Qed.

Lemma addressChanges_spec cachedProviders apiProviders :
  List.existsb (addressChanged cachedProviders) apiProviders = true
  <-> exists p c, p ∈ apiProviders
                  /\ findCached cachedProviders p = Some c
                  /\ (address (api c) <> address p \/ city (api c) <> city p).
Proof.
  rewrite existsb_exists. split.
  - intros (p & Hin & H). apply addressChanged_spec in H as (c & Hf & H).
    exists p, c. split; [by apply list_elem_of_In|done].
  - intros (p & c & Hin & Hf & H). exists p. split; [by apply list_elem_of_In|].
    apply addressChanged_spec. by exists c.
Qed.

Lemma findCached_Some cachedProviders p c :
  findCached cachedProviders p = Some c -> c ∈ cachedProviders /\ id (api c) = id p.
Proof.
  unfold findCached. intros H. apply find_some in H as [Hin Hid].
  split; [by apply list_elem_of_In|]. by apply Z.eqb_eq.
Qed.

Lemma findCached_NoDup cachedProviders p c :
  NoDup (map (fun q => id (api q)) cachedProviders) ->
  c ∈ cachedProviders -> id (api c) = id p ->
  findCached cachedProviders p = Some c.
Proof.
  intros Hnd Hin Hid.
  destruct (findCached cachedProviders p) as [c'|] eqn:Hf.
  - apply findCached_Some in Hf as [Hin' Hid']. f_equal.
    apply (NoDup_map_inj (fun q => id (api q)) cachedProviders); congruence.
  - unfold findCached in Hf. apply list_elem_of_In in Hin.
    pose proof (find_none _ _ Hf c Hin) as Hn. simpl in Hn.
    apply Z.eqb_neq in Hn. done.
Qed.

Lemma needsGeocodingUpdate_unfold apiProviders w :
  needsGeocodingUpdate apiProviders w =
  (match snapshot w with
   | [] => true
   | _ :: _ =>
       match geocoding_metadata (storage w) with
       | None => true
       | Some metaParsed =>
           negb (total_providers metaParsed =? length apiProviders)%nat
           || (0 <? length (List.filter
                 (fun p => negb (bool_decide
                    (id p ∈ (list_to_set (map (fun p => id (api p)) (snapshot w))
                             : gset Z))))
                 apiProviders))%nat
           || List.existsb (addressChanged (snapshot w)) apiProviders
       end
   end, w).
Proof.
  unfold needsGeocodingUpdate, bind at 1.
  rewrite loadProvidersWithCoordinates_spec. unfold bind, gets, ret.
  destruct (snapshot w) as [|c l]; [done|]. cbn [length Nat.eqb].
  destruct (geocoding_metadata (storage w)) as [metaParsed|]; [|done].
  destruct (negb _); [done|]. cbn [orb].
  destruct (0 <? _)%nat; [done|]. cbn [orb].
  by destruct (List.existsb _ _).
Qed.

Lemma needsGeocodingUpdate_true_iff apiProviders w :
  fst (needsGeocodingUpdate apiProviders w) = true
  <-> snapshot w = [] \/ geocoding_metadata (storage w) = None
      \/ (exists m, geocoding_metadata (storage w) = Some m
                    /\ length apiProviders <> total_providers m)
      \/ (exists p, p ∈ apiProviders
                    /\ forall q, q ∈ snapshot w -> id (api q) <> id p)
      \/ exists p q, p ∈ apiProviders
                     /\ findCached (snapshot w) p = Some q
                     /\ (address (api q) <> address p \/ city (api q) <> city p).
Proof.
  rewrite needsGeocodingUpdate_unfold. cbn [fst].
  pose proof (newProviders_spec (snapshot w) apiProviders) as Hd. cbv zeta in Hd.
  pose proof (addressChanges_spec (snapshot w) apiProviders) as He.
  destruct (snapshot w) as [|c0 l] eqn:Hs; [by split; [left|]|].
  destruct (geocoding_metadata (storage w)) as [m|] eqn:Hm; [|by split; [right; left|]].
  rewrite !orb_true_iff, negb_true_iff, Nat.eqb_neq, Hd, He.
  split.
  - intros [[H|H]|H].
    + right; right; left. exists m. split; [done|]. congruence.
    + right; right; right; left. done.
    + right; right; right; right. done.
  - intros [H|[H|[(m' & [= <-] & H)|[H|H]]]]; try done.
    + left; left. congruence.
    + left; right. done.
    + right. done.
Qed.

(** C3: [needsGeocodingUpdate] answers true exactly when (a) the
    snapshot is empty, or (b) there is no metadata, or (c) the length of
    the fresh list differs from the count in the metadata, or (d) a fresh
    identifier is in no snapshot entry, or (e) the snapshot entry of a
    fresh identifier has another address or another city; it changes
    nothing.  The snapshot entry of an identifier is the one [find]
    returns; when the identifiers of the snapshot are pairwise distinct,
    it is the entry of that identifier. *)
Theorem C3_needsGeocodingUpdate_iff apiProviders w :
  let cachedProviders := snapshot w in
  let metadata := geocoding_metadata (storage w) in
  let a := cachedProviders = [] in
  let b := metadata = None in
  let c := exists m, metadata = Some m /\ length apiProviders <> total_providers m in
  let d := exists p, p ∈ apiProviders
                     /\ forall q, q ∈ cachedProviders -> id (api q) <> id p in
  snd (needsGeocodingUpdate apiProviders w) = w
  /\ (fst (needsGeocodingUpdate apiProviders w) = true
      <-> a \/ b \/ c \/ d
          \/ exists p q, p ∈ apiProviders
                         /\ findCached cachedProviders p = Some q
                         /\ (address (api q) <> address p \/ city (api q) <> city p))
  /\ (NoDup (map (fun q => id (api q)) cachedProviders) ->
      (fst (needsGeocodingUpdate apiProviders w) = true
       <-> a \/ b \/ c \/ d
           \/ exists p q, p ∈ apiProviders /\ q ∈ cachedProviders
                          /\ id (api q) = id p
                          /\ (address (api q) <> address p \/ city (api q) <> city p))).
Proof.
  cbv zeta. split; [by rewrite needsGeocodingUpdate_unfold|].
  split; [apply needsGeocodingUpdate_true_iff|].
  intros Hnd. rewrite needsGeocodingUpdate_true_iff.
  repeat (apply or_iff_compat_l).
  split; intros (p & q & Hp & H).
  - destruct H as [Hf H]. apply findCached_Some in Hf as [Hq Hid]. by exists p, q.
  - destruct H as (Hq & Hid & H). exists p, q. split; [done|]. split; [|done].
    by apply findCached_NoDup.
Qed.

(** ** Idempotence of the reconciliation *)

Lemma mapM_mergeOne_imap m l w :
  fst (mapM (mergeOne m) l w) =
  imap (fun (i : nat) x =>
          {| api := x; coordinates := m !! id x; distance_from_user := None;
             last_updated := Some (clock (env w) (ticks w + i)) |}) l.
Proof.
  revert w. induction l as [|x r IH]; intros w; [done|].
  rewrite mapM_cons, imap_cons.
  assert (Hone : mergeOne m x w =
                 ({| api := x; coordinates := m !! id x; distance_from_user := None;
                     last_updated := Some (clock (env w) (ticks w)) |},
                  set_ticks (S (ticks w)) w)) by reflexivity.
  rewrite Hone. cbn [fst snd]. rewrite IH, Nat.add_0_r. f_equal.
  apply imap_ext. intros i y _. simpl. do 3 f_equal. lia.
Qed.

Lemma merge_api apiProviders w :
  map api (fst (mergeWithCachedCoordinates apiProviders w)) = apiProviders.
Proof. rewrite mergeWithCachedCoordinates_unfold. apply mapM_mergeOne. Qed.

Lemma merge_world apiProviders w :
  snd (mergeWithCachedCoordinates apiProviders w)
  = set_ticks (ticks w + length apiProviders) w.
Proof. rewrite mergeWithCachedCoordinates_unfold. apply mapM_mergeOne. Qed.

Lemma saveProvidersWithCoordinates_spec providers w :
  saveProvidersWithCoordinates providers w =
  (tt,
   set_storage
     (put_geocoding_metadata
        (Some {| total_providers := length providers;
                 geocoded_providers := length (List.filter hasCoordinates providers);
                 last_full_geocoding := clock (env w) (S (ticks w));
                 meta_version := "2.0" |}))
     (set_ticks (S (S (ticks w)))
        (set_storage
           (put_providers_with_coordinates
              (Some {| cd_providers := providers;
                       cached_at := clock (env w) (ticks w);
                       cd_version := "2.0" |})) w))).
Proof. reflexivity. Qed.

Lemma snapshot_after_save providers w :
  snapshot (snd (saveProvidersWithCoordinates providers w)) = providers
  /\ geocoding_metadata (storage (snd (saveProvidersWithCoordinates providers w)))
     = Some {| total_providers := length providers;
               geocoded_providers := length (List.filter hasCoordinates providers);
               last_full_geocoding := clock (env w) (S (ticks w));
               meta_version := "2.0" |}.
Proof. rewrite saveProvidersWithCoordinates_spec. done. Qed.

(** Once a list that decorates the fresh list is saved, nothing is left
    to reconcile. *)
Lemma needsGeocodingUpdate_after_save apiProviders providers w :
  apiProviders <> [] ->
  consistentIds apiProviders ->
  Permutation (map api providers) apiProviders ->
  fst (needsGeocodingUpdate apiProviders
         (snd (saveProvidersWithCoordinates providers w))) = false.
Proof.
  intros Hne Hcons Hperm.
  destruct (snapshot_after_save providers w) as [Hs Hm].
  apply not_true_is_false. rewrite needsGeocodingUpdate_true_iff, Hs, Hm.
  assert (Hmem : forall p, p ∈ apiProviders <-> exists q, q ∈ providers /\ api q = p).
  { intros p. split.
    - intros Hp. apply list_elem_of_In in Hp.
      apply (Permutation_in _ (Permutation_sym Hperm)) in Hp.
      apply in_map_iff in Hp as (q & Hq & Hin). exists q.
      split; [by apply list_elem_of_In|done].
    - intros (q & Hq & <-). apply list_elem_of_In.
      apply (Permutation_in _ Hperm), in_map. by apply list_elem_of_In. }
  intros [H|[H|[(m & [= <-] & H)|[(p & Hp & H)|(p & q & Hp & Hf & H)]]]].
  - subst providers. apply Permutation_nil in Hperm. simpl in Hperm. done.
  - done.
  - apply H. simpl. rewrite <- (length_map api providers). symmetry.
    by apply Permutation_length.
  - apply Hmem in Hp as (q & Hq & <-). by apply (H q).
  - apply findCached_Some in Hf as [Hq Hid].
    assert (Hq' : api q ∈ apiProviders) by (apply Hmem; by exists q).
    destruct (Hcons (api q) p Hq' Hp Hid) as [Ha Hc]. by destruct H.
Qed.

Lemma afterFullPass_needs apiProviders w :
  apiProviders <> [] -> consistentIds apiProviders ->
  fst (needsGeocodingUpdate apiProviders (afterFullPass apiProviders w)) = false.
Proof.
  intros Hne Hcons. unfold afterFullPass. cbv zeta.
  apply needsGeocodingUpdate_after_save; [done..|].
  rewrite geocodeProviders_api_Permutation. by rewrite merge_api.
Qed.

Lemma afterSaveMerged_needs apiProviders w :
  apiProviders <> [] -> consistentIds apiProviders ->
  fst (needsGeocodingUpdate apiProviders (afterSaveMerged apiProviders w)) = false.
Proof.
  intros Hne Hcons. unfold afterSaveMerged. cbv zeta.
  apply needsGeocodingUpdate_after_save; [done..|]. by rewrite merge_api.
Qed.

Lemma merge_withoutStamp apiProviders w1 w2 :
  snapshot w1 = snapshot w2 ->
  map withoutStamp (fst (mergeWithCachedCoordinates apiProviders w1))
  = map withoutStamp (fst (mergeWithCachedCoordinates apiProviders w2)).
Proof.
  intros Hs. rewrite !mergeWithCachedCoordinates_unfold, !mapM_mergeOne_imap, Hs.
  change (@map Provider Provider) with (@fmap list _ Provider Provider).
  rewrite !fmap_imap. by apply imap_ext.
Qed.

Lemma merge_same_clock apiProviders w1 w2 :
  snapshot w1 = snapshot w2 ->
  (forall i : nat, (i < length apiProviders)%nat ->
     clock (env w1) (ticks w1 + i) = clock (env w2) (ticks w2 + i)) ->
  fst (mergeWithCachedCoordinates apiProviders w1)
  = fst (mergeWithCachedCoordinates apiProviders w2).
Proof.
  intros Hs Hclock. rewrite !mergeWithCachedCoordinates_unfold, !mapM_mergeOne_imap, Hs.
  apply imap_ext. intros i x Hi. simpl. do 2 f_equal. apply Hclock.
  by apply lookup_lt_Some in Hi.
Qed.

(** C7, as stated, fails twice.  After an empty directory has been
    persisted, [needsGeocodingUpdate] of that same empty list answers
    true, since the snapshot is empty.  And two merges of the same list
    over the same storage differ, in the stamps, as soon as the clock has
    advanced between them. *)
Lemma C7_idempotence_counterexample :
  let w0 := Sample.start Sample.unreachable in
  fst (needsGeocodingUpdate [] (afterFullPass [] w0)) = true
  /\ fst (needsGeocodingUpdate [] (afterSaveMerged [] w0)) = true
  /\ (let first := mergeWithCachedCoordinates Sample.three w0 in
      let second := mergeWithCachedCoordinates Sample.three (snd first) in
      storage (snd first) = storage w0
      /\ cache (snd first) = cache w0
      /\ fst first <> fst second).
Proof.
  cbv zeta. split; [vm_compute; reflexivity|]. split; [vm_compute; reflexivity|].
  split; [reflexivity|]. split; [reflexivity|].
  vm_compute. discriminate.
Qed.

(** C7, amended: for a non-empty fresh list whose records agree on
    address and city whenever they share an identifier (so, whenever
    identifiers are unique), once the merged list, geocoded or not, has
    been persisted, [needsGeocodingUpdate] of the same list answers false
    and changes nothing, so that it answers false at every later call;
    and two merges of the same list over the same snapshot agree on every
    field but [last_updated], and agree on it too when the clock gives
    the same readings to both. *)
Theorem C7_reconciliation_idempotent apiProviders w :
  apiProviders <> [] ->
  consistentIds apiProviders ->
  (forall w', w' = afterFullPass apiProviders w \/ w' = afterSaveMerged apiProviders w ->
     needsGeocodingUpdate apiProviders w' = (false, w')
     /\ needsGeocodingUpdate apiProviders (snd (needsGeocodingUpdate apiProviders w'))
        = (false, w'))
  /\ (forall w1 w2, snapshot w1 = snapshot w2 ->
        map withoutStamp (fst (mergeWithCachedCoordinates apiProviders w1))
        = map withoutStamp (fst (mergeWithCachedCoordinates apiProviders w2))
        /\ ((forall i : nat, (i < length apiProviders)%nat ->
               clock (env w1) (ticks w1 + i) = clock (env w2) (ticks w2 + i)) ->
            fst (mergeWithCachedCoordinates apiProviders w1)
            = fst (mergeWithCachedCoordinates apiProviders w2))).
Proof.
  intros Hne Hcons. split.
  - intros w' Hw'.
    assert (Hfalse : fst (needsGeocodingUpdate apiProviders w') = false)
      by (destruct Hw' as [-> | ->];
          [by apply afterFullPass_needs | by apply afterSaveMerged_needs]).
    assert (Hsame : needsGeocodingUpdate apiProviders w' = (false, w')).
    { rewrite needsGeocodingUpdate_unfold in *. cbn [fst] in Hfalse.
      by rewrite Hfalse. }
    by rewrite Hsame.
  - intros w1 w2 Hs. split.
    + by apply merge_withoutStamp.
    + by apply merge_same_clock.
Qed.

(** ** What each operation leaves untouched *)

Section Frames.
Context {B : Type} (f : World -> B).

Lemma frames_ret {A} (a : A) : frames f (ret a).
Proof. by intros w. Qed.

Lemma frames_bind {A C} (m : Async A) (k : A -> Async C) :
  frames f m -> (forall a, frames f (k a)) -> frames f (bind m k).
Proof.
  intros Hm Hk w. unfold bind. specialize (Hm w).
  destruct (m w) as [a w1]. simpl in Hm. by rewrite Hk.
Qed.

Lemma frames_gets {A} (g : World -> A) : frames f (gets g).
Proof. by intros w. Qed.

Lemma frames_modify (g : World -> World) :
  (forall w, f (g w) = f w) -> frames f (modify g).
Proof. intros H w. apply H. Qed.

End Frames.

Section FramesOutside.
Context {B : Type} (f : World -> B) `{!Outside f}.

Lemma frames_dateNow : frames f dateNow.
Proof. intros w. apply out_ticks. Qed.

Lemma frames_initialize : frames f initialize.
Proof.
  intros w. rewrite initialize_spec. cbn [snd].
  destruct (isInitialized w); [done|]. rewrite out_init.
  destruct (geocoding_cache_v2 (storage w)); [apply out_cache|done].
Qed.

Lemma frames_saveCache : frames f saveCache.
Proof. intros w. apply out_storage. Qed.

Lemma frames_getFallbackCoordinates city : frames f (getFallbackCoordinates city).
Proof.
  unfold getFallbackCoordinates. destruct (readCityCoordinates _); [|apply frames_ret].
  apply frames_bind; [apply frames_dateNow|]. intros now.
  apply frames_bind; [apply frames_modify; intros; apply out_cache|]. intros _.
  apply frames_bind; [apply frames_saveCache|]. intros _. apply frames_ret.
Qed.

Lemma frames_loadProvidersWithCoordinates : frames f loadProvidersWithCoordinates.
Proof. intros w. by rewrite loadProvidersWithCoordinates_spec. Qed.

Lemma frames_saveProvidersWithCoordinates providers :
  frames f (saveProvidersWithCoordinates providers).
Proof.
  intros w. rewrite saveProvidersWithCoordinates_spec. cbn [snd].
  by rewrite out_storage, out_ticks, out_storage.
Qed.

Lemma frames_needsGeocodingUpdate apiProviders :
  frames f (needsGeocodingUpdate apiProviders).
Proof. intros w. by rewrite needsGeocodingUpdate_unfold. Qed.

Lemma frames_mergeWithCachedCoordinates apiProviders :
  frames f (mergeWithCachedCoordinates apiProviders).
Proof. intros w. rewrite merge_world. apply out_ticks. Qed.

Lemma frames_cleanExpiredCache : frames f cleanExpiredCache.
Proof.
  unfold cleanExpiredCache.
  apply frames_bind; [apply frames_initialize|]. intros _.
  apply frames_bind; [apply frames_dateNow|]. intros now.
  apply frames_bind; [apply frames_gets|]. intros before.
  apply frames_bind; [apply frames_modify; intros; apply out_cache|]. intros _.
  apply frames_bind; [|intros _; apply frames_ret].
  destruct (0 <? _)%nat; [apply frames_saveCache|apply frames_ret].
Qed.

Lemma frames_saveToCache providers : frames f (saveToCache providers).
Proof.
  unfold saveToCache.
  apply frames_bind; [apply frames_dateNow|]. intros cachedAt.
  apply frames_bind; [apply frames_modify; intros; apply out_storage|]. intros _.
  apply frames_bind; [apply frames_dateNow|]. intros lastSync.
  apply frames_bind; [apply frames_modify; intros; apply out_storage|]. intros _.
  apply frames_saveProvidersWithCoordinates.
Qed.

Lemma frames_loadFromCache : frames f loadFromCache.
Proof.
  unfold loadFromCache.
  apply frames_bind; [apply frames_loadProvidersWithCoordinates|]. intros l.
  destruct (0 <? _)%nat; [apply frames_ret|].
  apply frames_bind; [apply frames_gets|]. intros [c|]; apply frames_ret.
Qed.

Lemma frames_isCacheExpired maxAgeHours : frames f (isCacheExpired maxAgeHours).
Proof.
  unfold isCacheExpired.
  apply frames_bind; [apply frames_gets|]. intros [t|]; [|apply frames_ret].
  apply frames_bind; [apply frames_dateNow|]. intros now. apply frames_ret.
Qed.

Lemma frames_fetchNominatim query : frames f (fetchNominatim query).
Proof. intros w. apply out_log. Qed.

Lemma frames_lookupRemote cacheKey address city country :
  frames f (lookupRemote cacheKey address city country).
Proof.
  unfold lookupRemote.
  apply frames_bind; [apply frames_fetchNominatim|].
  intros [|status body]; [apply frames_getFallbackCoordinates|].
  destruct (negb _); [apply frames_getFallbackCoordinates|].
  destruct body as [|[|result rest]]; try apply frames_getFallbackCoordinates.
  apply frames_bind; [apply frames_dateNow|]. intros now.
  apply frames_bind; [apply frames_modify; intros; apply out_cache|]. intros _.
  apply frames_bind; [apply frames_saveCache|]. intros _. apply frames_ret.
Qed.

Lemma frames_geocodeAddress address city country :
  frames f (geocodeAddress address city country).
Proof.
  intros w. rewrite geocodeAddress_unfold. cbv zeta.
  assert (H0 : f (afterInitialize w) = f w) by apply frames_initialize.
  destruct (cache (afterInitialize w) !! _) as [cached|].
  - destruct (_ <? _).
    + cbn [snd]. by rewrite out_ticks.
    + by rewrite frames_lookupRemote, out_cache, out_ticks.
  - by rewrite frames_lookupRemote.
Qed.

Lemma frames_geocodeOne provider isLast : frames f (geocodeOne provider isLast).
Proof.
  intros w. rewrite geocodeOne_unfold. cbv zeta. cbn [snd].
  destruct isLast; rewrite ?out_delays, out_ticks; apply frames_geocodeAddress.
Qed.

Lemma frames_geocodeLoop l : frames f (geocodeLoop l).
Proof.
  induction l as [|p l IH]; intros w; [done|].
  rewrite geocodeLoop_cons. cbv zeta. cbn [snd].
  by rewrite IH, frames_geocodeOne.
Qed.

Lemma frames_geocodeProviders providers : frames f (geocodeProviders providers).
Proof.
  intros w. rewrite geocodeProviders_unfold. cbv zeta.
  assert (H0 : f (afterInitialize w) = f w) by apply frames_initialize.
  destruct (List.filter _ providers); cbn [snd]; [done|].
  by rewrite frames_geocodeLoop.
Qed.
End FramesOutside.

(** ** Synchronisation *)

Lemma snapshot_storage w1 w2 : storage w1 = storage w2 -> snapshot w1 = snapshot w2.
Proof.
  intros H. unfold snapshot, loadProvidersWithCoordinates, bind, gets. simpl.
  rewrite H. by destruct (providers_with_coordinates_v2 (storage w2)).
Qed.

Lemma loadFromCache_spec w :
  loadFromCache w =
  (match snapshot w with
   | [] => match providers_cache (storage w) with
           | None => []
           | Some parsed => cd_providers parsed
           end
   | _ :: _ => snapshot w
   end, w).
Proof.
  unfold loadFromCache, bind at 1. rewrite loadProvidersWithCoordinates_spec.
  destruct (snapshot w) as [|p l]; [|done]. cbn [length Nat.ltb Nat.leb].
  unfold bind, gets, ret. by destruct (providers_cache (storage w)).
Qed.


Lemma isCacheExpired_spec maxAgeHours w :
  isCacheExpired maxAgeHours w =
  match providers_last_sync (storage w) with
  | None => (true, w)
  | Some lastSyncDate =>
      (maxAgeHours * (1000 * 60 * 60) <? currentTime w - lastSyncDate,
       set_ticks (S (ticks w)) w)
  end.
Proof.
  unfold isCacheExpired, bind, gets. simpl.
  by destruct (providers_last_sync (storage w)).
Qed.

Lemma isCacheExpired_storage maxAgeHours w :
  storage (snd (isCacheExpired maxAgeHours w)) = storage w.
Proof.
  rewrite isCacheExpired_spec. by destruct (providers_last_sync (storage w)).
Qed.


(** The directory request failed: the snapshot when there is one, the
    error otherwise. *)
Lemma fetchProvidersFromAPI_failed w err :
  directoryData (nextDirectoryReply w) = inl err ->
  fetchProvidersFromAPI w =
  (match snapshot w with
   | [] => {| success := false; data := []; message := None; error := Some err |}
   | _ :: _ => {| success := true; data := snapshot w;
                  message := Some MsgFullCacheFallback; error := None |}
   end,
   set_directory_calls (S (directory_calls w)) w).
Proof.
  intros H. unfold fetchProvidersFromAPI, bind at 1, fetchDirectory.
  unfold nextDirectoryReply in H. rewrite H.
  unfold bind. rewrite loadProvidersWithCoordinates_spec.
  assert (Hs : snapshot (set_directory_calls (S (directory_calls w)) w) = snapshot w)
    by (by apply snapshot_storage).
  rewrite Hs. by destruct (snapshot w).
Qed.

Lemma fetchProvidersFromAPI_ok w apiData :
  directoryData (nextDirectoryReply w) = inr apiData ->
  let out := processed apiData (set_directory_calls (S (directory_calls w)) w) in
  fst (fetchProvidersFromAPI w) =
  {| success := true; data := out;
     message := Some (MsgProcessed (length out)); error := None |}.
Proof.
  intros H. cbv zeta. unfold fetchProvidersFromAPI, bind at 1, fetchDirectory.
  unfold nextDirectoryReply in H. rewrite H.
  set (w1 := set_directory_calls (S (directory_calls w)) w).
  unfold processed, bind at 1. rewrite needsGeocodingUpdate_unfold. cbn [fst].
  set (b := match snapshot w1 with [] => true | _ => _ end).
  destruct b.
  - unfold bind at 1. unfold bind at 1.
    destruct (mergeWithCachedCoordinates apiData w1) as [merged w2]. cbn [fst snd].
    unfold bind at 1.
    destruct (geocodeProviders merged w2) as [geocoded w3]. cbn [fst].
    unfold bind at 1.
    destruct (saveProvidersWithCoordinates geocoded w3) as [[] w4].
    unfold ret at 1. unfold bind.
    by destruct (cleanExpiredCache w4).
  - unfold bind at 1.
    destruct (mergeWithCachedCoordinates apiData w1) as [merged w2]. cbn [fst].
    unfold bind. by destruct (cleanExpiredCache w2).
Qed.


Lemma syncProviders_unfold forceRefresh w :
  syncProviders forceRefresh w =
  let e := isCacheExpired 24 w in
  if negb forceRefresh && negb (fst e) && (0 <? length (snapshot w))%nat
  then ({| success := true; data := snapshot w;
           message := Some MsgFromCache; error := None |}, snd e)
  else
    let r := fetchProvidersFromAPI (snd e) in
    if success (fst r) && (0 <? length (data (fst r)))%nat
    then (fst r, snd (saveToCache (data (fst r)) (snd r)))
    else match fst (loadFromCache (snd r)) with
         | [] => (fst r, snd r)
         | _ :: _ =>
             ({| success := true; data := fst (loadFromCache (snd r));
                 message := Some MsgCacheFallback; error := None |}, snd r)
         end.
Proof.
  unfold syncProviders, bind at 1. cbv zeta.
  pose proof (isCacheExpired_storage 24 w) as Hst.
  destruct (isCacheExpired 24 w) as [expired w1]. cbn [fst snd] in *.
  assert (Hs : snapshot w1 = snapshot w) by (by apply snapshot_storage).
  unfold bind at 1.
  assert (Hrest : forall w',
    (let (a, w'0) := fetchProvidersFromAPI w' in
     (fun apiResponse : ApiResponse =>
        if success apiResponse && (0 <? length (data apiResponse))%nat
        then bind (saveToCache (data apiResponse)) (fun _ => ret apiResponse)
        else bind loadFromCache (fun cachedProviders =>
               if (0 <? length cachedProviders)%nat
               then ret {| success := true; data := cachedProviders;
                           message := Some MsgCacheFallback; error := None |}
               else ret apiResponse)) a w'0)
    = (let r := fetchProvidersFromAPI w' in
       if success (fst r) && (0 <? length (data (fst r)))%nat
       then (fst r, snd (saveToCache (data (fst r)) (snd r)))
       else match fst (loadFromCache (snd r)) with
            | [] => (fst r, snd r)
            | _ :: _ =>
                ({| success := true; data := fst (loadFromCache (snd r));
                    message := Some MsgCacheFallback; error := None |}, snd r)
            end)).
  { intros w'. cbv zeta. destruct (fetchProvidersFromAPI w') as [resp w2].
    cbn [fst snd]. destruct (success resp && _).
    - unfold bind, ret. by destruct (saveToCache (data resp) w2).
    - unfold bind. rewrite loadFromCache_spec. cbn [fst].
      by destruct (match snapshot w2 with [] => _ | _ => _ end). }
  destruct (negb forceRefresh && negb expired) eqn:Hb; cbn [andb].
  - unfold bind at 1. rewrite loadProvidersWithCoordinates_spec, Hs.
    destruct (snapshot w) as [|p l]; cbn [length Nat.ltb Nat.leb].
    + unfold ret at 1. unfold bind at 1. apply Hrest.
    + done.
  - unfold ret at 1. unfold bind at 1. apply Hrest.
Qed.

Lemma fetchProvidersFromAPI_frame {B} (f : World -> B) `{!Outside f} w :
  f (snd (fetchProvidersFromAPI w)) = f (set_directory_calls (S (directory_calls w)) w).
Proof.
  unfold fetchProvidersFromAPI, bind at 1, fetchDirectory.
  generalize (set_directory_calls (S (directory_calls w)) w). intros w1.
  destruct (directoryData _) as [err|apiData].
  - apply frames_bind; [by apply frames_loadProvidersWithCoordinates|].
    intros l. destruct (0 <? _)%nat; apply frames_ret.
  - apply frames_bind; [by apply frames_needsGeocodingUpdate|]. intros b.
    apply frames_bind.
    + destruct b.
      * apply frames_bind; [by apply frames_mergeWithCachedCoordinates|]. intros m.
        apply frames_bind; [by apply frames_geocodeProviders|]. intros g.
        apply frames_bind; [by apply frames_saveProvidersWithCoordinates|].
        intros _. apply frames_ret.
      * by apply frames_mergeWithCachedCoordinates.
    + intros out. apply frames_bind; [by apply frames_cleanExpiredCache|].
      intros _. apply frames_ret.
Qed.

Lemma fetchProvidersFromAPI_directory_calls w :
  directory_calls (snd (fetchProvidersFromAPI w)) = S (directory_calls w).
Proof. by rewrite (fetchProvidersFromAPI_frame directory_calls). Qed.

(** C2, as stated, fails on a world the program reaches.  After a first
    synchronisation, a forced one to which the directory answers an empty
    list empties the snapshot and leaves the date of the last
    synchronisation; the next synchronisation, not forced and with a
    fresh directory cache, then requests the directory. *)
Lemma C2_fresh_cache_counterexample :
  let w0 := Sample.start Sample.unreachable in
  let w1 := snd (syncProviders false w0) in
  let w2 := snd (syncProviders true w1) in
  fst (isCacheExpired 24 w2) = false
  /\ snapshot w2 = []
  /\ directory_calls (snd (syncProviders false w2)) = S (directory_calls w2)
  /\ data (fst (syncProviders false w2)) <> snapshot w2.
Proof.
  cbv zeta. split; [vm_compute; reflexivity|]. split; [vm_compute; reflexivity|].
  split; [vm_compute; reflexivity|]. vm_compute. discriminate.
Qed.

(** C2, amended: when the refresh is not forced, the last
    synchronisation is at most twenty-four hours old and the persisted
    snapshot is not empty, [syncProviders] returns that snapshot and does
    nothing but read the clock once: no request, no write; the age of the
    coordinates plays no part.  When the refresh is forced, the directory
    is requested, exactly once, whatever the state of the cache; so it
    is, forced or not, when the snapshot is empty. *)
Theorem C2_sync_cache_or_fetch w :
  (forall lastSync,
      providers_last_sync (storage w) = Some lastSync ->
      currentTime w - lastSync <= 24 * (1000 * 60 * 60) ->
      snapshot w <> [] ->
      syncProviders false w =
      ({| success := true; data := snapshot w;
          message := Some MsgFromCache; error := None |},
       set_ticks (S (ticks w)) w))
  /\ directory_calls (snd (syncProviders true w)) = S (directory_calls w)
  /\ (snapshot w = [] ->
      directory_calls (snd (syncProviders false w)) = S (directory_calls w)).
Proof.
  assert (Hfetch : forall forceRefresh,
            negb forceRefresh && negb (fst (isCacheExpired 24 w))
            && (0 <? length (snapshot w))%nat = false ->
            directory_calls (snd (syncProviders forceRefresh w))
            = S (directory_calls w)).
  { intros forceRefresh Hcond. rewrite syncProviders_unfold. cbv zeta. rewrite Hcond.
    assert (Hd : directory_calls (snd (isCacheExpired 24 w)) = directory_calls w)
      by (by apply frames_isCacheExpired).
    set (r := fetchProvidersFromAPI (snd (isCacheExpired 24 w))).
    assert (Hr : directory_calls (snd r) = S (directory_calls w))
      by (unfold r; by rewrite fetchProvidersFromAPI_directory_calls, Hd).
    destruct (success (fst r) && _).
    + cbn [snd]. by rewrite (frames_saveToCache directory_calls).
    + by destruct (fst (loadFromCache (snd r))). }
  split; [|split].
  - intros lastSync Hlast Hage Hsnap.
    rewrite syncProviders_unfold. cbv zeta.
    rewrite isCacheExpired_spec, Hlast. cbn [fst snd negb andb].
    apply Z.ltb_ge in Hage. rewrite Hage. cbn [negb andb].
    destruct (snapshot w); [done|]. reflexivity.
  - by apply Hfetch.
  - intros Hempty. apply Hfetch. rewrite Hempty. apply andb_false_r.
Qed.

Lemma C2_sync_cache_or_fetch_witness :
  let w1 := snd (syncProviders false (Sample.start Sample.unreachable)) in
  syncProviders false w1 =
  ({| success := true; data := snapshot w1;
      message := Some MsgFromCache; error := None |},
   set_ticks (S (ticks w1)) w1).
Proof.
  intros w1.
  eapply (proj1 (C2_sync_cache_or_fetch w1)).
  - vm_compute. reflexivity.
  - vm_compute. discriminate.
  - vm_compute. discriminate.
Defined.



Lemma merge_coordinates apiProviders w r :
  r ∈ fst (mergeWithCachedCoordinates apiProviders w) ->
  coordinates r = newMap (coordinateEntries (snapshot w)) !! id (api r).
Proof.
  rewrite mergeWithCachedCoordinates_unfold. intros Hr.
  apply list_elem_of_lookup in Hr as (i & Hi).
  by apply mapM_mergeOne in Hi as (? & _).
Qed.





(** ** The theorems at sample inputs *)

Lemma NoDup_consistentIds apiProviders :
  NoDup (map id apiProviders) -> consistentIds apiProviders.
Proof.
  intros Hnd p q Hp Hq Hid.
  by rewrite (NoDup_map_inj id apiProviders p q Hnd Hp Hq Hid).
Qed.


Lemma C3_needsGeocodingUpdate_iff_witness :
  let w1 := snd (syncProviders false (Sample.start Sample.unreachable)) in
  fst (needsGeocodingUpdate Sample.moved w1) = true.
Proof.
  intros w1.
  apply (proj2 (proj2 (C3_needsGeocodingUpdate_iff Sample.moved w1))).
  - apply (bool_decide_unpack _). vm_compute. exact I.
  - right; right; right; right.
    exists (Sample.provider 1 "45 Rue B" "Cotonou"). eexists.
    split; [apply list_elem_of_here|].
    split; [apply (list_elem_of_lookup_2 _ 0%nat); vm_compute; reflexivity|].
    split; [vm_compute; reflexivity|].
    left. vm_compute. discriminate.
Defined.

Lemma C6_merge_attaches_cached_coordinates_witness :
  let w1 := snd (syncProviders false (Sample.start Sample.unreachable)) in
  exists p q,
    fst (mergeWithCachedCoordinates Sample.three w1) !! 0%nat = Some p
    /\ snapshot w1 !! 0%nat = Some q
    /\ last_updated p = Some (clock (env w1) (ticks w1 + 0))
    /\ coordinates p = coordinates q.
Proof.
  intros w1.
  destruct (C6_merge_attaches_cached_coordinates Sample.three w1) as (_ & _ & H).
  eexists. eexists.
  split; [vm_compute; reflexivity|]. split; [vm_compute; reflexivity|].
  split.
  - refine (proj1 (H 0%nat _ _)). vm_compute. reflexivity.
  - refine (proj2 (proj2 (proj2 (H 0%nat _ _))) _ _ _ _).
    + vm_compute. reflexivity.
    + apply (bool_decide_unpack _). vm_compute. exact I.
    + apply (list_elem_of_lookup_2 _ 0%nat). vm_compute. reflexivity.
    + vm_compute. reflexivity.
Defined.

Lemma C7_reconciliation_idempotent_witness :
  let w' := afterFullPass Sample.three (Sample.start Sample.unreachable) in
  needsGeocodingUpdate Sample.three w' = (false, w').
Proof.
  intros w'.
  refine (proj1 (proj1 (C7_reconciliation_idempotent Sample.three
                          (Sample.start Sample.unreachable) _ _) w' _)).
  - discriminate.
  - apply NoDup_consistentIds. apply (bool_decide_unpack _). vm_compute. exact I.
  - by left.
Defined.

(** ** Beyond the claims: the coordinate cache *)

Lemma cleanExpiredCache_unfold w :
  cleanExpiredCache w =
  let w0 := afterInitialize w in
  let kept := filter (fun kv => expiredAt (currentTime w) (snd kv) = false) (cache w0) in
  let removedCount := (size (cache w0) - size kept)%nat in
  let w1 := set_cache (fun _ => kept) (set_ticks (S (ticks w)) w0) in
  (removedCount,
   if (0 <? removedCount)%nat
   then set_storage (put_geocoding_cache (Some kept)) w1
   else w1).
Proof.
  unfold cleanExpiredCache, bind at 1. unfold afterInitialize.
  destruct (initialize w) as [[] w0] eqn:E. cbn [snd].
  assert (Hw0 : w0 = afterInitialize w) by (unfold afterInitialize; by rewrite E).
  assert (Hnow : clock (env w0) (ticks w0) = currentTime w)
    by (rewrite Hw0; apply currentTime_afterInitialize).
  assert (Hticks : ticks w0 = ticks w)
    by (rewrite Hw0; apply afterInitialize_frame).
  unfold bind, dateNow, gets, modify, ret, saveCache. cbn [cache set_ticks].
  rewrite Hnow, Hticks. cbv zeta.
  by destruct (0 <? _)%nat.
Qed.

Lemma cleanExpiredCache_lookup w key :
  cache (snd (cleanExpiredCache w)) !! key =
  match cache (afterInitialize w) !! key with
  | Some c =>
      if GEOCODING_CONFIG.coordinatesCacheTimeout <? currentTime w - geocoded_at c
      then None else Some c
  | None => None
  end.
Proof.
  rewrite cleanExpiredCache_unfold. cbv zeta.
  assert (Hc : forall w', cache (if (0 <? size (cache (afterInitialize w))
                  - size (filter (fun kv => expiredAt (currentTime w) (snd kv) = false)
                            (cache (afterInitialize w))))%nat
                then set_storage (put_geocoding_cache (Some
                       (filter (fun kv => expiredAt (currentTime w) (snd kv) = false)
                          (cache (afterInitialize w)))))
                       (set_cache (fun _ =>
                          filter (fun kv => expiredAt (currentTime w) (snd kv) = false)
                            (cache (afterInitialize w))) w')
                else set_cache (fun _ =>
                       filter (fun kv => expiredAt (currentTime w) (snd kv) = false)
                         (cache (afterInitialize w))) w')
              = filter (fun kv => expiredAt (currentTime w) (snd kv) = false)
                  (cache (afterInitialize w)))
    by (intros w'; by destruct (0 <? _)%nat).
  cbn [snd]. rewrite Hc, map_lookup_filter.
  destruct (cache (afterInitialize w) !! key) as [c|]; [|done]. simpl.
  unfold expiredAt.
  destruct (GEOCODING_CONFIG.coordinatesCacheTimeout <? currentTime w - geocoded_at c);
    [by rewrite option_guard_False|by rewrite option_guard_True].
Qed.

(** X1: [cleanExpiredCache] drops exactly the entries that are strictly
    more than ninety days old and keeps every other entry as it is; it
    returns the number of entries dropped, which is zero exactly when no
    entry is that old; it writes the storage only when it dropped
    something, the persisted map being then the cleaned one; it sends no
    request. *)
Theorem X1_cleanExpiredCache_drops_the_expired w :
  let r := cleanExpiredCache w in
  let before := cache (afterInitialize w) in
  (forall key,
      cache (snd r) !! key =
      match before !! key with
      | Some c =>
          if GEOCODING_CONFIG.coordinatesCacheTimeout <? currentTime w - geocoded_at c
          then None else Some c
      | None => None
      end)
  /\ (fst r + size (cache (snd r)) = size before)%nat
  /\ (fst r = 0%nat <->
      forall key c, before !! key = Some c ->
                    currentTime w - geocoded_at c <= GEOCODING_CONFIG.coordinatesCacheTimeout)
  /\ (fst r = 0%nat -> storage (snd r) = storage w)
  /\ (fst r <> 0%nat -> geocoding_cache_v2 (storage (snd r)) = Some (cache (snd r)))
  /\ nominatim_log (snd r) = nominatim_log w
  /\ directory_calls (snd r) = directory_calls w.
Proof.
  cbv zeta. split; [apply cleanExpiredCache_lookup|].
  destruct (afterInitialize_frame w) as (_ & _ & Hl & Hd & Hs & _).
  rewrite cleanExpiredCache_unfold. cbv zeta.
  set (before := cache (afterInitialize w)).
  set (kept := filter (fun kv => expiredAt (currentTime w) (snd kv) = false) before).
  assert (Hle : (size kept <= size before)%nat) by apply map_size_filter.
  assert (Hzero : (size before - size kept = 0)%nat <->
                  forall key c, before !! key = Some c ->
                    currentTime w - geocoded_at c
                    <= GEOCODING_CONFIG.coordinatesCacheTimeout).
  { split.
    - intros H key c Hk.
      assert (Heq : kept = before)
        by (apply map_subseteq_size_eq; [apply map_filter_subseteq|lia]).
      rewrite <- Heq in Hk. apply map_lookup_filter_Some in Hk as [_ Hp].
      simpl in Hp. unfold expiredAt in Hp. by apply Z.ltb_ge in Hp.
    - intros H. unfold kept. rewrite map_filter_id; [lia|].
      intros key c Hk. simpl. unfold expiredAt. apply Z.ltb_ge. by apply (H key). }
  cbn [fst snd].
  destruct (0 <? size before - size kept)%nat eqn:Hpos.
  - apply Nat.ltb_lt in Hpos. cbn [cache storage set_storage set_cache].
    split; [lia|]. split; [exact Hzero|]. split; [lia|]. split; [done|]. done.
  - apply Nat.ltb_ge in Hpos. cbn [cache storage set_cache set_ticks].
    split; [lia|]. split; [exact Hzero|]. split; [done|]. split; [lia|]. done.
Qed.

(** X2: the two expiry tests disagree on the boundary.  An entry that is
    exactly ninety days old survives [cleanExpiredCache], yet
    [geocodeAddress] treats it as expired and sends a request. *)
Theorem X2_expiry_boundary address city country w cached :
  cache (afterInitialize w) !! createCacheKey address city = Some cached ->
  currentTime w - geocoded_at cached = GEOCODING_CONFIG.coordinatesCacheTimeout ->
  cache (snd (cleanExpiredCache w)) !! createCacheKey address city = Some cached
  /\ nominatim_log (snd (geocodeAddress address city country w))
     = buildQuery address city country :: nominatim_log w.
Proof.
  intros Hc Hage. split.
  - rewrite cleanExpiredCache_lookup, Hc, Hage. by rewrite Z.ltb_irrefl.
  - rewrite geocodeAddress_unfold. cbv zeta. rewrite Hc, Hage, Z.ltb_irrefl.
    rewrite lookupRemote_log. cbn [nominatim_log set_cache set_ticks].
    f_equal. apply afterInitialize_frame.
Qed.

Lemma geocodeAddress_hit address city country w cached :
  isInitialized w = true ->
  cache w !! createCacheKey address city = Some cached ->
  currentTime w - geocoded_at cached < GEOCODING_CONFIG.coordinatesCacheTimeout ->
  geocodeAddress address city country w = (Some cached, set_ticks (S (ticks w)) w).
Proof.
  intros Hi Hc Hage. rewrite geocodeAddress_unfold. cbv zeta.
  rewrite (afterInitialize_idem w Hi), Hc.
  apply Z.ltb_lt in Hage. by rewrite Hage.
Qed.

Lemma lookupRemote_success cacheKey address city country w status result rest :
  nextNominatimReply w (buildQuery address city country)
  = GeoHttp status (GeoJson (result :: rest)) ->
  response_ok status = true ->
  let coordinates :=
    {| latitude := Some (lat result); longitude := Some (lon result);
       geocoded_at := currentTime w; geocoding_source := SourceApi;
       accuracy := Some (if hasAddress address then Approximate else CityLevel) |} in
  let stored := <[cacheKey := coordinates]> (cache w) in
  lookupRemote cacheKey address city country w =
  (Some coordinates,
   set_storage (put_geocoding_cache (Some stored))
     (set_cache (fun _ => stored)
        (set_ticks (S (ticks w))
           (set_nominatim_log (buildQuery address city country :: nominatim_log w) w)))).
Proof.
  intros Hreply Hok. unfold nextNominatimReply in Hreply.
  unfold lookupRemote, bind at 1, fetchNominatim. rewrite Hreply, Hok. reflexivity.
Qed.

(** The world in which [geocodeAddress] runs its remote lookup, when no
    valid entry is cached. *)
Lemma geocodeAddress_miss address city country w :
  (forall cached,
      cache (afterInitialize w) !! createCacheKey address city = Some cached ->
      GEOCODING_CONFIG.coordinatesCacheTimeout <= currentTime w - geocoded_at cached) ->
  exists w1,
    geocodeAddress address city country w
    = lookupRemote (createCacheKey address city) address city country w1
    /\ env w1 = env w /\ nominatim_log w1 = nominatim_log w
    /\ isInitialized w1 = true
    /\ (ticks w1 = ticks w \/ ticks w1 = S (ticks w)).
Proof.
  intros Hentry. rewrite geocodeAddress_unfold. cbv zeta.
  destruct (afterInitialize_frame w) as (He & Ht & Hl & _ & _ & _ & Hi).
  destruct (cache (afterInitialize w) !! createCacheKey address city)
    as [cached|] eqn:Hc.
  - specialize (Hentry cached eq_refl). apply Z.ltb_ge in Hentry. rewrite Hentry.
    eexists. split; [reflexivity|]. cbn. rewrite He, Hl, Hi. repeat split. by right.
  - exists (afterInitialize w). rewrite He, Hl, Hi, Ht. repeat split. by left.
Qed.

(** X3: a coordinate obtained from the remote geocoder is tagged
    [SourceApi], approximate for a non-blank address and city-level
    otherwise, and is stored under the key that is looked up: as long as
    it is less than ninety days old, the same call repeated returns it
    and does nothing but read the clock. *)
Theorem X3_remote_answer_is_reused address city country w status result rest :
  (forall cached,
      cache (afterInitialize w) !! createCacheKey address city = Some cached ->
      GEOCODING_CONFIG.coordinatesCacheTimeout <= currentTime w - geocoded_at cached) ->
  nextNominatimReply w (buildQuery address city country)
  = GeoHttp status (GeoJson (result :: rest)) ->
  response_ok status = true ->
  let first := geocodeAddress address city country w in
  exists coords,
    fst first = Some coords
    /\ latitude coords = Some (lat result) /\ longitude coords = Some (lon result)
    /\ geocoding_source coords = SourceApi
    /\ accuracy coords = Some (if hasAddress address then Approximate else CityLevel)
    /\ nominatim_log (snd first) = buildQuery address city country :: nominatim_log w
    /\ (currentTime (snd first) - geocoded_at coords
          < GEOCODING_CONFIG.coordinatesCacheTimeout ->
        geocodeAddress address city country (snd first)
        = (Some coords, set_ticks (S (ticks (snd first))) (snd first))).
Proof.
  intros Hentry Hreply Hok. cbv zeta.
  destruct (geocodeAddress_miss address city country w Hentry)
    as (w1 & -> & He & Hl & Hi & _).
  rewrite (lookupRemote_success _ _ _ _ w1 status result rest); [|
    unfold nextNominatimReply in *; by rewrite He, Hl | done].
  cbv zeta. cbn [fst snd]. eexists. split; [reflexivity|].
  cbn [latitude longitude geocoding_source accuracy geocoded_at].
  repeat (split; [done|]). split; [cbn; by rewrite Hl|].
  intros Hage. apply geocodeAddress_hit; [exact Hi| |exact Hage].
  cbn [cache set_storage set_cache]. apply lookup_insert_eq.
Qed.

(** X4: for a blank address the fallback answer is stored under the key
    that is looked up, so that, contrary to what happens for a non-blank
    address, the same call repeated within ninety days returns it and
    sends no request. *)
Theorem X4_blank_address_fallback_is_reused address city country w coords :
  spec_normalize address = "" ->
  (forall cached,
      cache (afterInitialize w) !! createCacheKey address city = Some cached ->
      GEOCODING_CONFIG.coordinatesCacheTimeout <= currentTime w - geocoded_at cached) ->
  lookupFailed (nextNominatimReply w (buildQuery address city country)) = true ->
  cityCoordinates !! normalizeCity city = Some coords ->
  let first := geocodeAddress address city country w in
  exists c,
    fst first = Some c
    /\ geocoding_source c = SourceFallback
    /\ (currentTime (snd first) - geocoded_at c
          < GEOCODING_CONFIG.coordinatesCacheTimeout ->
        geocodeAddress address city country (snd first)
        = (Some c, set_ticks (S (ticks (snd first))) (snd first))).
Proof.
  intros Hblank Hentry Hfail Htable. cbv zeta.
  assert (Hkey : createCacheKey address city = createCacheKey "" city)
    by (rewrite !createCacheKey_eq, Hblank; reflexivity).
  destruct (geocodeAddress_miss address city country w Hentry)
    as (w1 & -> & He & Hl & Hi & _).
  rewrite lookupRemote_failed
    by (unfold nextNominatimReply in *; by rewrite He, Hl).
  rewrite (getFallbackCoordinates_found _ _ coords Htable). cbv zeta. cbn [fst snd].
  eexists. split; [reflexivity|]. split; [done|].
  intros Hage. apply geocodeAddress_hit; [exact Hi| |exact Hage].
  cbn [cache set_storage set_cache]. rewrite Hkey. apply lookup_insert_eq.
Qed.

Lemma lookupFailed_false reply :
  lookupFailed reply = false ->
  exists status result rest,
    reply = GeoHttp status (GeoJson (result :: rest)) /\ response_ok status = true.
Proof.
  destruct reply as [|status [|[|result rest]]]; simpl; try done.
  - by rewrite orb_true_r.
  - by rewrite orb_true_r.
  - rewrite orb_false_r, negb_false_iff. intros H. by exists status, result, rest.
Qed.

Lemma lookupRemote_persists cacheKey address city country w coords :
  fst (lookupRemote cacheKey address city country w) = Some coords ->
  geocoding_cache_v2 (storage (snd (lookupRemote cacheKey address city country w)))
  = Some (cache (snd (lookupRemote cacheKey address city country w))).
Proof.
  destruct (lookupFailed (nextNominatimReply w (buildQuery address city country)))
    eqn:Hf.
  - rewrite (lookupRemote_failed _ _ _ _ _ Hf). unfold getFallbackCoordinates.
    destruct (readCityCoordinates _); [reflexivity|discriminate].
  - apply lookupFailed_false in Hf as (status & result & rest & Hreply & Hok).
    by rewrite (lookupRemote_success _ _ _ _ _ _ _ _ Hreply Hok).
Qed.

(** X5: whenever [geocodeAddress] sends a request and returns a
    coordinate, remote or fallback, the whole in-memory map is persisted:
    a process that starts afterwards with the same storage initialises
    its map to the same content. *)
Theorem X5_coordinates_survive_restart address city country w coords :
  let r := geocodeAddress address city country w in
  fst r = Some coords ->
  nominatim_log (snd r) <> nominatim_log w ->
  geocoding_cache_v2 (storage (snd r)) = Some (cache (snd r))
  /\ forall restarted,
       storage restarted = storage (snd r) ->
       isInitialized restarted = false ->
       cache (afterInitialize restarted) = cache (snd r).
Proof.
  cbv zeta. intros Hres Hlog.
  assert (Hsaved : geocoding_cache_v2
                     (storage (snd (geocodeAddress address city country w)))
                   = Some (cache (snd (geocodeAddress address city country w)))).
  { revert Hres Hlog. rewrite geocodeAddress_unfold. cbv zeta.
    destruct (cache (afterInitialize w) !! createCacheKey address city) as [cached|].
    - destruct (_ <? _).
      + intros _ Hlog. exfalso. apply Hlog. cbn. apply afterInitialize_frame.
      + intros Hres _. by apply (lookupRemote_persists _ _ _ _ _ coords).
    - intros Hres _. by apply (lookupRemote_persists _ _ _ _ _ coords). }
  split; [exact Hsaved|].
  intros restarted Hst Hinit. unfold afterInitialize.
  rewrite initialize_spec, Hinit, Hst, Hsaved. reflexivity.
Qed.

(** ** Beyond the claims: pacing of the geocoding pass *)

Lemma lookupRemote_delays cacheKey address city country w :
  delays (snd (lookupRemote cacheKey address city country w)) = delays w.
Proof.
  destruct (lookupFailed (nextNominatimReply w (buildQuery address city country)))
    eqn:Hf.
  - rewrite (lookupRemote_failed _ _ _ _ _ Hf). unfold getFallbackCoordinates.
    destruct (readCityCoordinates _); reflexivity.
  - apply lookupFailed_false in Hf as (status & result & rest & Hreply & Hok).
    by rewrite (lookupRemote_success _ _ _ _ _ _ _ _ Hreply Hok).
Qed.

Lemma geocodeAddress_delays address city country w :
  delays (snd (geocodeAddress address city country w)) = delays w.
Proof.
  rewrite geocodeAddress_unfold. cbv zeta.
  destruct (afterInitialize_frame w) as (_ & _ & _ & _ & _ & Hd & _).
  destruct (cache (afterInitialize w) !! _) as [cached|].
  - destruct (_ <? _); [done|]. by rewrite lookupRemote_delays.
  - by rewrite lookupRemote_delays.
Qed.

Lemma geocodeAddress_log address city country w :
  nominatim_log (snd (geocodeAddress address city country w)) = nominatim_log w
  \/ nominatim_log (snd (geocodeAddress address city country w))
     = buildQuery address city country :: nominatim_log w.
Proof.
  rewrite geocodeAddress_unfold. cbv zeta.
  destruct (afterInitialize_frame w) as (_ & _ & Hl & _).
  destruct (cache (afterInitialize w) !! _) as [cached|].
  - destruct (_ <? _); [left; cbn; exact Hl|].
    right. rewrite lookupRemote_log. cbn. by rewrite Hl.
  - right. by rewrite lookupRemote_log, Hl.
Qed.

Lemma geocodeLoop_pacing l w :
  delays (snd (geocodeLoop l w)) = (delays w + (length l - 1))%nat
  /\ exists sent,
       nominatim_log (snd (geocodeLoop l w)) = (sent ++ nominatim_log w)%list
       /\ (length sent <= length l)%nat.
Proof.
  revert w. induction l as [|p l IH]; intros w.
  - simpl. split; [lia|]. by exists [].
  - rewrite geocodeLoop_cons. cbv zeta. cbn [snd].
    set (isLast := match l with [] => true | _ :: _ => false end).
    destruct (IH (snd (geocodeOne p isLast w))) as (Hd & sent & Hs & Hlen).
    assert (Hone : delays (snd (geocodeOne p isLast w))
                   = (delays w + (if isLast then 0 else 1))%nat
                   /\ exists sent1,
                        nominatim_log (snd (geocodeOne p isLast w))
                        = (sent1 ++ nominatim_log w)%list
                        /\ (length sent1 <= 1)%nat).
    { rewrite geocodeOne_unfold. cbv zeta. cbn [snd].
      pose proof (geocodeAddress_delays (address (api p)) (cityOrDefault p)
                    defaultCountry w) as Hda.
      split.
      - destruct isLast; cbn; rewrite Hda; lia.
      - destruct (geocodeAddress_log (address (api p)) (cityOrDefault p)
                    defaultCountry w) as [Hl|Hl].
        + exists []. split; [|simpl; lia]. by destruct isLast.
        + eexists [_]. split; [|simpl; lia]. destruct isLast; exact Hl. }
    destruct Hone as (Hd1 & sent1 & Hs1 & Hlen1).
    split.
    + rewrite Hd, Hd1. unfold isLast. destruct l; simpl; lia.
    + exists (sent ++ sent1)%list. rewrite Hs, Hs1, app_assoc. split; [done|].
      rewrite length_app. simpl. lia.
Qed.

(** X6: [geocodeProviders] sends at most one request per record that
    lacks a coordinate and pauses once between two consecutive lookups,
    never after the last; when every record already has a coordinate it
    returns its input and does nothing but initialise the service. *)
Theorem X6_geocodeProviders_pacing providers w :
  let needs := List.filter (fun p => negb (hasCoordinates p)) providers in
  let r := geocodeProviders providers w in
  delays (snd r) = (delays w + (length needs - 1))%nat
  /\ (exists sent,
        nominatim_log (snd r) = (sent ++ nominatim_log w)%list
        /\ (length sent <= length needs)%nat)
  /\ directory_calls (snd r) = directory_calls w
  /\ ((forall p, p ∈ providers -> hasCoordinates p = true) ->
      r = (providers, afterInitialize w)).
Proof.
  cbv zeta. split; [|split; [|split]].
  - rewrite geocodeProviders_unfold. cbv zeta.
    destruct (afterInitialize_frame w) as (_ & _ & _ & _ & _ & Hd & _).
    destruct (List.filter _ providers) as [|p needs] eqn:Hn; cbn [snd].
    + simpl. lia.
    + destruct (geocodeLoop_pacing (p :: needs) (afterInitialize w)) as (-> & _).
      by rewrite Hd.
  - rewrite geocodeProviders_unfold. cbv zeta.
    destruct (afterInitialize_frame w) as (_ & _ & Hl & _).
    destruct (List.filter _ providers) as [|p needs] eqn:Hn; cbn [snd].
    + exists []. by rewrite Hl.
    + destruct (geocodeLoop_pacing (p :: needs) (afterInitialize w))
        as (_ & sent & Hs & Hlen).
      exists sent. by rewrite Hs, Hl.
  - by apply frames_geocodeProviders.
  - intros Hall. rewrite geocodeProviders_unfold. cbv zeta.
    destruct (List.filter _ providers) as [|p needs] eqn:Hn; [done|].
    assert (Hin : In p (List.filter (fun p => negb (hasCoordinates p)) providers))
      by (rewrite Hn; by left).
    apply filter_In in Hin as [Hin Hp]. apply list_elem_of_In in Hin.
    rewrite (Hall p Hin) in Hp. done.
Qed.

(** ** Beyond the claims: the directory pass *)

Lemma geocodeLoop_members l w r :
  r ∈ fst (geocodeLoop l w) -> exists p, p ∈ l /\ api r = api p.
Proof.
  revert w. induction l as [|p l IH]; intros w Hr.
  - simpl in Hr. by apply elem_of_nil in Hr.
  - rewrite geocodeLoop_cons in Hr. cbv zeta in Hr. cbn [fst] in Hr.
    apply elem_of_cons in Hr as [->|Hr].
    + exists p. split; [by left|]. by rewrite geocodeOne_unfold.
    + apply IH in Hr as (q & Hq & Ha). exists q. split; [by right|done].
Qed.

Lemma processed_keeps_snapshot_coordinates apiData w r q c :
  NoDup (map (fun q => id (api q)) (snapshot w)) ->
  r ∈ processed apiData w ->
  q ∈ snapshot w -> id (api q) = id (api r) -> coordinates q = Some c ->
  coordinates r = Some c.
Proof.
  intros Hnd Hr Hq Hid Hc.
  assert (Hm : newMap (coordinateEntries (snapshot w)) !! id (api r) = Some c).
  { apply newMap_NoDup; [by apply NoDup_coordinateEntries|].
    apply elem_of_coordinateEntries. by exists q. }
  revert Hr. unfold processed. cbv zeta.
  destruct (fst (needsGeocodingUpdate apiData w)).
  - rewrite geocodeProviders_unfold. cbv zeta.
    destruct (List.filter (fun p => negb (hasCoordinates p)) _) as [|p needs] eqn:Hn.
    + cbn [fst]. intros Hr. by rewrite (merge_coordinates apiData w r Hr).
    + cbn [fst]. intros Hr. apply elem_of_app in Hr as [Hr|Hr].
      * apply list_elem_of_In, filter_In in Hr as [Hr _].
        apply list_elem_of_In in Hr. by rewrite (merge_coordinates apiData w r Hr).
      * exfalso. apply geocodeLoop_members in Hr as (p' & Hp' & Ha).
        rewrite <- Hn in Hp'. apply list_elem_of_In, filter_In in Hp' as [Hp' Hno].
        apply list_elem_of_In in Hp'.
        pose proof (merge_coordinates apiData w p' Hp') as Hcp.
        rewrite <- Ha, Hm in Hcp. unfold hasCoordinates in Hno.
        by rewrite Hcp in Hno.
  - intros Hr. by rewrite (merge_coordinates apiData w r Hr).
Qed.

(** X7: whatever the fresh directory says, a record returned by
    [fetchProvidersFromAPI] whose identifier has a coordinate in the
    snapshot carries that coordinate: a provider whose address or city
    changed triggers the full pass but is not geocoded again. *)
Theorem X7_snapshot_coordinate_outlives_address_change w apiData r q c :
  directoryData (nextDirectoryReply w) = inr apiData ->
  NoDup (map (fun q => id (api q)) (snapshot w)) ->
  r ∈ data (fst (fetchProvidersFromAPI w)) ->
  q ∈ snapshot w -> id (api q) = id (api r) -> coordinates q = Some c ->
  coordinates r = Some c.
Proof.
  intros Hreply Hnd Hr Hq Hid Hc.
  rewrite (fetchProvidersFromAPI_ok w apiData Hreply) in Hr. cbn [data] in Hr.
  assert (Hs : snapshot (set_directory_calls (S (directory_calls w)) w) = snapshot w)
    by (by apply snapshot_storage).
  rewrite <- Hs in Hnd, Hq.
  exact (processed_keeps_snapshot_coordinates apiData
           (set_directory_calls (S (directory_calls w)) w) r q c Hnd Hr Hq Hid Hc).
Qed.

Lemma snapshot_key w1 w2 :
  providers_with_coordinates_v2 (storage w1) = providers_with_coordinates_v2 (storage w2) ->
  snapshot w1 = snapshot w2.
Proof.
  intros H. unfold snapshot, loadProvidersWithCoordinates, bind, gets. simpl.
  rewrite H. by destruct (providers_with_coordinates_v2 (storage w2)).
Qed.

Lemma fetchProvidersFromAPI_unchanged w apiData :
  directoryData (nextDirectoryReply w) = inr apiData ->
  fst (needsGeocodingUpdate apiData w) = false ->
  snd (fetchProvidersFromAPI w)
  = snd (cleanExpiredCache
           (snd (mergeWithCachedCoordinates apiData
                   (set_directory_calls (S (directory_calls w)) w)))).
Proof.
  intros Hreply Hneeds.
  unfold fetchProvidersFromAPI, bind at 1, fetchDirectory.
  unfold nextDirectoryReply in Hreply. rewrite Hreply.
  set (w1 := set_directory_calls (S (directory_calls w)) w).
  unfold bind at 1. rewrite needsGeocodingUpdate_unfold.
  rewrite needsGeocodingUpdate_unfold in Hneeds. cbn [fst] in Hneeds.
  assert (Hs : snapshot w1 = snapshot w) by (by apply snapshot_storage).
  rewrite Hs.
  change (geocoding_metadata (storage w1)) with (geocoding_metadata (storage w)).
  rewrite Hneeds. unfold bind at 1.
  destruct (mergeWithCachedCoordinates apiData w1) as [merged w2]. cbn [snd].
  unfold bind. by destruct (cleanExpiredCache w2).
Qed.

(** X8: when [needsGeocodingUpdate] answers false for the fetched
    directory, [fetchProvidersFromAPI] returns the merged list, sends no
    geocoding request, pauses nowhere, and leaves the snapshot and its
    metadata as they were. *)
Theorem X8_unchanged_directory_costs_no_lookup w apiData :
  directoryData (nextDirectoryReply w) = inr apiData ->
  fst (needsGeocodingUpdate apiData w) = false ->
  let r := fetchProvidersFromAPI w in
  map api (data (fst r)) = apiData
  /\ nominatim_log (snd r) = nominatim_log w
  /\ delays (snd r) = delays w
  /\ snapshot (snd r) = snapshot w
  /\ geocoding_metadata (storage (snd r)) = geocoding_metadata (storage w).
Proof.
  intros Hreply Hneeds. cbv zeta.
  set (w1 := set_directory_calls (S (directory_calls w)) w).
  split.
  - rewrite (fetchProvidersFromAPI_ok w apiData Hreply). cbn [data].
    unfold processed. cbv zeta.
    assert (Hn1 : fst (needsGeocodingUpdate apiData w1) = false).
    { rewrite needsGeocodingUpdate_unfold in *. cbn [fst] in *.
      assert (Hs : snapshot w1 = snapshot w) by (by apply snapshot_storage).
      by rewrite Hs. }
    fold w1. rewrite Hn1. apply merge_api.
  - rewrite (fetchProvidersFromAPI_unchanged w apiData Hreply Hneeds). fold w1.
    rewrite merge_world, cleanExpiredCache_unfold. cbv zeta.
    set (w2 := set_ticks (ticks w1 + length apiData) w1).
    destruct (afterInitialize_frame w2) as (_ & _ & Hl & _ & Hs & Hd & _).
    assert (Hsnap : snapshot (afterInitialize w2) = snapshot w)
      by (by apply snapshot_storage).
    destruct (0 <? _)%nat; cbn [snd].
    + repeat split; try done.
      * apply snapshot_key. cbn. by rewrite Hs.
      * cbn. by rewrite Hs.
    + repeat split; try done.
      * apply snapshot_key. cbn. by rewrite Hs.
      * cbn. by rewrite Hs.
Qed.

(** ** Beyond the claims: the directory cache *)

Lemma saveToCache_spec providers w :
  saveToCache providers w =
  (tt,
   snd (saveProvidersWithCoordinates providers
          (set_storage (put_last_sync (Some (clock (env w) (S (ticks w)))))
             (set_ticks (S (S (ticks w)))
                (set_storage
                   (put_providers_cache
                      (Some {| cd_providers := providers;
                               cached_at := clock (env w) (ticks w);
                               cd_version := "1.0" |})) w))))).
Proof. reflexivity. Qed.

(** X9: what [saveToCache] stores is what [loadFromCache] and
    [loadProvidersWithCoordinates] read back, for every list, the empty
    one included; the metadata count the records and those with a
    coordinate; the date of the last synchronisation is the second of the
    four readings of the clock, and the cache is not expired as long as
    the clock has not advanced by more than twenty-four hours since. *)
Theorem X9_saveToCache_round_trip providers w :
  let w' := snd (saveToCache providers w) in
  fst (loadFromCache w') = providers
  /\ snapshot w' = providers
  /\ (exists m, geocoding_metadata (storage w') = Some m
                /\ total_providers m = length providers
                /\ geocoded_providers m = length (List.filter hasCoordinates providers))
  /\ providers_last_sync (storage w') = Some (clock (env w) (S (ticks w)))
  /\ ticks w' = (ticks w + 4)%nat
  /\ (currentTime w' - clock (env w) (S (ticks w)) <= 24 * (1000 * 60 * 60) ->
      fst (isCacheExpired 24 w') = false).
Proof.
  cbv zeta. rewrite saveToCache_spec. cbn [snd].
  set (w1 := set_storage (put_last_sync _) _).
  destruct (snapshot_after_save providers w1) as [Hs Hm].
  assert (Hlast : providers_last_sync
                    (storage (snd (saveProvidersWithCoordinates providers w1)))
                  = Some (clock (env w) (S (ticks w))))
    by (by rewrite saveProvidersWithCoordinates_spec).
  split; [|split; [exact Hs|split; [|split; [exact Hlast|split]]]].
  - rewrite loadFromCache_spec. cbn [fst]. rewrite Hs.
    destruct providers; [|done].
    by rewrite saveProvidersWithCoordinates_spec.
  - eexists. split; [exact Hm|]. done.
  - rewrite saveProvidersWithCoordinates_spec. cbn. lia.
  - intros Hage. rewrite isCacheExpired_spec, Hlast. cbn [fst].
    by apply Z.ltb_ge.
Qed.

Lemma syncProviders_cached w lastSync :
  providers_last_sync (storage w) = Some lastSync ->
  currentTime w - lastSync <= 24 * (1000 * 60 * 60) ->
  snapshot w <> [] ->
  syncProviders false w =
  ({| success := true; data := snapshot w;
      message := Some MsgFromCache; error := None |},
   set_ticks (S (ticks w)) w).
Proof.
  intros Hlast Hage Hsnap.
  rewrite syncProviders_unfold. cbv zeta.
  rewrite isCacheExpired_spec, Hlast. cbn [fst snd negb andb].
  apply Z.ltb_ge in Hage. rewrite Hage. cbn [negb andb].
  destruct (snapshot w); [done|]. reflexivity.
Qed.

(** A synchronisation that requested the directory and answers with the
    fetched list, or with the snapshot because the request failed, has
    saved what it answers. *)
Lemma syncProviders_saved forceRefresh w :
  let first := syncProviders forceRefresh w in
  directory_calls (snd first) = S (directory_calls w) ->
  success (fst first) = true ->
  data (fst first) <> [] ->
  message (fst first) <> Some MsgCacheFallback ->
  exists w0,
    env w0 = env w
    /\ snd first = snd (saveToCache (data (fst first)) w0).
Proof.
  cbv zeta. rewrite syncProviders_unfold. cbv zeta.
  assert (Hd : directory_calls (snd (isCacheExpired 24 w)) = directory_calls w)
    by (by apply frames_isCacheExpired).
  assert (He : env (snd (isCacheExpired 24 w)) = env w)
    by (by apply frames_isCacheExpired).
  destruct (negb forceRefresh && _ && _).
  - cbn [fst snd]. rewrite Hd. lia.
  - set (r := fetchProvidersFromAPI (snd (isCacheExpired 24 w))).
    destruct (success (fst r) && (0 <? length (data (fst r)))%nat) eqn:Hok.
    + cbn [fst snd]. intros _ _ _ _. exists (snd r). split; [|done].
      unfold r. by rewrite (fetchProvidersFromAPI_frame env).
    + destruct (fst (loadFromCache (snd r))) eqn:Hl; cbn [fst snd].
      * intros _ Hs Hdata _. exfalso.
        rewrite Hs in Hok. cbn [andb] in Hok.
        apply Nat.ltb_ge in Hok. destruct (data (fst r)); [done|simpl in Hok; lia].
      * intros _ _ _ Hm. done.
Qed.

Lemma saveToCache_stored providers w :
  snapshot (snd (saveToCache providers w)) = providers
  /\ providers_last_sync (storage (snd (saveToCache providers w)))
     = Some (clock (env w) (S (ticks w))).
Proof.
  rewrite saveToCache_spec. cbn [snd].
  set (w1 := set_storage (put_last_sync _) _).
  destruct (snapshot_after_save providers w1) as [Hs _].
  split; [exact Hs|]. by rewrite saveProvidersWithCoordinates_spec.
Qed.

Lemma saved_then_cached providers w :
  providers <> [] ->
  let w1 := snd (saveToCache providers w) in
  currentTime w1 - clock (env w) (S (ticks w)) <= 24 * (1000 * 60 * 60) ->
  syncProviders false w1 =
  ({| success := true; data := providers;
      message := Some MsgFromCache; error := None |},
   set_ticks (S (ticks w1)) w1).
Proof.
  intros Hne w1 Hage.
  destruct (saveToCache_stored providers w) as [Hs Hl]. fold w1 in Hs, Hl.
  rewrite (syncProviders_cached w1 _ Hl Hage); rewrite Hs; done.
Qed.

(** X10: after a synchronisation that requested the directory and
    answered with the fetched list (or with the snapshot because the
    request failed), the snapshot is the list answered and the date of
    the last synchronisation is set; as long as that date is at most
    twenty-four hours old, the next unforced synchronisation answers the
    same list and does nothing but read the clock. *)
Theorem X10_second_sync_is_served_from_cache forceRefresh w :
  let first := syncProviders forceRefresh w in
  let w1 := snd first in
  directory_calls w1 = S (directory_calls w) ->
  success (fst first) = true ->
  data (fst first) <> [] ->
  message (fst first) <> Some MsgCacheFallback ->
  snapshot w1 = data (fst first)
  /\ exists stamp,
       providers_last_sync (storage w1) = Some stamp
       /\ (currentTime w1 - stamp <= 24 * (1000 * 60 * 60) ->
           syncProviders false w1 =
           ({| success := true; data := data (fst first);
               message := Some MsgFromCache; error := None |},
            set_ticks (S (ticks w1)) w1)).
Proof.
  cbv zeta. intros Hreq Hs Hdata Hm.
  destruct (syncProviders_saved forceRefresh w Hreq Hs Hdata Hm) as (w0 & He & Hw1).
  rewrite Hw1.
  destruct (saveToCache_stored (data (fst (syncProviders forceRefresh w))) w0)
    as [Hsnap Hlast].
  split; [exact Hsnap|]. eexists. split; [exact Hlast|].
  intros Hage. by apply saved_then_cached.
Qed.


Lemma clearCache_spec w :
  ProvidersService.clearCache w =
  (tt,
   {| env := env w;
      storage := {| providers_cache := None;
                    providers_with_coordinates_v2 := None;
                    geocoding_cache_v2 := None;
                    geocoding_metadata := None;
                    providers_last_sync := None |};
      cache := ∅;
      isInitialized := isInitialized w;
      ticks := ticks w;
      nominatim_log := nominatim_log w;
      directory_calls := directory_calls w;
      delays := delays w |}).
Proof. reflexivity. Qed.

(** X12: [clearCache] removes every persisted value and empties the
    coordinate map; afterwards nothing is read back, the directory cache
    counts as expired, every synchronisation requests the directory, and
    it reports a failure when that request fails. *)
Theorem X12_clearCache_forgets_everything forceRefresh w :
  let w' := snd (ProvidersService.clearCache w) in
  cache w' = ∅
  /\ geocoding_cache_v2 (storage w') = None
  /\ fst (loadFromCache w') = []
  /\ isCacheExpired 24 w' = (true, w')
  /\ (forall apiData, fst (needsGeocodingUpdate apiData w') = true)
  /\ directory_calls (snd (syncProviders forceRefresh w')) = S (directory_calls w)
  /\ (forall err,
        directoryData (nextDirectoryReply w) = inl err ->
        fst (syncProviders forceRefresh w')
        = {| success := false; data := []; message := None; error := Some err |}).
Proof.
  cbv zeta. rewrite clearCache_spec. cbn [snd].
  set (w' := {| env := env w; storage := _; cache := ∅ |}).
  split; [done|]. split; [done|]. split; [done|]. split; [done|].
  split; [done|].
  assert (Hunfold : syncProviders forceRefresh w' =
            let r := fetchProvidersFromAPI w' in
            if success (fst r) && (0 <? length (data (fst r)))%nat
            then (fst r, snd (saveToCache (data (fst r)) (snd r)))
            else match fst (loadFromCache (snd r)) with
                 | [] => (fst r, snd r)
                 | _ :: _ =>
                     ({| success := true; data := fst (loadFromCache (snd r));
                         message := Some MsgCacheFallback; error := None |}, snd r)
                 end).
  { rewrite syncProviders_unfold. cbv zeta.
    replace (isCacheExpired 24 w') with (true, w') by reflexivity.
    cbn [fst snd negb]. by rewrite andb_false_r. }
  rewrite Hunfold. cbv zeta.
  pose proof (fetchProvidersFromAPI_directory_calls w') as Hcalls.
  split.
  - destruct (success _ && _).
    + cbn [snd]. by rewrite (frames_saveToCache directory_calls).
    + by destruct (fst (loadFromCache _)).
  - intros err Hreply.
    assert (Hreply' : directoryData (nextDirectoryReply w') = inl err) by exact Hreply.
    rewrite (fetchProvidersFromAPI_failed w' err Hreply').
    replace (snapshot w') with (@nil Provider) by reflexivity.
    cbn [fst snd success andb]. reflexivity.
Qed.

(** ** Beyond the claims: search *)

Section Search.
Variable calculateDistance : Q -> Q -> Q -> Q -> Q.

Lemma filter_filter_andb {A} (g h : A -> bool) l :
  List.filter h (List.filter g l) = List.filter (fun x => g x && h x) l.
Proof.
  induction l as [|x l IH]; [done|]. simpl.
  destruct (g x); simpl; [|done]. destruct (h x); by rewrite IH.
Qed.

Lemma filter_true {A} (l : list A) : List.filter (fun _ => true) l = l.
Proof. induction l as [|x l IH]; [done|]. simpl. by rewrite IH. Qed.

Lemma filter_andb_true_r {A} (g : A -> bool) l :
  List.filter (fun x => g x && true) l = List.filter g l.
Proof. apply filter_ext. intros x. apply andb_true_r. Qed.

Lemma filter_sublist {A} (g : A -> bool) l : sublist (List.filter g l) l.
Proof.
  induction l as [|x l IH]; [done|]. simpl.
  destruct (g x); by constructor.
Qed.

Lemma filterProviders_withoutLocation providers f :
  filterProviders calculateDistance providers (withoutLocation f)
  = List.filter (criteria f) providers.
Proof.
  assert (Htext : forall (o : option string) (g : string -> Provider -> bool) l,
            match o with
            | Some t => if truthy t then List.filter (g t) l else l
            | None => l
            end
            = List.filter (fun p => if truthyText o then g (default "" o) p else true) l).
  { intros [t|] g l; simpl; [destruct (truthy t)|]; by rewrite ?filter_true. }
  assert (Hopt : forall {A} (o : option A) (g : A -> Provider -> bool) l,
            match o with
            | Some a => List.filter (g a) l
            | None => l
            end
            = List.filter (fun p => match o with Some a => g a p | None => true end) l).
  { intros A [a|] g l; by rewrite ?filter_true. }
  unfold filterProviders. cbv zeta.
  cbn [nearLocation withoutLocation filter_type filter_city filter_sector
       filter_agreeged searchText].
  rewrite (Htext (filter_type f)
             (fun t p => includesFolded (provider_type (api p)) t)).
  rewrite (Htext (filter_city f) (fun c p => includesFolded (city (api p)) c)).
  rewrite (Hopt _ (filter_sector f) (fun s p => sectorEqb (sector (api p)) s)).
  rewrite (Hopt _ (filter_agreeged f) (fun a p => Bool.eqb (agreeged (api p)) a)).
  rewrite (Htext (searchText f) (fun t p => matchesSearch (toLowerCase t) p)).
  rewrite !filter_filter_andb. apply filter_ext. intros p.
  unfold criteria. by rewrite !andb_assoc.
Qed.

Lemma filterProviders_unfold providers f :
  filterProviders calculateDistance providers f =
  let textual := filterProviders calculateDistance providers (withoutLocation f) in
  match nearLocation f with
  | Some near =>
      if truthyNumber (near_latitude near) && truthyNumber (near_longitude near)
      then sortByDistanceFromUser
             (List.filter (fun p => withinRadius p (effectiveRadius near))
                (withDistanceFrom calculateDistance
                   (near_latitude near) (near_longitude near) textual))
      else textual
  | None => textual
  end.
Proof. by destruct f as [? ? ? ? ? [near|]]. Qed.

Lemma truthyNumber_false q : truthyNumber q = false <-> Qeq q 0.
Proof.
  unfold truthyNumber. rewrite negb_false_iff. apply Qeq_bool_iff.
Qed.

Lemma filterProviders_ignoring_location l f :
  locationIgnored f ->
  filterProviders calculateDistance l f = List.filter (criteria f) l.
Proof.
  intros Hloc. rewrite filterProviders_unfold. cbv zeta.
  rewrite filterProviders_withoutLocation.
  unfold locationIgnored in Hloc. destruct (nearLocation f) as [near|]; [|done].
  destruct Hloc as [H|H]; apply truthyNumber_false in H; rewrite H; [done|].
  by rewrite andb_false_r.
Qed.

(** X13: when the filter has no location, or a location whose latitude
    or longitude is zero, [filterProviders] keeps, in their order, exactly
    the records that meet every criterion that is set, an empty text
    setting none; filtering its result again changes nothing. *)
Theorem X13_filterProviders_keeps_the_matching providers f :
  locationIgnored f ->
  let result := filterProviders calculateDistance providers f in
  result = List.filter (criteria f) providers
  /\ (forall p, p ∈ result <-> p ∈ providers /\ criteria f p = true)
  /\ sublist result providers
  /\ filterProviders calculateDistance result f = result.
Proof.
  intros Hloc. cbv zeta.
  rewrite !(filterProviders_ignoring_location _ f Hloc). split; [done|]. split; [|split].
  - intros p. rewrite !list_elem_of_In. apply filter_In.
  - apply filter_sublist.
  - rewrite filter_filter_andb. apply filter_ext. intros p. by destruct (criteria f p).
Qed.

Lemma insertByDistance_Permutation p l : Permutation (insertByDistance p l) (p :: l).
Proof.
  induction l as [|q l IH]; [done|]. simpl.
  destruct (Qle_bool (distanceKey p) (distanceKey q)); [done|].
  rewrite IH. apply perm_swap.
Qed.

Lemma sortByDistanceFromUser_Permutation l :
  Permutation (sortByDistanceFromUser l) l.
Proof.
  induction l as [|p l IH]; [done|]. simpl.
  rewrite insertByDistance_Permutation. by constructor.
Qed.

Lemma insertByDistance_sorted p l :
  StronglySorted (fun a b => Qle (distanceKey a) (distanceKey b)) l ->
  StronglySorted (fun a b => Qle (distanceKey a) (distanceKey b))
    (insertByDistance p l).
Proof.
  induction l as [|q l IH]; intros Hs.
  - simpl. constructor; [constructor|constructor].
  - apply StronglySorted_inv in Hs as [Hs Hq]. simpl.
    destruct (Qle_bool (distanceKey p) (distanceKey q)) eqn:Hle.
    + apply Qle_bool_iff in Hle. constructor.
      * constructor; [exact Hs|exact Hq].
      * constructor; [exact Hle|].
        eapply List.Forall_impl; [|exact Hq]. intros a Ha. simpl in Ha.
        by apply (Qle_trans _ (distanceKey q)).
    + assert (Hqp : Qle (distanceKey q) (distanceKey p)).
      { apply Qlt_le_weak, Qnot_le_lt. intros H. apply Qle_bool_iff in H.
        by rewrite H in Hle. }
      constructor; [by apply IH|].
      apply List.Forall_forall. intros a Ha.
      apply (Permutation_in _ (insertByDistance_Permutation p l)) in Ha.
      destruct Ha as [<-|Ha]; [exact Hqp|].
      by apply (proj1 (List.Forall_forall _ _) Hq).
Qed.

Lemma sortByDistanceFromUser_sorted l :
  StronglySorted (fun a b => Qle (distanceKey a) (distanceKey b))
    (sortByDistanceFromUser l).
Proof.
  induction l as [|p l IH]; [constructor|]. simpl. by apply insertByDistance_sorted.
Qed.

Lemma elem_of_withDistanceFrom userLat userLng l r :
  r ∈ withDistanceFrom calculateDistance userLat userLng l <->
  exists p c, p ∈ l /\ coordinates p = Some c
              /\ r = {| api := api p; coordinates := coordinates p;
                        distance_from_user :=
                          distanceFrom calculateDistance userLat userLng c;
                        last_updated := last_updated p |}.
Proof.
  unfold withDistanceFrom. rewrite list_elem_of_omap. split.
  - intros (p & Hp & H). destruct (coordinates p) as [c|] eqn:Hc; [|done].
    exists p, c. rewrite Hc. by inversion H.
  - intros (p & c & Hp & Hc & ->). exists p. rewrite Hc. done.
Qed.

(** The records within a radius of a position, each with its distance:
    a record whose distance is no number is not among them. *)
Lemma elem_of_within userLat userLng radius l r :
  r ∈ sortByDistanceFromUser
        (List.filter (fun p => withinRadius p radius)
           (withDistanceFrom calculateDistance userLat userLng l)) <->
  exists p c d,
    p ∈ l /\ coordinates p = Some c
    /\ distanceFrom calculateDistance userLat userLng c = Some d
    /\ Qle d radius
    /\ r = {| api := api p; coordinates := Some c;
              distance_from_user := Some d;
              last_updated := last_updated p |}.
Proof.
  rewrite list_elem_of_In. split.
  - intros Hr. apply (Permutation_in _ (sortByDistanceFromUser_Permutation _)) in Hr.
    apply filter_In in Hr as [Hr Hle]. apply list_elem_of_In in Hr.
    apply elem_of_withDistanceFrom in Hr as (p & c & Hp & Hc & ->).
    unfold withinRadius in Hle. cbn [distance_from_user] in Hle.
    destruct (distanceFrom calculateDistance userLat userLng c) as [d|] eqn:Hd;
      [|done].
    apply Qle_bool_iff in Hle. exists p, c, d. by rewrite Hc.
  - intros (p & c & d & Hp & Hc & Hd & Hle & ->).
    apply (Permutation_in _ (Permutation_sym (sortByDistanceFromUser_Permutation _))).
    apply filter_In. split.
    + apply list_elem_of_In, elem_of_withDistanceFrom. exists p, c.
      split; [done|]. split; [done|]. by rewrite Hc, Hd.
    + unfold withinRadius. cbn [distance_from_user]. by apply Qle_bool_iff.
Qed.

Lemma distancesDefined_within userLat userLng radius l :
  distancesDefined
    (sortByDistanceFromUser
       (List.filter (fun p => withinRadius p radius)
          (withDistanceFrom calculateDistance userLat userLng l))).
Proof.
  intros r Hr. apply elem_of_within in Hr as (p & c & d & _ & _ & _ & _ & ->). done.
Qed.

(** X14: with a location whose latitude and longitude are not zero,
    [filterProviders] returns, sorted by increasing distance, exactly the
    records that meet the other criteria, have a coordinate whose
    distance to the location is a number, and lie within the radius,
    each carrying its distance; a record without coordinate, or whose
    coordinate has no latitude or no longitude, is never returned; the
    radius is ten kilometres when none is given or when it is zero. *)
Theorem X14_filterProviders_near providers f near :
  nearLocation f = Some near ->
  ~ Qeq (near_latitude near) 0 ->
  ~ Qeq (near_longitude near) 0 ->
  let result := filterProviders calculateDistance providers f in
  let distanceTo c :=
    distanceFrom calculateDistance (near_latitude near) (near_longitude near) c in
  (forall r,
      r ∈ result <->
      exists p c d,
        p ∈ providers /\ criteria f p = true /\ coordinates p = Some c
        /\ distanceTo c = Some d
        /\ Qle d (effectiveRadius near)
        /\ r = {| api := api p; coordinates := Some c;
                  distance_from_user := Some d;
                  last_updated := last_updated p |})
  /\ StronglySorted (fun a b => Qle (distanceKey a) (distanceKey b)) result
  /\ distancesDefined result
  /\ (radiusKm near = None -> effectiveRadius near = 10%Q)
  /\ (forall r, radiusKm near = Some r -> Qeq r 0 -> effectiveRadius near = 10%Q).
Proof.
  intros Hnear Hlat Hlng. cbv zeta.
  rewrite filterProviders_unfold. cbv zeta. rewrite Hnear.
  assert (Ht1 : truthyNumber (near_latitude near) = true).
  { destruct (truthyNumber (near_latitude near)) eqn:H; [done|].
    by apply truthyNumber_false in H. }
  assert (Ht2 : truthyNumber (near_longitude near) = true).
  { destruct (truthyNumber (near_longitude near)) eqn:H; [done|].
    by apply truthyNumber_false in H. }
  rewrite Ht1, Ht2. cbn [andb]. rewrite filterProviders_withoutLocation.
  split; [|split; [apply sortByDistanceFromUser_sorted|
                   split; [apply distancesDefined_within|split]]].
  - intros r. rewrite elem_of_within. split.
    + intros (p & c & d & Hp & Hc & Hd & Hle & ->).
      apply list_elem_of_In, filter_In in Hp as [Hp Hcrit].
      apply list_elem_of_In in Hp. by exists p, c, d.
    + intros (p & c & d & Hp & Hcrit & Hc & Hd & Hle & ->).
      exists p, c, d. split; [|done].
      apply list_elem_of_In, filter_In. split; [by apply list_elem_of_In|done].
  - intros H. unfold effectiveRadius. by rewrite H.
  - intros r H Hz. unfold effectiveRadius. rewrite H.
    apply truthyNumber_false in Hz. by rewrite Hz.
Qed.

End Search.

(** ** Beyond the claims: statistics *)








(** ** Beyond the claims: the store *)

Import ProvidersStore.

Lemma listIncludes_spec l x : listIncludes l x = true <-> x ∈ l.
Proof.
  unfold listIncludes. rewrite existsb_exists. split.
  - intros (y & Hy & Heq). apply String.eqb_eq in Heq. subst.
    by apply list_elem_of_In.
  - intros H. exists x. split; [by apply list_elem_of_In|apply String.eqb_refl].
Qed.

Lemma elem_of_without l x t : t ∈ without l x <-> t ∈ l /\ t <> x.
Proof.
  unfold without. rewrite list_elem_of_In, filter_In, negb_true_iff, String.eqb_neq.
  by rewrite <- list_elem_of_In.
Qed.

Lemma NoDup_without l x : NoDup l -> NoDup (without l x).
Proof.
  intros H. unfold without. apply NoDup_ListNoDup, List.NoDup_filter.
  by apply NoDup_ListNoDup.
Qed.

Lemma without_absent l x : x ∉ l -> without l x = l.
Proof.
  intros H. unfold without. induction l as [|y l IH]; [done|]. simpl.
  apply not_elem_of_cons in H as [Hne Hl].
  destruct (String.eqb_spec y x) as [->|_]; [done|]. simpl. by rewrite IH.
Qed.

Lemma without_app l x : without (l ++ [x]) x = without l x.
Proof.
  unfold without. rewrite List.filter_app. simpl.
  rewrite String.eqb_refl. simpl. apply app_nil_r.
Qed.

(** The list of a toggle: [x] is removed when it is there and appended
    when it is not. *)
Lemma toggle_list l x :
  let l' := if listIncludes l x then without l x else (l ++ [x])%list in
  (x ∈ l' <-> x ∉ l)
  /\ (forall t, t <> x -> (t ∈ l' <-> t ∈ l))
  /\ (NoDup l -> NoDup l')
  /\ (x ∉ l ->
      (if listIncludes l' x then without l' x else (l' ++ [x])%list) = l).
Proof.
  cbv zeta. destruct (listIncludes l x) eqn:Hin.
  - apply listIncludes_spec in Hin. split; [|split; [|split]].
    + rewrite elem_of_without. tauto.
    + intros t Ht. rewrite elem_of_without. tauto.
    + apply NoDup_without.
    + done.
  - assert (Hnot : x ∉ l).
    { intros H. apply listIncludes_spec in H. by rewrite H in Hin. }
    split; [|split; [|split]].
    + rewrite elem_of_app, list_elem_of_singleton. tauto.
    + intros t Ht. rewrite elem_of_app, list_elem_of_singleton. tauto.
    + intros Hnd. apply NoDup_app. split; [done|]. split; [|apply NoDup_singleton].
      intros y Hy Hy'. apply list_elem_of_singleton in Hy'. by subst.
    + intros _.
      assert (Hyes : listIncludes (l ++ [x]) x = true).
      { apply listIncludes_spec, elem_of_app. right. by apply list_elem_of_singleton. }
      rewrite Hyes, without_app. by apply without_absent.
Qed.

Section Store.
Variable calculateDistance : Q -> Q -> Q -> Q -> Q.

Lemma applyFilters_frame state :
  let s' := applyFilters calculateDistance state in
  providers s' = providers state
  /\ selectedTypes s' = selectedTypes state
  /\ selectedCities s' = selectedCities state
  /\ currentFilter s' = currentFilter state
  /\ searchQuery s' = searchQuery state
  /\ showOnlyConventioned s' = showOnlyConventioned state
  /\ showNearbyOnly s' = showNearbyOnly state
  /\ userLocation s' = userLocation state
  /\ isLoading s' = isLoading state
  /\ stats s' = stats state.
Proof. done. Qed.

(** X16: [toggleProviderType] and [toggleCity] flip the selection of the
    given text and of no other: it is removed when selected and appended
    when not; a selection without repetition stays so; toggling twice a
    text that was not selected gives the selection back; the list of
    providers is not touched. *)
Theorem X16_toggle_flips_one_selection x state :
  let byType := toggleProviderType calculateDistance x state in
  let byCity := toggleCity calculateDistance x state in
  ((x ∈ selectedTypes byType <-> x ∉ selectedTypes state)
   /\ (forall t, t <> x -> (t ∈ selectedTypes byType <-> t ∈ selectedTypes state))
   /\ (NoDup (selectedTypes state) -> NoDup (selectedTypes byType))
   /\ (x ∉ selectedTypes state ->
       selectedTypes (toggleProviderType calculateDistance x byType)
       = selectedTypes state)
   /\ providers byType = providers state
   /\ selectedCities byType = selectedCities state)
  /\ ((x ∈ selectedCities byCity <-> x ∉ selectedCities state)
      /\ (forall t, t <> x -> (t ∈ selectedCities byCity <-> t ∈ selectedCities state))
      /\ (NoDup (selectedCities state) -> NoDup (selectedCities byCity))
      /\ (x ∉ selectedCities state ->
          selectedCities (toggleCity calculateDistance x byCity)
          = selectedCities state)
      /\ providers byCity = providers state
      /\ selectedTypes byCity = selectedTypes state).
Proof.
  cbv zeta. split.
  - destruct (toggle_list (selectedTypes state) x) as (H1 & H2 & H3 & H4).
    cbv zeta in *. repeat split; try done; try apply H1; try apply H2; try done.
  - destruct (toggle_list (selectedCities state) x) as (H1 & H2 & H3 & H4).
    cbv zeta in *. repeat split; try done; try apply H1; try apply H2; try done.
Qed.

Lemma builtFilter_inactive state :
  isFilterActive state = false -> builtFilter state = emptyFilter.
Proof.
  unfold isFilterActive, hasKeys, builtFilter, emptyFilter.
  rewrite !orb_false_iff.
  intros (((((Hq & _) & _) & Hc) & Hn) & (((((Ht & Hci) & Hse) & _) & _) & _)).
  rewrite Hq, Hc, Hn.
  destruct (key_type (currentFilter state)); [done|].
  destruct (key_city (currentFilter state)); [done|].
  by destruct (key_sector (currentFilter state)).
Qed.

(** X17: when no filter is active, [applyFilters] shows every provider;
    [clearFilters] leaves no filter active, so that it shows every
    provider, and it changes neither the providers, nor the selected
    provider, nor the radius. *)
Theorem X17_no_active_filter_shows_everything state :
  (isFilterActive state = false ->
   filteredProviders (applyFilters calculateDistance state) = providers state)
  /\ isFilterActive (clearFilters calculateDistance state) = false
  /\ filteredProviders (clearFilters calculateDistance state) = providers state
  /\ providers (clearFilters calculateDistance state) = providers state
  /\ selectedProviderId (clearFilters calculateDistance state)
     = selectedProviderId state
  /\ proximityRadius (clearFilters calculateDistance state) = proximityRadius state.
Proof.
  assert (Hshow : forall s, isFilterActive s = false ->
            filteredProviders (applyFilters calculateDistance s) = providers s).
  { intros s Hin. unfold applyFilters. cbv zeta. cbn [filteredProviders set_filteredProviders].
    rewrite (builtFilter_inactive s Hin).
    unfold isFilterActive in Hin. rewrite !orb_false_iff in Hin.
    destruct Hin as (((((_ & Ht) & Hc) & _) & _) & _).
    destruct (selectedTypes s); [|done]. destruct (selectedCities s); [|done].
    reflexivity. }
  split; [apply Hshow|].
  assert (Hclear : isFilterActive (clearFilters calculateDistance state) = false)
    by reflexivity.
  split; [exact Hclear|]. split; [|done].
  unfold clearFilters. rewrite Hshow; [done|]. exact Hclear.
Qed.

(** X18: [setFilter] merges its argument into [currentFilter].  A key
    it is given, also with the value [undefined], makes the filter count
    as active.  The keys [agreeged], [searchText] and [nearLocation]
    never reach the list, [applyFilters] replacing them by the state of
    the store: an argument without the keys [type], [city] and [sector]
    shows what was shown.  The key [type] given as [undefined] erases the
    criterion on the type, the filter still counting as active. *)
Theorem X18_setFilter_keys f state :
  let s' := setFilter calculateDistance f state in
  (hasKeys f = true -> isFilterActive s' = true)
  /\ (key_type f = None -> key_city f = None -> key_sector f = None ->
      filteredProviders s' = filteredProviders (applyFilters calculateDistance state))
  /\ (key_type f = Some None ->
      filter_type (builtFilter s') = None /\ isFilterActive s' = true).
Proof.
  cbv zeta.
  assert (Hactive : hasKeys f = true ->
            isFilterActive (setFilter calculateDistance f state) = true).
  { intros Hk. unfold isFilterActive.
    assert (Hk' : hasKeys (mergeFilter (currentFilter state) f) = true).
    { revert Hk. unfold hasKeys, mergeFilter. cbn.
      destruct (key_type f), (key_city f), (key_sector f), (key_agreeged f),
        (key_searchText f), (key_nearLocation f);
        cbn; rewrite ?orb_true_r; try done. }
    replace (currentFilter (setFilter calculateDistance f state))
      with (mergeFilter (currentFilter state) f) by reflexivity.
    rewrite Hk'. by rewrite !orb_true_r. }
  split; [exact Hactive|]. split.
  - intros Ht Hc Hs. unfold setFilter, applyFilters. cbv zeta.
    cbn [filteredProviders set_filteredProviders providers set_currentFilter
         selectedTypes selectedCities].
    assert (Hb : builtFilter (set_currentFilter (mergeFilter (currentFilter state) f) state)
                 = builtFilter state).
    { unfold builtFilter, mergeFilter. cbn. by rewrite Ht, Hc, Hs. }
    by rewrite Hb.
  - intros Ht. split.
    + unfold setFilter, builtFilter, mergeFilter. cbn. by rewrite Ht.
    + apply Hactive. unfold hasKeys. by rewrite Ht.
Qed.

Lemma filter_nonempty_list {A} (l : list string) (g : A -> bool) (ps : list A) :
  match l with
  | [] => ps
  | _ :: _ => List.filter g ps
  end
  = List.filter (fun p => match l with [] => true | _ :: _ => g p end) ps.
Proof. destruct l; [by rewrite filter_true|done]. Qed.

(** X19: when proximity is off or no position is known, the list that
    [applyFilters] shows is, in the order of the providers, made of
    exactly the providers whose type contains one of the selected types
    (if any is selected), whose city contains one of the selected cities
    (if any), and that meet the criteria of the filter built from the
    state; case is ignored. *)
Theorem X19_applyFilters_shows_the_matching state :
  showNearbyOnly state = false \/ userLocation state = None ->
  let shown := filteredProviders (applyFilters calculateDistance state) in
  sublist shown (providers state)
  /\ forall p,
       p ∈ shown <->
       p ∈ providers state
       /\ (selectedTypes state = []
           \/ someIncluded (selectedTypes state) (provider_type (api p)) = true)
       /\ (selectedCities state = []
           \/ someIncluded (selectedCities state) (city (api p)) = true)
       /\ criteria (builtFilter state) p = true.
Proof.
  intros Hnear. cbv zeta.
  assert (Hloc : locationIgnored (builtFilter state)).
  { unfold locationIgnored, builtFilter. cbn.
    destruct Hnear as [-> | ->]; [done|]. by destruct (showNearbyOnly state). }
  unfold applyFilters. cbv zeta. cbn [filteredProviders set_filteredProviders].
  rewrite (filter_nonempty_list (selectedTypes state)
             (fun p => someIncluded (selectedTypes state) (provider_type (api p)))).
  rewrite (filter_nonempty_list (selectedCities state)
             (fun p => someIncluded (selectedCities state) (city (api p)))).
  pose proof (filterProviders_ignoring_location calculateDistance
              (List.filter
                 (fun p => match selectedCities state with
                           | [] => true
                           | _ :: _ => someIncluded (selectedCities state) (city (api p))
                           end)
                 (List.filter
                    (fun p => match selectedTypes state with
                              | [] => true
                              | _ :: _ =>
                                  someIncluded (selectedTypes state)
                                    (provider_type (api p))
                              end)
                    (providers state)))
              (builtFilter state) Hloc) as Heq.
  rewrite Heq. split.
  - etrans; [apply filter_sublist|]. etrans; apply filter_sublist.
  - intros p. rewrite !list_elem_of_In, !filter_In, <- !list_elem_of_In.
    destruct (selectedTypes state), (selectedCities state);
      intuition (auto; discriminate).
Qed.

(** X20: [getProviderById] returns the first provider with the
    identifier, and nothing exactly when no provider has it;
    [getSelectedProvider] returns the same for a selected identifier
    other than zero, and nothing when the selected identifier is zero,
    even though a provider has the identifier zero. *)
Theorem X20_selected_provider state :
  (forall i p, getProviderById i state = Some p ->
     p ∈ providers state /\ id (api p) = i)
  /\ (forall i, getProviderById i state = None <->
        forall p, p ∈ providers state -> id (api p) <> i)
  /\ (forall i, selectedProviderId state = Some i -> i <> 0 ->
        getSelectedProvider state = getProviderById i state)
  /\ (selectedProviderId state = Some 0 -> getSelectedProvider state = None)
  /\ (selectedProviderId state = None -> getSelectedProvider state = None).
Proof.
  split; [|split; [|split; [|split]]].
  - intros i p H. unfold getProviderById in H. apply find_some in H as [Hin Hid].
    split; [by apply list_elem_of_In|]. by apply Z.eqb_eq.
  - intros i. unfold getProviderById. split.
    + intros H p Hp. apply list_elem_of_In in Hp.
      pose proof (find_none _ _ H p Hp) as Hn. simpl in Hn. by apply Z.eqb_neq.
    + intros H. destruct (List.find _ _) as [p|] eqn:Hf; [|done].
      apply find_some in Hf as [Hin Hid]. apply Z.eqb_eq in Hid.
      exfalso. apply (H p); [by apply list_elem_of_In|done].
  - intros i Hsel Hne. unfold getSelectedProvider. rewrite Hsel.
    apply Z.eqb_neq in Hne. by rewrite Hne.
  - intros Hsel. unfold getSelectedProvider. by rewrite Hsel.
  - intros Hsel. unfold getSelectedProvider. by rewrite Hsel.
Qed.

Lemma fetchProviders_unfold forceRefresh state w :
  fetchProviders calculateDistance forceRefresh state w =
  if isLoading state && negb forceRefresh then (state, w)
  else
    let r := syncProviders forceRefresh w in
    if success (fst r) && (0 <? length (data (fst r)))%nat
    then
      (applyFilters calculateDistance
         (set_isLoading false
            (set_lastUpdated (Some (currentTime (snd r)))
               (set_stats (Some (getProviderStats (data (fst r))))
                  (set_providers (data (fst r)) (set_isLoading true state))))),
       set_ticks (S (ticks (snd r))) (snd r))
    else (set_isLoading false state, snd r).
Proof.
  unfold fetchProviders. destruct (isLoading state && negb forceRefresh); [done|].
  unfold bind at 1. cbv zeta. destruct (syncProviders forceRefresh w) as [resp w1].
  cbn [fst snd]. destruct (success resp && _); reflexivity.
Qed.

(** X21: [fetchProviders] does nothing at all while a load is running,
    unless the refresh is forced.  Otherwise it runs one synchronisation
    and ends with [isLoading] false; a successful non-empty answer
    replaces the providers and their statistics, stamps the update and
    applies the filters; any other answer leaves the providers, the
    statistics and the shown list as they were. *)
Theorem X21_fetchProviders_outcomes forceRefresh state w :
  let response := fst (syncProviders forceRefresh w) in
  let r := fetchProviders calculateDistance forceRefresh state w in
  (isLoading state = true -> forceRefresh = false -> r = (state, w))
  /\ (isLoading state = false \/ forceRefresh = true ->
      isLoading (fst r) = false
      /\ (success response = true -> data response <> [] ->
          providers (fst r) = data response
          /\ stats (fst r) = Some (getProviderStats (data response))
          /\ lastUpdated (fst r) = Some (currentTime (snd (syncProviders forceRefresh w)))
          /\ fst r = applyFilters calculateDistance (fst r))
      /\ (success response = false \/ data response = [] ->
          r = (set_isLoading false state, snd (syncProviders forceRefresh w)))).
Proof.
  cbv zeta. rewrite fetchProviders_unfold. split.
  - by intros -> ->.
  - intros Hgo.
    assert (Hcond : isLoading state && negb forceRefresh = false)
      by (destruct Hgo as [-> | ->]; [done|by rewrite andb_false_r]).
    rewrite Hcond. cbv zeta.
    destruct (success (fst (syncProviders forceRefresh w))) eqn:Hs;
      [destruct (data (fst (syncProviders forceRefresh w))) as [|p l] eqn:Hd|];
      cbn [andb length Nat.ltb Nat.leb fst snd].
    + split; [done|]. split; [done|]. done.
    + split; [done|]. split; [|by intros [?|?]].
      intros _ _. repeat split; done.
    + split; [done|]. split; [done|]. done.
Qed.

Lemma filterProviders_nil f : filterProviders calculateDistance [] f = [].
Proof.
  rewrite filterProviders_unfold. cbv zeta. rewrite filterProviders_withoutLocation.
  destruct (nearLocation f) as [near|]; [|done].
  by destruct (truthyNumber _ && truthyNumber _).
Qed.

Lemma syncProvidersStore_unfold forceRefresh state w :
  syncProvidersStore calculateDistance forceRefresh state w =
  let r := syncProviders forceRefresh w in
  if success (fst r)
  then
    (({| sync_success := true; sync_error := None |},
      applyFilters calculateDistance
        (set_lastUpdated (Some (currentTime (snd r)))
           (set_stats (Some (getProviderStats (data (fst r))))
              (set_providers (data (fst r)) state)))),
     set_ticks (S (ticks (snd r))) (snd r))
  else (({| sync_success := false; sync_error := error (fst r) |}, state), snd r).
Proof.
  unfold syncProvidersStore, bind at 1. cbv zeta.
  destruct (syncProviders forceRefresh w) as [resp w1]. cbn [fst snd].
  destruct (success resp); reflexivity.
Qed.

(** X22: the store's [syncProviders] reports the success of the
    service's; on success it replaces the providers by the answer even
    when the answer is empty, which [fetchProviders] does not; on failure
    it reports the error and leaves the state as it was. *)
Theorem X22_store_sync_replaces_even_by_nothing forceRefresh state w :
  let response := fst (syncProviders forceRefresh w) in
  let r := syncProvidersStore calculateDistance forceRefresh state w in
  sync_success (fst (fst r)) = success response
  /\ (success response = true ->
      providers (snd (fst r)) = data response
      /\ stats (snd (fst r)) = Some (getProviderStats (data response))
      /\ (data response = [] ->
          providers (snd (fst r)) = [] /\ filteredProviders (snd (fst r)) = []
          /\ (isLoading state = false ->
              providers (fst (fetchProviders calculateDistance forceRefresh state w))
              = providers state)))
  /\ (success response = false ->
      snd (fst r) = state /\ sync_error (fst (fst r)) = error response
      /\ snd r = snd (syncProviders forceRefresh w)).
Proof.
  cbv zeta. rewrite syncProvidersStore_unfold. cbv zeta.
  destruct (success (fst (syncProviders forceRefresh w))) eqn:Hs; cbn [fst snd].
  - split; [done|]. split; [|done]. intros _. split; [done|]. split; [done|].
    intros Hd. rewrite Hd. split; [done|]. split.
    + unfold applyFilters. cbv zeta.
      cbn [filteredProviders set_filteredProviders providers set_providers
           set_stats set_lastUpdated].
      destruct (selectedTypes _), (selectedCities _); cbn [List.filter];
        apply filterProviders_nil.
    + intros Hl. rewrite fetchProviders_unfold, Hl. cbn [andb]. cbv zeta.
      by rewrite Hs, Hd.
  - split; [done|]. split; [done|]. done.
Qed.

Lemma syncProviders_forced w :
  directory_calls (snd (syncProviders true w)) = S (directory_calls w).
Proof.
  rewrite syncProviders_unfold. cbv zeta. cbn [negb andb].
  assert (Hd : directory_calls (snd (isCacheExpired 24 w)) = directory_calls w)
    by (by apply frames_isCacheExpired).
  set (r := fetchProvidersFromAPI (snd (isCacheExpired 24 w))).
  assert (Hr : directory_calls (snd r) = S (directory_calls w))
    by (unfold r; by rewrite fetchProvidersFromAPI_directory_calls, Hd).
  destruct (success (fst r) && _).
  - cbn [snd]. by rewrite (frames_saveToCache directory_calls).
  - by destruct (fst (loadFromCache (snd r))).
Qed.

(** X23: [refreshProviders] forces the synchronisation: it requests the
    directory exactly once, also while a load is running and while the
    directory cache is fresh, and it ends with [isRefreshing] and
    [isLoading] false. *)
Theorem X23_refreshProviders_always_fetches state w :
  let r := refreshProviders calculateDistance state w in
  directory_calls (snd r) = S (directory_calls w)
  /\ isRefreshing (fst r) = false
  /\ isLoading (fst r) = false.
Proof.
  cbv zeta. unfold refreshProviders, bind. cbv zeta.
  rewrite fetchProviders_unfold. cbn [negb]. rewrite andb_false_r. cbv zeta.
  pose proof (syncProviders_forced w) as Hcalls.
  destruct (success (fst (syncProviders true w)) && _); cbn [fst snd ret]; done.
Qed.

Lemma length_withDistanceFrom userLat userLng l :
  length (withDistanceFrom calculateDistance userLat userLng l)
  = countWhere hasCoordinates l.
Proof.
  unfold countWhere, withDistanceFrom.
  induction l as [|p l IH]; [done|].
  cbn [omap list_omap List.filter]. unfold hasCoordinates at 1.
  destruct (coordinates p); cbn [length]; by rewrite IH.
Qed.

(** X24: without a position [sortByDistance] changes nothing; with one,
    the shown list becomes the list of the shown providers that have a
    coordinate, each with its distance to the position: the providers
    without coordinate leave the shown list, the list of providers being
    untouched.  When every shown coordinate has a latitude and a
    longitude, every distance is a number and the list is sorted by
    increasing distance. *)
Theorem X24_sortByDistance_drops_the_unlocated state :
  (userLocation state = None -> sortByDistance calculateDistance state = state)
  /\ (forall location, userLocation state = Some location ->
        let sorted := filteredProviders (sortByDistance calculateDistance state) in
        (wellLocated (filteredProviders state) ->
         distancesDefined sorted
         /\ StronglySorted (fun a b => Qle (distanceKey a) (distanceKey b)) sorted)
        /\ length sorted = countWhere hasCoordinates (filteredProviders state)
        /\ providers (sortByDistance calculateDistance state) = providers state
        /\ forall r,
             r ∈ sorted <->
             exists p c,
               p ∈ filteredProviders state /\ coordinates p = Some c
               /\ r = {| api := api p; coordinates := coordinates p;
                         distance_from_user :=
                           distanceFrom calculateDistance (loc_latitude location)
                             (loc_longitude location) c;
                         last_updated := last_updated p |}).
Proof.
  split.
  - intros H. unfold sortByDistance. by rewrite H.
  - intros location H. cbv zeta. unfold sortByDistance. rewrite H.
    cbn [filteredProviders set_filteredProviders providers].
    assert (Hmem : forall r,
              r ∈ sortByDistanceFromUser
                    (withDistanceFrom calculateDistance (loc_latitude location)
                       (loc_longitude location) (filteredProviders state)) <->
              exists p c,
                p ∈ filteredProviders state /\ coordinates p = Some c
                /\ r = {| api := api p; coordinates := coordinates p;
                          distance_from_user :=
                            distanceFrom calculateDistance (loc_latitude location)
                              (loc_longitude location) c;
                          last_updated := last_updated p |}).
    { intros r. rewrite <- elem_of_withDistanceFrom, !list_elem_of_In.
      split; apply Permutation_in;
        [|apply Permutation_sym]; apply sortByDistanceFromUser_Permutation. }
    split; [|split; [|split; [done|exact Hmem]]].
    + intros Hwell. split; [|apply sortByDistanceFromUser_sorted].
      intros r Hr. apply Hmem in Hr as (p & c & Hp & Hc & ->).
      cbn [distance_from_user]. unfold distanceFrom.
      destruct (Hwell p c Hp Hc) as [Hlat Hlng].
      destruct (latitude c); [|done]. by destruct (longitude c).
    + rewrite (Permutation_length (sortByDistanceFromUser_Permutation _)).
      apply length_withDistanceFrom.
Qed.

(** The shown list [applyFilters] computes depends on the providers, the
    two selections and the filter built from the state, on nothing else. *)
Lemma applyFilters_ext s1 s2 :
  providers s1 = providers s2 ->
  selectedTypes s1 = selectedTypes s2 ->
  selectedCities s1 = selectedCities s2 ->
  builtFilter s1 = builtFilter s2 ->
  filteredProviders (applyFilters calculateDistance s1)
  = filteredProviders (applyFilters calculateDistance s2).
Proof.
  intros Hp Ht Hc Hb. unfold applyFilters. cbv zeta.
  cbn [filteredProviders set_filteredProviders]. by rewrite Hp, Ht, Hc, Hb.
Qed.

Lemma upToDate_applyFilters state :
  upToDate calculateDistance (applyFilters calculateDistance state).
Proof. unfold upToDate. by apply applyFilters_ext. Qed.

Lemma upToDate_ext s1 s2 :
  upToDate calculateDistance s1 ->
  filteredProviders s2 = filteredProviders s1 ->
  providers s2 = providers s1 ->
  selectedTypes s2 = selectedTypes s1 ->
  selectedCities s2 = selectedCities s1 ->
  builtFilter s2 = builtFilter s1 ->
  upToDate calculateDistance s2.
Proof.
  unfold upToDate. intros H Hf Hp Ht Hc Hb. rewrite Hf, H.
  symmetry. by apply applyFilters_ext.
Qed.

(** X26: every action that changes a filter leaves the shown list
    equal to what [applyFilters] computes; the actions that change the
    view, the selected provider, the permission, the radius or the
    position to a known one keep it so.  Forgetting the position keeps
    it so only when proximity is off: when it is on, the list filtered
    around the old position stays shown, although the filter built from
    the state has no location any more. *)
Theorem X26_shown_list_follows_the_filters state :
  ((forall query, upToDate calculateDistance (setSearchQuery calculateDistance query state))
   /\ (forall f, upToDate calculateDistance (setFilter calculateDistance f state))
   /\ (forall x, upToDate calculateDistance (toggleProviderType calculateDistance x state))
   /\ (forall x, upToDate calculateDistance (toggleCity calculateDistance x state))
   /\ upToDate calculateDistance (toggleConventioned calculateDistance state)
   /\ upToDate calculateDistance (toggleNearbyOnly calculateDistance state)
   /\ upToDate calculateDistance (clearFilters calculateDistance state))
  /\ (upToDate calculateDistance state ->
      (forall mode, upToDate calculateDistance (setViewMode mode state))
      /\ (forall i, upToDate calculateDistance (selectProvider i state))
      /\ (forall granted, upToDate calculateDistance (setLocationPermission granted state))
      /\ (forall radius,
            upToDate calculateDistance (setProximityRadius calculateDistance radius state))
      /\ (forall location,
            upToDate calculateDistance
              (setUserLocation calculateDistance (Some location) state))
      /\ (showNearbyOnly state = false ->
          upToDate calculateDistance (setUserLocation calculateDistance None state)))
  /\ (showNearbyOnly state = true ->
      filteredProviders (setUserLocation calculateDistance None state)
      = filteredProviders state
      /\ nearLocation (builtFilter (setUserLocation calculateDistance None state)) = None).
Proof.
  split; [|split].
  - repeat split; intros; apply upToDate_applyFilters.
  - intros Hup. split; [|split; [|split; [|split; [|split]]]].
    + intros mode. by apply (upToDate_ext state).
    + intros i. by apply (upToDate_ext state).
    + intros granted. by apply (upToDate_ext state).
    + intros radius. unfold setProximityRadius. cbv zeta.
      cbn [showNearbyOnly set_proximityRadius].
      destruct (showNearbyOnly state) eqn:Hn; [apply upToDate_applyFilters|].
      apply (upToDate_ext state); try done.
      unfold builtFilter. cbn. by rewrite Hn.
    + intros location. unfold setUserLocation. cbv zeta.
      cbn [showNearbyOnly set_isGeolocating set_userLocation].
      destruct (showNearbyOnly state) eqn:Hn; [apply upToDate_applyFilters|].
      apply (upToDate_ext state); try done.
      unfold builtFilter. cbn. by rewrite Hn.
    + intros Hn. unfold setUserLocation. cbv zeta.
      apply (upToDate_ext state); try done.
      unfold builtFilter. cbn. by rewrite Hn.
  - intros Hn. split; [done|]. unfold setUserLocation, builtFilter. cbn. by rewrite Hn.
Qed.

Lemma upToDate_fetchProviders forceRefresh state w :
  upToDate calculateDistance state ->
  upToDate calculateDistance (fst (fetchProviders calculateDistance forceRefresh state w)).
Proof.
  intros Hup. rewrite fetchProviders_unfold.
  destruct (isLoading state && negb forceRefresh); [done|]. cbv zeta.
  destruct (success _ && _); cbn [fst].
  - apply upToDate_applyFilters.
  - by apply (upToDate_ext state).
Qed.

(** X27: [fetchProviders], [refreshProviders] and the store's
    [syncProviders] keep the shown list equal to what [applyFilters]
    computes, whatever the synchronisation answers.  The store's
    [clearCache] empties the providers, the shown list, the statistics
    and the date, and clears the caches of the service; it keeps the
    filters and the selected identifier, which then selects nothing. *)
Theorem X27_loading_keeps_the_shown_list_current forceRefresh state w :
  (upToDate calculateDistance state ->
   upToDate calculateDistance (fst (fetchProviders calculateDistance forceRefresh state w))
   /\ upToDate calculateDistance (fst (refreshProviders calculateDistance state w))
   /\ upToDate calculateDistance
        (snd (fst (syncProvidersStore calculateDistance forceRefresh state w))))
  /\ (let cleared := clearCacheStore state w in
      upToDate calculateDistance (fst cleared)
      /\ providers (fst cleared) = [] /\ filteredProviders (fst cleared) = []
      /\ stats (fst cleared) = None /\ lastUpdated (fst cleared) = None
      /\ isFilterActive (fst cleared) = isFilterActive state
      /\ selectedProviderId (fst cleared) = selectedProviderId state
      /\ getSelectedProvider (fst cleared) = None
      /\ snd cleared = snd (ProvidersService.clearCache w)).
Proof.
  split.
  - intros Hup. split; [by apply upToDate_fetchProviders|]. split.
    + unfold refreshProviders, bind. cbv zeta.
      assert (H : upToDate calculateDistance
                    (fst (fetchProviders calculateDistance true
                            (set_isRefreshing true state) w))).
      { apply upToDate_fetchProviders. by apply (upToDate_ext state). }
      destruct (fetchProviders calculateDistance true (set_isRefreshing true state) w)
        as [s1 w1]. cbn [fst ret] in *. by apply (upToDate_ext s1).
    + rewrite syncProvidersStore_unfold. cbv zeta.
      destruct (success _); cbn [fst snd]; [apply upToDate_applyFilters|done].
  - cbv zeta. unfold clearCacheStore, bind, ret. 
    destruct (ProvidersService.clearCache w) as [[] w1] eqn:E. cbn [fst snd].
    split.
    + unfold upToDate, applyFilters. cbv zeta.
      cbn [filteredProviders set_filteredProviders providers set_providers
           set_stats set_lastUpdated].
      destruct (selectedTypes _), (selectedCities _); cbn [List.filter];
        by rewrite filterProviders_nil.
    + repeat split; try done.
      unfold getSelectedProvider, getProviderById. cbn.
      destruct (selectedProviderId state) as [i|]; [|done]. by destruct (i =? 0).
Qed.

(** X28: in a store whose filters were cleared, selecting one type
    shows [getProvidersByType] of it, and selecting one city shows
    [getProvidersByCity] of it. *)
Theorem X28_single_selection state x :
  filteredProviders
    (toggleProviderType calculateDistance x (clearFilters calculateDistance state))
  = getProvidersByType x state
  /\ filteredProviders
       (toggleCity calculateDistance x (clearFilters calculateDistance state))
     = getProvidersByCity x state.
Proof.
  assert (Hplain : forall l, filterProviders calculateDistance l emptyFilter = l).
  { intros l. rewrite filterProviders_ignoring_location; [|done].
    unfold criteria. cbn. apply filter_true. }
  split.
  - change (filteredProviders
              (toggleProviderType calculateDistance x
                 (clearFilters calculateDistance state)))
      with (filterProviders calculateDistance
              (List.filter (fun p => someIncluded [x] (provider_type (api p)))
                 (providers state)) emptyFilter).
    rewrite Hplain. apply filter_ext. intros p. apply orb_false_r.
  - change (filteredProviders
              (toggleCity calculateDistance x (clearFilters calculateDistance state)))
      with (filterProviders calculateDistance
              (List.filter (fun p => someIncluded [x] (city (api p)))
                 (providers state)) emptyFilter).
    rewrite Hplain. apply filter_ext. intros p. apply orb_false_r.
Qed.

(** X25: without a position [getNearbyProviders] returns nothing.
    With one it returns, sorted by increasing distance, exactly the
    providers that have a coordinate whose distance to the position is a
    number and lie within the radius, ten kilometres when none is given,
    each carrying its distance.  This is what [filterProviders] returns
    for a filter on the position alone, as long as the latitude, the
    longitude and the radius given are not zero. *)
Theorem X25_getNearbyProviders state radius :
  (userLocation state = None -> getNearbyProviders calculateDistance radius state = [])
  /\ (forall location, userLocation state = Some location ->
      let result := getNearbyProviders calculateDistance radius state in
      let distanceTo c :=
        distanceFrom calculateDistance (loc_latitude location)
          (loc_longitude location) c in
      (forall r,
          r ∈ result <->
          exists p c d,
            p ∈ providers state /\ coordinates p = Some c
            /\ distanceTo c = Some d
            /\ Qle d (default 10%Q radius)
            /\ r = {| api := api p; coordinates := Some c;
                      distance_from_user := Some d;
                      last_updated := last_updated p |})
      /\ StronglySorted (fun a b => Qle (distanceKey a) (distanceKey b)) result
      /\ distancesDefined result
      /\ (~ Qeq (loc_latitude location) 0 -> ~ Qeq (loc_longitude location) 0 ->
          (forall r, radius = Some r -> ~ Qeq r 0) ->
          result = filterProviders calculateDistance (providers state)
                     (aroundOnly location radius))).
Proof.
  split.
  - intros H. unfold getNearbyProviders. by rewrite H.
  - intros location H. cbv zeta. unfold getNearbyProviders. rewrite H.
    split; [intros r; apply elem_of_within|].
    split; [apply sortByDistanceFromUser_sorted|].
    split; [apply distancesDefined_within|].
    intros Hlat Hlng Hr. rewrite filterProviders_unfold. cbv zeta.
    cbn [nearLocation aroundOnly near_latitude near_longitude].
    assert (Ht : forall q, ~ Qeq q 0 -> truthyNumber q = true).
    { intros q Hq. destruct (truthyNumber q) eqn:E; [done|].
      by apply truthyNumber_false in E. }
    rewrite (Ht _ Hlat), (Ht _ Hlng). cbn [andb].
    rewrite filterProviders_withoutLocation.
    assert (Hall : List.filter (criteria (aroundOnly location radius)) (providers state)
                   = providers state) by apply filter_true.
    rewrite Hall.
    assert (Hrad : effectiveRadius
                     {| near_latitude := loc_latitude location;
                        near_longitude := loc_longitude location;
                        radiusKm := radius |} = default 10%Q radius).
    { unfold effectiveRadius. cbn. destruct radius as [r|]; [|done].
      by rewrite (Ht r (Hr r eq_refl)). }
    by rewrite Hrad.
Qed.

End Store.

Lemma distinctFrom_spec seen l :
  (forall x, x ∈ distinctFrom seen l <-> x ∈ l /\ x ∉ seen)
  /\ NoDup (distinctFrom seen l).
Proof.
  revert seen. induction l as [|y l IH]; intros seen.
  - split; [|constructor]. intros x. simpl. split.
    + intros H. by apply elem_of_nil in H.
    + intros [H _]. by apply elem_of_nil in H.
  - simpl. destruct (listIncludes seen y) eqn:Hy.
    + apply listIncludes_spec in Hy. destruct (IH seen) as [Hm Hn].
      split; [|exact Hn]. intros x. rewrite Hm, elem_of_cons.
      split; [intros [H1 H2]; split; [by right|done]|].
      intros [[->|H1] H2]; [done|by split].
    + assert (Hno : y ∉ seen).
      { intros H. apply listIncludes_spec in H. by rewrite H in Hy. }
      destruct (IH (y :: seen)) as [Hm Hn]. split.
      * intros x. rewrite !elem_of_cons, Hm, not_elem_of_cons.
        split.
        -- intros [->|(H1 & H2 & H3)]; [split; [by left|done]|split; [by right|done]].
        -- intros [[->|H1] H2]; [by left|].
           destruct (decide (x = y)) as [->|Hne]; [by left|by right].
      * constructor; [|exact Hn]. rewrite Hm, not_elem_of_cons. intros (_ & H & _). done.
Qed.

Lemma insertString_Permutation s l : Permutation (insertString s l) (s :: l).
Proof.
  induction l as [|t l IH]; [done|]. simpl.
  destruct (String.leb s t); [done|]. rewrite IH. apply perm_swap.
Qed.

Lemma sortStrings_Permutation l : Permutation (sortStrings l) l.
Proof.
  induction l as [|s l IH]; [done|]. simpl.
  rewrite insertString_Permutation. by constructor.
Qed.

Lemma insertString_sorted s l :
  Sorted (fun a b => String.leb a b = true) l ->
  Sorted (fun a b => String.leb a b = true) (insertString s l).
Proof.
  induction l as [|t l IH]; intros Hs.
  - simpl. by repeat constructor.
  - simpl. destruct (String.leb s t) eqn:Hle.
    + constructor; [exact Hs|]. by constructor.
    + apply Sorted_inv in Hs as [Hs Hhd]. constructor; [by apply IH|].
      assert (Hts : String.leb t s = true).
      { destruct (String.leb_total s t) as [H|H]; [by rewrite H in Hle|done]. }
      destruct l as [|u l]; simpl; [by constructor|].
      destruct (String.leb s u); constructor; [done|].
      by apply HdRel_inv in Hhd.
Qed.

Lemma sortStrings_sorted l :
  Sorted (fun a b => String.leb a b = true) (sortStrings l).
Proof.
  induction l as [|s l IH]; [constructor|]. simpl. by apply insertString_sorted.
Qed.

Lemma leb_ltb s t : String.leb s t = true -> s <> t -> String.ltb s t = true.
Proof.
  unfold String.leb, String.ltb. intros Hle Hne.
  destruct (String.compare s t) eqn:Hc; [|done|done].
  by apply String.compare_eq_iff in Hc.
Qed.

Lemma Sorted_strict l :
  NoDup l ->
  Sorted (fun a b => String.leb a b = true) l ->
  Sorted (fun a b => String.ltb a b = true) l.
Proof.
  induction l as [|s l IH]; intros Hnd Hs; [constructor|].
  apply NoDup_cons in Hnd as [Hno Hnd]. apply Sorted_inv in Hs as [Hs Hhd].
  constructor; [by apply IH|].
  destruct l as [|t l]; [constructor|]. apply HdRel_inv in Hhd.
  constructor. apply leb_ltb; [done|]. intros ->. apply Hno. by left.
Qed.

(** The distinct values of a list, sorted. *)
Lemma sorted_distinct l :
  let result := sortStrings (distinctFrom [] l) in
  (forall x, x ∈ result <-> x ∈ l)
  /\ NoDup result
  /\ Sorted (fun a b => String.ltb a b = true) result.
Proof.
  cbv zeta. destruct (distinctFrom_spec [] l) as [Hm Hn].
  assert (Hnd : NoDup (sortStrings (distinctFrom [] l))).
  { apply NoDup_ListNoDup.
    apply (Permutation_NoDup (Permutation_sym (sortStrings_Permutation _))).
    by apply NoDup_ListNoDup. }
  split; [|split; [exact Hnd|]].
  - intros x. rewrite (sortStrings_Permutation (distinctFrom [] l)), Hm.
    split; [by intros [H _]|]. intros H. split; [done|]. apply not_elem_of_nil.
  - apply Sorted_strict; [exact Hnd|apply sortStrings_sorted].
Qed.

(** X29: [getUniqueTypes] and [getUniqueCities] list the types and the
    cities of the providers, each once, in strictly increasing order of
    their code units. *)
Theorem X29_unique_values_sorted state :
  let types := getUniqueTypes state in
  let cities := getUniqueCities state in
  ((forall t, t ∈ types <-> exists p, p ∈ providers state /\ provider_type (api p) = t)
   /\ NoDup types
   /\ Sorted (fun a b => String.ltb a b = true) types)
  /\ ((forall c, c ∈ cities <-> exists p, p ∈ providers state /\ city (api p) = c)
      /\ NoDup cities
      /\ Sorted (fun a b => String.ltb a b = true) cities).
Proof.
  cbv zeta. split.
  - destruct (sorted_distinct (map (fun p => provider_type (api p)) (providers state)))
      as (Hm & Hn & Hs).
    split; [|by split]. intros t. unfold getUniqueTypes. rewrite Hm, list_elem_of_fmap.
    split; intros (p & H1 & H2); exists p; by split.
  - destruct (sorted_distinct (map (fun p => city (api p)) (providers state)))
      as (Hm & Hn & Hs).
    split; [|by split]. intros c. unfold getUniqueCities. rewrite Hm, list_elem_of_fmap.
    split; intros (p & H1 & H2); exists p; by split.
Qed.

(** ** The further theorems at sample inputs *)

Lemma X1_cleanExpiredCache_drops_the_expired_witness :
  let w := Sample.withEntry (createCacheKey "12 Rue A" "Cotonou")
             (Sample.coords (-7776000001)) (Sample.start Sample.unreachable) in
  fst (cleanExpiredCache w) <> 0%nat
  /\ geocoding_cache_v2 (storage (snd (cleanExpiredCache w)))
     = Some (cache (snd (cleanExpiredCache w))).
Proof.
  intros w.
  destruct (X1_cleanExpiredCache_drops_the_expired w) as (_ & _ & _ & _ & H & _).
  assert (Hn : fst (cleanExpiredCache w) <> 0%nat) by (vm_compute; discriminate).
  split; [exact Hn|exact (H Hn)].
Defined.

Lemma X2_expiry_boundary_witness :
  let key := createCacheKey "12 Rue A" "Cotonou" in
  let w := Sample.withEntry key (Sample.coords (-7776000000))
             (Sample.start Sample.unreachable) in
  cache (snd (cleanExpiredCache w)) !! key = Some (Sample.coords (-7776000000))
  /\ nominatim_log (snd (geocodeAddress "12 Rue A" "Cotonou" defaultCountry w))
     = buildQuery "12 Rue A" "Cotonou" defaultCountry :: nominatim_log w.
Proof.
  intros key w.
  apply (X2_expiry_boundary "12 Rue A" "Cotonou" defaultCountry w
           (Sample.coords (-7776000000))); vm_compute; reflexivity.
Defined.

Lemma X3_remote_answer_is_reused_witness :
  let first := geocodeAddress "12 Rue A" "Cotonou" defaultCountry
                 (Sample.start Sample.reachable) in
  exists coords,
    fst first = Some coords
    /\ latitude coords = Some (dec4 63703) /\ longitude coords = Some (dec4 23912)
    /\ geocoding_source coords = SourceApi.
Proof.
  intros first.
  destruct (X3_remote_answer_is_reused "12 Rue A" "Cotonou" defaultCountry
              (Sample.start Sample.reachable) 200
              {| lat := dec4 63703; lon := dec4 23912 |} [])
    as (coords & H1 & H2 & H3 & H4 & _).
  - intros cached H. vm_compute in H. discriminate.
  - vm_compute. reflexivity.
  - reflexivity.
  - exists coords. repeat split; assumption.
Defined.

Lemma X4_blank_address_fallback_is_reused_witness :
  let first := geocodeAddress "  " "Cotonou" defaultCountry
                 (Sample.start Sample.unreachable) in
  exists c,
    fst first = Some c
    /\ geocoding_source c = SourceFallback
    /\ geocodeAddress "  " "Cotonou" defaultCountry (snd first)
       = (Some c, set_ticks (S (ticks (snd first))) (snd first)).
Proof.
  intros first.
  destruct (cityCoordinates !! normalizeCity "Cotonou") as [coords|] eqn:Htable;
    [|vm_compute in Htable; discriminate].
  destruct (X4_blank_address_fallback_is_reused "  " "Cotonou" defaultCountry
              (Sample.start Sample.unreachable) coords)
    as (c & H1 & H2 & H3).
  - vm_compute. reflexivity.
  - intros cached H. vm_compute in H. discriminate.
  - vm_compute. reflexivity.
  - exact Htable.
  - exists c. split; [exact H1|]. split; [exact H2|]. apply H3.
    pose proof H1 as Hc. vm_compute in Hc. injection Hc as <-.
    vm_compute. reflexivity.
Defined.

Lemma X5_coordinates_survive_restart_witness :
  let r := geocodeAddress "" "Cotonou" defaultCountry (Sample.start Sample.unreachable) in
  geocoding_cache_v2 (storage (snd r)) = Some (cache (snd r)).
Proof.
  intros r.
  destruct (fst r) as [coords|] eqn:Hres; [|vm_compute in Hres; discriminate].
  refine (proj1 (X5_coordinates_survive_restart "" "Cotonou" defaultCountry
                   (Sample.start Sample.unreachable) coords Hres _)).
  vm_compute. discriminate.
Defined.

Lemma X6_geocodeProviders_pacing_witness :
  geocodeProviders [Sample.located] (Sample.start Sample.unreachable)
  = ([Sample.located], afterInitialize (Sample.start Sample.unreachable)).
Proof.
  refine (proj2 (proj2 (proj2 (X6_geocodeProviders_pacing [Sample.located]
                                 (Sample.start Sample.unreachable)))) _).
  intros p Hp. apply list_elem_of_singleton in Hp. by subst.
Defined.

Lemma X7_snapshot_coordinate_outlives_address_change_witness :
  let w := snd (syncProviders false (Sample.start Sample.relocating)) in
  exists r q c,
    data (fst (fetchProvidersFromAPI w)) !! 0%nat = Some r
    /\ snapshot w !! 0%nat = Some q
    /\ address (api q) = "12 Rue A" /\ address (api r) = "45 Rue B"
    /\ coordinates q = Some c /\ coordinates r = Some c.
Proof.
  intros w.
  destruct (data (fst (fetchProvidersFromAPI w)) !! 0%nat) as [r|] eqn:Hr;
    [|vm_compute in Hr; discriminate].
  destruct (snapshot w !! 0%nat) as [q|] eqn:Hq; [|vm_compute in Hq; discriminate].
  destruct (coordinates q) as [c|] eqn:Hc;
    [|vm_compute in Hq; injection Hq as <-; vm_compute in Hc; discriminate].
  exists r, q, c. split; [reflexivity|]. split; [reflexivity|].
  split; [vm_compute in Hq; by injection Hq as <-|].
  split; [vm_compute in Hr; by injection Hr as <-|].
  split; [exact Hc|].
  apply (X7_snapshot_coordinate_outlives_address_change w Sample.moved r q c).
  - vm_compute. reflexivity.
  - apply (bool_decide_unpack _). vm_compute. exact I.
  - by apply (list_elem_of_lookup_2 _ 0%nat).
  - by apply (list_elem_of_lookup_2 _ 0%nat).
  - vm_compute in Hq, Hr. injection Hq as <-. by injection Hr as <-.
  - exact Hc.
Defined.

Lemma X8_unchanged_directory_costs_no_lookup_witness :
  let w := snd (syncProviders false (Sample.start Sample.steady)) in
  map api (data (fst (fetchProvidersFromAPI w))) = Sample.three
  /\ nominatim_log (snd (fetchProvidersFromAPI w)) = nominatim_log w.
Proof.
  intros w.
  destruct (X8_unchanged_directory_costs_no_lookup w Sample.three) as (H1 & H2 & _).
  - vm_compute. reflexivity.
  - vm_compute. reflexivity.
  - by split.
Defined.

Lemma X9_saveToCache_round_trip_witness :
  let w' := snd (saveToCache [Sample.located; Sample.unlocated]
                   (Sample.start Sample.unreachable)) in
  fst (loadFromCache w') = [Sample.located; Sample.unlocated]
  /\ fst (isCacheExpired 24 w') = false.
Proof.
  intros w'.
  destruct (X9_saveToCache_round_trip [Sample.located; Sample.unlocated]
              (Sample.start Sample.unreachable)) as (H1 & _ & _ & _ & _ & H6).
  split; [exact H1|]. apply H6. vm_compute. discriminate.
Defined.

Lemma X10_second_sync_is_served_from_cache_witness :
  let first := syncProviders false (Sample.start Sample.unreachable) in
  snapshot (snd first) = data (fst first)
  /\ fst (syncProviders false (snd first))
     = {| success := true; data := data (fst first);
          message := Some MsgFromCache; error := None |}.
Proof.
  intros first.
  destruct (X10_second_sync_is_served_from_cache false (Sample.start Sample.unreachable))
    as (H1 & stamp & Hs & H2).
  - vm_compute. reflexivity.
  - vm_compute. reflexivity.
  - vm_compute. discriminate.
  - vm_compute. discriminate.
  - split; [exact H1|]. fold first in Hs, H2. rewrite H2; [reflexivity|].
    vm_compute in Hs. injection Hs as <-. vm_compute. discriminate.
Defined.


Lemma X12_clearCache_forgets_everything_witness :
  let w := snd (syncProviders false (Sample.start Sample.flaky)) in
  fst (syncProviders false (snd (ProvidersService.clearCache w)))
  = {| success := false; data := []; message := None; error := Some (ErrHttp 503) |}.
Proof.
  intros w.
  destruct (X12_clearCache_forgets_everything false w) as (_ & _ & _ & _ & _ & _ & H).
  apply H. vm_compute. reflexivity.
Defined.

Lemma X13_filterProviders_keeps_the_matching_witness :
  filterProviders Sample.squares [Sample.located; Sample.unlocated] Sample.pharmacies
  = [Sample.located; Sample.unlocated].
Proof.
  destruct (X13_filterProviders_keeps_the_matching Sample.squares
              [Sample.located; Sample.unlocated] Sample.pharmacies) as (H & _).
  - exact I.
  - rewrite H. vm_compute. reflexivity.
Defined.

Lemma X14_filterProviders_near_witness :
  StronglySorted (fun a b => Qle (distanceKey a) (distanceKey b))
    (filterProviders Sample.squares [Sample.located; Sample.unlocated]
       Sample.pharmaciesAround)
  /\ effectiveRadius Sample.around = 10%Q.
Proof.
  destruct (X14_filterProviders_near Sample.squares
              [Sample.located; Sample.unlocated] Sample.pharmaciesAround
              Sample.around) as (_ & H2 & _ & H3 & _).
  - reflexivity.
  - intros H. vm_compute in H. discriminate.
  - intros H. vm_compute in H. discriminate.
  - split; [exact H2|]. by apply H3.
Defined.


Lemma X16_toggle_flips_one_selection_witness :
  selectedTypes
    (toggleProviderType Sample.squares "pharmacie"
       (toggleProviderType Sample.squares "pharmacie" Sample.shop))
  = selectedTypes Sample.shop.
Proof.
  destruct (X16_toggle_flips_one_selection Sample.squares "pharmacie" Sample.shop)
    as ((_ & _ & _ & H & _) & _).
  apply H. apply not_elem_of_nil.
Defined.

Lemma X17_no_active_filter_shows_everything_witness :
  filteredProviders (applyFilters Sample.squares Sample.shop)
  = [Sample.located; Sample.unlocated].
Proof.
  apply (proj1 (X17_no_active_filter_shows_everything Sample.squares Sample.shop)).
  reflexivity.
Defined.

Lemma X18_setFilter_keys_witness :
  let s' := setFilter Sample.squares Sample.agreegedKey Sample.shop in
  isFilterActive s' = true
  /\ filteredProviders s' = filteredProviders (applyFilters Sample.squares Sample.shop).
Proof.
  intros s'.
  destruct (X18_setFilter_keys Sample.squares Sample.agreegedKey Sample.shop)
    as (H1 & H2 & _).
  split; [by apply H1|by apply H2].
Defined.

Lemma X19_applyFilters_shows_the_matching_witness :
  sublist (filteredProviders (applyFilters Sample.squares Sample.shop))
    (providers Sample.shop).
Proof.
  apply (X19_applyFilters_shows_the_matching Sample.squares Sample.shop).
  by left.
Defined.

Lemma X20_selected_provider_witness :
  getSelectedProvider (selectProvider (Some 1) Sample.shop) = Some Sample.located
  /\ getSelectedProvider (selectProvider (Some 0) Sample.shop) = None.
Proof.
  destruct (X20_selected_provider (selectProvider (Some 1) Sample.shop))
    as (_ & _ & H & _).
  destruct (X20_selected_provider (selectProvider (Some 0) Sample.shop))
    as (_ & _ & _ & H0 & _).
  split.
  - rewrite (H 1); [vm_compute; reflexivity|reflexivity|discriminate].
  - by apply H0.
Defined.

Lemma X21_fetchProviders_outcomes_witness :
  let r := fetchProviders Sample.squares false ProvidersStore.initialState
             (Sample.start Sample.unreachable) in
  isLoading (fst r) = false
  /\ providers (fst r)
     = data (fst (syncProviders false (Sample.start Sample.unreachable))).
Proof.
  intros r.
  destruct (X21_fetchProviders_outcomes Sample.squares false
              ProvidersStore.initialState (Sample.start Sample.unreachable))
    as (_ & H).
  destruct H as (H1 & H2 & _); [by left|].
  split; [exact H1|]. apply H2; [vm_compute; reflexivity|vm_compute; discriminate].
Defined.

Lemma X22_store_sync_replaces_even_by_nothing_witness :
  let r := syncProvidersStore Sample.squares false Sample.shop
             (Sample.start Sample.offline) in
  snd (fst r) = Sample.shop /\ sync_error (fst (fst r)) = Some ErrNetwork.
Proof.
  intros r.
  destruct (X22_store_sync_replaces_even_by_nothing Sample.squares false Sample.shop
              (Sample.start Sample.offline)) as (_ & _ & H).
  destruct H as (H1 & H2 & _); [vm_compute; reflexivity|].
  split; [exact H1|]. fold r in H2. rewrite H2. vm_compute. reflexivity.
Defined.

Lemma X24_sortByDistance_drops_the_unlocated_witness :
  let state := ProvidersStore.set_userLocation (Some Sample.position) Sample.shop in
  length (filteredProviders (sortByDistance Sample.squares state)) = 1%nat
  /\ providers (sortByDistance Sample.squares state) = providers state
  /\ StronglySorted (fun a b => Qle (distanceKey a) (distanceKey b))
       (filteredProviders (sortByDistance Sample.squares state)).
Proof.
  intros state.
  destruct (X24_sortByDistance_drops_the_unlocated Sample.squares state) as (_ & H).
  destruct (H Sample.position) as (H1 & H2 & H3 & _); [reflexivity|].
  split; [|split; [exact H3|]].
  - cbv zeta in H2. rewrite H2. vm_compute. reflexivity.
  - apply H1. intros p c Hp Hc.
    apply elem_of_cons in Hp as [->|Hp].
    + vm_compute in Hc. injection Hc as <-. by split.
    + apply list_elem_of_singleton in Hp as ->. discriminate.
Defined.

Lemma X25_getNearbyProviders_witness :
  let state := ProvidersStore.set_userLocation (Some Sample.position) Sample.shop in
  getNearbyProviders Sample.squares (Some 5%Q) state
  = filterProviders Sample.squares (providers state)
      (aroundOnly Sample.position (Some 5%Q)).
Proof.
  intros state.
  destruct (X25_getNearbyProviders Sample.squares state (Some 5%Q)) as (_ & H).
  destruct (H Sample.position) as (_ & _ & _ & H3); [reflexivity|].
  apply H3.
  - intros E. vm_compute in E. discriminate.
  - intros E. vm_compute in E. discriminate.
  - intros r [= <-] E. vm_compute in E. discriminate.
Defined.

Lemma X26_shown_list_follows_the_filters_witness :
  let state := applyFilters Sample.squares Sample.shop in
  upToDate Sample.squares (setProximityRadius Sample.squares 5%Q state)
  /\ upToDate Sample.squares (setUserLocation Sample.squares None state).
Proof.
  intros state.
  destruct (X26_shown_list_follows_the_filters Sample.squares state) as (Hall & H & _).
  destruct Hall as (_ & _ & _ & _ & _ & _ & _).
  destruct H as (_ & _ & _ & H4 & _ & H6).
  - reflexivity.
  - split; [apply H4|apply H6; reflexivity].
Defined.

Lemma X27_loading_keeps_the_shown_list_current_witness :
  let state := applyFilters Sample.squares Sample.shop in
  upToDate Sample.squares
    (fst (fetchProviders Sample.squares false state (Sample.start Sample.unreachable))).
Proof.
  intros state.
  destruct (X27_loading_keeps_the_shown_list_current Sample.squares false state
              (Sample.start Sample.unreachable)) as (H & _).
  destruct H as (H1 & _); [reflexivity|exact H1].
Defined.

Lemma X29_unique_values_sorted_witness :
  "pharmacie" ∈ getUniqueTypes Sample.shop /\ "Cotonou" ∈ getUniqueCities Sample.shop.
Proof.
  destruct (X29_unique_values_sorted Sample.shop) as ((Ht & _) & (Hc & _)).
  split.
  - apply Ht. exists Sample.located. split; [by left|reflexivity].
  - apply Hc. exists Sample.located. split; [by left|reflexivity].
Defined.
